(** * progressbar: a shallow embedding of [progressbar.h]

    The development follows the C source function by function.  The
    target is the usual LP64 platform of the code (it uses [ioctl] and
    [termios]): [int] is 32 bits, [unsigned long] and [size_t] are 64
    bits, [double] is IEEE 754 binary64 evaluated in double precision
    with rounding to nearest even.

    - machine integers are [Z] with the reduction to the type's range
      written out ([int_wrap], [ulong_wrap], [size_wrap]); an overflow
      of [int], which ISO C leaves undefined, wraps around in the
      model, and the theorems on the layout state the ranges in which
      none occurs;
    - [double] is [spec_float] with the operations of [SpecFloat] at
      precision 53 and maximal exponent 1024;
    - the clock and the terminal are an [env] read by the code;
    - the bytes written to the two streams are lists of characters.

    The first part holds the definitions, the second the lemmas and
    the theorems on the layout, the time components, the filled part
    of the bar, the ETA and the text of a draw. *)

From Stdlib Require Import ZArith Lia Bool List String Ascii.
From Stdlib Require Import Reals Lra.
From Stdlib Require Import DecimalString DecimalN.
From Stdlib Require Import Floats.SpecFloat.
Import ListNotations.

Local Open Scope Z_scope.

(** ** Machine integers *)

Module CInt.

Definition INT_MIN : Z := - 2 ^ 31.
Definition INT_MAX : Z := 2 ^ 31 - 1.
Definition ULONG_MAX : Z := 2 ^ 64 - 1.

(** Reduction of an integer to the range of [int] (two's complement). *)
Definition int_wrap (z : Z) : Z := (z + 2 ^ 31) mod 2 ^ 32 - 2 ^ 31.

(** Reduction to the range of [unsigned long]. *)
Definition ulong_wrap (z : Z) : Z := z mod 2 ^ 64.

(** Reduction to the range of [size_t]. *)
Definition size_wrap (z : Z) : Z := z mod 2 ^ 64.

Definition is_int (z : Z) : Prop := INT_MIN <= z <= INT_MAX.
Definition is_ulong (z : Z) : Prop := 0 <= z <= ULONG_MAX.
(** [time_t] is a signed 64-bit count of seconds. *)
Definition is_time (z : Z) : Prop := - 2 ^ 63 <= z < 2 ^ 63.

Definition int_add (a b : Z) : Z := int_wrap (a + b).
Definition int_sub (a b : Z) : Z := int_wrap (a - b).
Definition int_mul (a b : Z) : Z := int_wrap (a * b).
(** C division truncates toward zero. *)
Definition int_div (a b : Z) : Z := int_wrap (Z.quot a b).

Definition ulong_add (a b : Z) : Z := ulong_wrap (a + b).
Definition ulong_sub (a b : Z) : Z := ulong_wrap (a - b).

End CInt.
Import CInt.

Declare Scope cint_scope.
Delimit Scope cint_scope with cint.
Infix "+i" := int_add (at level 50, left associativity) : cint_scope.
Infix "-i" := int_sub (at level 50, left associativity) : cint_scope.
Infix "*i" := int_mul (at level 40, left associativity) : cint_scope.
Infix "/i" := int_div (at level 40, left associativity) : cint_scope.
Local Open Scope cint_scope.

(** ** Constants of the source *)

Definition DEFAULT_SCREEN_WIDTH : Z := 80.
Definition MINIMUM_BAR_WIDTH : Z := 10.
Definition ETA_FORMAT_LENGTH : Z := 13.
Definition WHITESPACE_LENGTH : Z := 2.
Definition BAR_BORDER_WIDTH : Z := 2.

(** ** Layout *)

Definition progressbar_max (x y : Z) : Z := if x >? y then x else y.

Definition progressbar_bar_width (screen_width label_length : Z) : Z :=
  progressbar_max MINIMUM_BAR_WIDTH
    (screen_width -i label_length -i ETA_FORMAT_LENGTH -i WHITESPACE_LENGTH).

Definition progressbar_label_width (screen_width label_length bar_width : Z) : Z :=
  let eta_width := ETA_FORMAT_LENGTH in
  if label_length +i 1 +i bar_width +i 1 +i ETA_FORMAT_LENGTH >? screen_width
  then progressbar_max 0 (screen_width -i bar_width -i eta_width -i WHITESPACE_LENGTH)
  else label_length.

(** ** Time components *)

Record progressbar_time_components : Set := Build_time_components {
  hours : Z;
  minutes : Z;
  seconds : Z
}.

Definition progressbar_calc_time_components (seconds : Z)
  : progressbar_time_components :=
  let hours := seconds /i 3600 in
  let seconds := seconds -i hours *i 3600 in
  let minutes := seconds /i 60 in
  let seconds := seconds -i minutes *i 60 in
  Build_time_components hours minutes seconds.

(** ** Outcomes

    C has no exceptions.  To be able to say that a division by zero is
    never executed, every division of the model goes through [ddiv],
    which stops with [DivByZero] on a zero divisor; [AssertFailed] is
    the abort of a failed [assert]. *)

Inductive outcome (A : Type) : Type :=
| Done (a : A)
| DivByZero
| AssertFailed.
Arguments Done {A} a.
Arguments DivByZero {A}.
Arguments AssertFailed {A}.

Definition ret {A : Type} (a : A) : outcome A := Done a.

Definition bind {A B : Type} (c : outcome A) (k : A -> outcome B) : outcome B :=
  match c with
  | Done a => k a
  | DivByZero => DivByZero
  | AssertFailed => AssertFailed
  end.

Notation "x <- c ;; k" := (bind c (fun x => k))
  (at level 61, c at next level, right associativity).

(** ** Doubles *)

Definition double : Set := spec_float.

Definition double_of_Z (z : Z) : double := binary_normalize 53 1024 z 0 false.

Definition dmul (x y : double) : double := SFmul 53 1024 x y.

Definition double_is_zero (x : double) : bool :=
  match x with
  | S754_zero _ => true
  | _ => false
  end.

Definition ddiv (x y : double) : outcome double :=
  if double_is_zero y then DivByZero else Done (SFdiv 53 1024 x y).

(** [x > y] on doubles. *)
Definition dgt (x y : double) : bool := SFltb y x.

(** The integral part of a double, when it has one. *)
Definition double_trunc (x : double) : option Z :=
  match x with
  | S754_zero _ => Some 0
  | S754_finite s m e => Some (cond_Zopp s (Z.shiftl (Zpos m) e))
  | S754_infinity _ => None
  | S754_nan => None
  end.

(** Conversion of a double to [int]: truncation toward zero.  Outside
    the range of [int] ISO C leaves the conversion undefined; the model
    takes what the x86-64 conversion instruction yields, [INT_MIN]. *)
Definition double_to_int (x : double) : Z :=
  match double_trunc x with
  | Some z => if (INT_MIN <=? z) && (z <=? INT_MAX) then z else INT_MIN
  | None => INT_MIN
  end.

(** [difftime(t1, t0)]: the difference of two calendar times as a double. *)
Definition difftime (t1 t0 : Z) : double := double_of_Z (t1 - t0).

(** ** The progress bar and what it reads from outside *)

Record bar_format : Set := Build_format {
  fmt_begin : ascii;
  fmt_fill : ascii;
  fmt_end : ascii
}.

Record progressbar : Set := Build_progressbar {
  max : Z;            (* unsigned long *)
  value : Z;          (* unsigned long *)
  start : Z;          (* time_t *)
  label : string;     (* the characters before the terminator *)
  format : bar_format
}.

(** What one draw reads from its surroundings: the result of
    [time(NULL)], and of the window-size query ([None] when [ioctl]
    returns -1, otherwise the [ws_col] it filled in). *)
Record env : Set := Build_env {
  time : Z;                  (* time_t *)
  ioctl_ws_col : option Z    (* unsigned short *)
}.

(** The fields hold values of their C types. *)
Definition wf_bar (bar : progressbar) : Prop :=
  is_ulong (max bar) /\ is_ulong (value bar) /\ is_time (start bar).

(** What [ioctl] reports is an [unsigned short]. *)
Definition wf_env (e : env) : Prop :=
  match ioctl_ws_col e with
  | Some ws_col => 0 <= ws_col <= 65535
  | None => True
  end.

(** ** Output streams *)

Inductive FILE : Set := stdout | stderr.

Record streams : Set := Build_streams {
  out : list ascii;
  err : list ascii
}.

Definition fputs (cs : list ascii) (file : FILE) (s : streams) : streams :=
  match file with
  | stdout => Build_streams (out s ++ cs) (err s)
  | stderr => Build_streams (out s) (err s ++ cs)
  end.

Definition fputc (ch : ascii) (file : FILE) (s : streams) : streams :=
  fputs [ch] file s.

(** [fwrite(ptr, 1, n, file)] on a string: its first [n] characters
    ([n] is a [size_t]; the model stops at the end of the string). *)
Definition fwrite (ptr : string) (n : Z) (file : FILE) (s : streams) : streams :=
  fputs (firstn (Z.to_nat (size_wrap n)) (list_ascii_of_string ptr)) file s.

(** The loop [for (i = 0; i < times; ++i) fputc(ch, file)], [times]
    being a [size_t]. *)
Definition progressbar_write_char (file : FILE) (ch : ascii) (times : Z)
  (s : streams) : streams :=
  Nat.iter (Z.to_nat (size_wrap times)) (fputc ch file) s.

(** *** [printf] conversions of the ETA format *)

Definition CR : ascii := "013"%char.
Definition LF : ascii := "010"%char.
Definition ESC : ascii := "027"%char.

(** [%<width>d] when [zero_pad] is false, [%0<width>d] when it is true. *)
Definition format_d (zero_pad : bool) (width : nat) (n : Z) : list ascii :=
  let digits := list_ascii_of_string (NilZero.string_of_uint (N.to_uint (Z.abs_N n))) in
  let sign := if n <? 0 then ["-"%char] else [] in
  let pad := (width - (List.length sign + List.length digits))%nat in
  if zero_pad
  then sign ++ repeat "0"%char pad ++ digits
  else repeat " "%char pad ++ sign ++ digits.

(** ["ETA:%2dh%02dm%02ds"] *)
Definition ETA_FORMAT (h m s : Z) : list ascii :=
  list_ascii_of_string "ETA:" ++ format_d false 2 h ++ ["h"%char]
    ++ format_d true 2 m ++ ["m"%char]
    ++ format_d true 2 s ++ ["s"%char].

(** The prefix that the macro [printf_bar] prints (on the standard
    output) before its own text: erase the line, return to column 0. *)
Definition CLEAR_LINE : list ascii := [ESC; "["%char; "2"%char; "K"%char; CR].

(** ** Drawing *)

Definition get_screen_width (e : env) : Z :=
  match ioctl_ws_col e with
  | None => DEFAULT_SCREEN_WIDTH
  | Some ws_col => if ws_col =? 0 then DEFAULT_SCREEN_WIDTH else ws_col
  end.

Definition progressbar_remaining_seconds (e : env) (bar : progressbar) : outcome Z :=
  let offset := difftime (time e) (start bar) in
  if (value bar >? 0) && dgt offset (double_of_Z 0)
  then q <- ddiv offset (double_of_Z (value bar)) ;;
       ret (double_to_int (dmul q (double_of_Z (ulong_sub (max bar) (value bar)))))
  else ret 0.

(** The three values that [progressbar_draw] computes from the bar
    before it writes anything. *)

Definition draw_completed (bar : progressbar) : bool := value bar >=? max bar.

(** The two arms of the conditional expression are an [int] and a
    [double]: the expression is a [double], converted to [int] by the
    initialisation. *)
Definition draw_bar_piece_current (bar : progressbar) (bar_width : Z) : outcome Z :=
  let bar_piece_count := bar_width -i BAR_BORDER_WIDTH in
  x <- (if draw_completed bar
        then ret (double_of_Z bar_piece_count)
        else q <- ddiv (double_of_Z (value bar)) (double_of_Z (max bar)) ;;
             ret (dmul (double_of_Z bar_piece_count) q)) ;;
  ret (double_to_int x).

Definition draw_eta (e : env) (bar : progressbar) : outcome progressbar_time_components :=
  if draw_completed bar
  then ret (progressbar_calc_time_components
              (double_to_int (difftime (time e) (start bar))))
  else r <- progressbar_remaining_seconds e bar ;;
       ret (progressbar_calc_time_components r).

Definition progressbar_draw (e : env) (bar : progressbar) (s : streams)
  : outcome streams :=
  let screen_width := int_wrap (get_screen_width e) in
  let label_length := int_wrap (Z.of_nat (String.length (label bar))) in
  let bar_width := progressbar_bar_width screen_width label_length in
  let label_width := progressbar_label_width screen_width label_length bar_width in
  let bar_piece_count := bar_width -i BAR_BORDER_WIDTH in
  bar_piece_current <- draw_bar_piece_current bar bar_width ;;
  eta <- draw_eta e bar ;;
  let '(bar_width, s) :=
    if label_width =? 0
    then (bar_width +i 1, s)
    else (bar_width, fputc " "%char stderr (fwrite (label bar) label_width stderr s)) in
  let s := fputc (fmt_begin (format bar)) stderr s in
  let s := progressbar_write_char stderr (fmt_fill (format bar)) bar_piece_current s in
  let s := progressbar_write_char stderr " "%char (bar_piece_count -i bar_piece_current) s in
  let s := fputc (fmt_end (format bar)) stderr s in
  let s := fputc " "%char stderr s in
  let s := fputs (ETA_FORMAT (hours eta) (minutes eta) (seconds eta)) stderr s in
  let s := fputc CR stderr s in
  ret s.

(** ** The operations of the interface *)

Definition progressbar_update_label (bar : progressbar) (label : string) : progressbar :=
  Build_progressbar (max bar) (value bar) (start bar) label (format bar).

Definition progressbar_update (e : env) (bar : progressbar) (value : Z) (s : streams)
  : outcome (progressbar * streams) :=
  let bar := Build_progressbar (max bar) value (start bar) (label bar) (format bar) in
  s <- progressbar_draw e bar s ;;
  ret (bar, s).

Definition progressbar_inc (e : env) (bar : progressbar) (s : streams)
  : outcome (progressbar * streams) :=
  progressbar_update e bar (ulong_add (value bar) 1) s.

(** [progressbar_finish] draws, ends the line and frees the bar: only
    the streams are left. *)
Definition progressbar_finish (e : env) (bar : progressbar) (s : streams)
  : outcome streams :=
  s <- progressbar_draw e bar s ;;
  ret (fputs [LF] stderr s).

(** [malloc_ok] tells whether the allocation succeeds, [now] is the
    result of the call of [time] that sets the start; [e] is what the
    first draw reads. *)
Definition progressbar_new_with_format (malloc_ok : bool) (now : Z) (e : env)
  (label : string) (max : Z) (format : string) (s : streams)
  : outcome (option progressbar * streams) :=
  if negb malloc_ok then ret (None, s) else
  match list_ascii_of_string format with
  | [b; f; d] =>
      let new := Build_progressbar max 0 now EmptyString (Build_format b f d) in
      let new := progressbar_update_label new label in
      s <- progressbar_draw e new s ;;
      ret (Some new, s)
  | _ => AssertFailed
  end.

Definition progressbar_new (malloc_ok : bool) (now : Z) (e : env)
  (label : string) (max : Z) (s : streams)
  : outcome (option progressbar * streams) :=
  progressbar_new_with_format malloc_ok now e label max "|=|" s.

(** ** The macro [for_bar]

    [for_bar(start, end, body)] expands to

    [progressbar *progress = progressbar_new("Loading", end);
     for (int i = start; i < end; i++) { { body } progressbar_inc(progress); }
     progressbar_finish(progress);]

    [start] and [end] are taken to be [int] values, as the counter [i]
    is.  The body is a statement of the caller, with [i] and
    [progress] in scope: it may write to the streams, to [i] and to
    the bar, and it ends by reaching its end, by [continue] (on to
    [i++], past the increment of the bar) or by [break] (on to
    [progressbar_finish]).  A body that returns, jumps out or does not
    end is outside the model.  The draws read the clock and the
    terminal one after the other: [envs k] is what the draw number [k]
    reads. *)

Inductive body_exit : Set := BodyEnd | BodyContinue | BodyBreak.

Record body_result : Set := Build_body_result {
  exit_of : body_exit;
  i_of : Z;
  bar_of : progressbar;
  streams_of : streams
}.

Definition loop_body : Set := Z -> progressbar -> streams -> body_result.

(** A loop need not end: a run with [fuel] rounds at most is [None]
    when the rounds do not suffice. *)
Definition bind_fuel {A B : Type} (c : option (outcome A))
  (k : A -> option (outcome B)) : option (outcome B) :=
  match c with
  | None => None
  | Some (Done a) => k a
  | Some DivByZero => Some DivByZero
  | Some AssertFailed => Some AssertFailed
  end.

(** The loop from the counter [i] on; [k] numbers the next draw, and
    the result holds the number of the draw after the loop. *)
Fixpoint for_bar_loop (fuel : nat) (envs : nat -> env) (k : nat)
  (body : loop_body) (i end_ : Z) (progress : progressbar) (s : streams)
  : option (outcome (nat * progressbar * streams)) :=
  match fuel with
  | O => None
  | S fuel' =>
      if i <? end_
      then let r := body i progress s in
           match exit_of r with
           | BodyBreak => Some (Done (k, bar_of r, streams_of r))
           | BodyContinue =>
               for_bar_loop fuel' envs k body (i_of r +i 1) end_ (bar_of r)
                 (streams_of r)
           | BodyEnd =>
               bind_fuel (Some (progressbar_inc (envs k) (bar_of r) (streams_of r)))
                 (fun r' =>
                    for_bar_loop fuel' envs (S k) body (i_of r +i 1) end_
                      (fst r') (snd r'))
           end
      else Some (Done (k, progress, s))
  end.

(** The macro does not test what [progressbar_new] returns: after a
    failed allocation it dereferences a null pointer, which the result
    [None] of the outcome stands for. *)
Definition for_bar (fuel : nat) (malloc_ok : bool) (now : Z) (envs : nat -> env)
  (body : loop_body) (start_ end_ : Z) (s : streams)
  : option (outcome (option streams)) :=
  bind_fuel (Some (progressbar_new malloc_ok now (envs O) "Loading"
                     (ulong_wrap end_) s))
    (fun r =>
       match fst r with
       | None => Some (Done None)
       | Some progress =>
           bind_fuel (for_bar_loop fuel envs 1%nat body start_ end_ progress (snd r))
             (fun r' =>
                let '(k, progress', s') := r' in
                bind_fuel (Some (progressbar_finish (envs k) progress' s'))
                  (fun s'' => Some (Done (Some s''))))
       end).

(** A body that reaches its end and leaves the counter and the bar as
    they are: it only writes to the streams. *)
Definition plain_body (body : loop_body) : Prop :=
  forall i progress s,
    exit_of (body i progress s) = BodyEnd /\
    i_of (body i progress s) = i /\
    bar_of (body i progress s) = progress.

(** The text that one draw appends to the error stream. *)
Definition draw_output (e : env) (bar : progressbar) : outcome (list ascii) :=
  s <- progressbar_draw e bar (Build_streams [] []) ;;
  ret (err s).

(** The characters that one draw writes, from the values it computed. *)
Definition draw_text (bar : progressbar)
  (label_width bar_piece_count bar_piece_current : Z)
  (eta : progressbar_time_components) : list ascii :=
  (if label_width =? 0 then []
   else firstn (Z.to_nat (size_wrap label_width)) (list_ascii_of_string (label bar))
        ++ [" "%char])
  ++ [fmt_begin (format bar)]
  ++ repeat (fmt_fill (format bar)) (Z.to_nat (size_wrap bar_piece_current))
  ++ repeat " "%char (Z.to_nat (size_wrap (bar_piece_count -i bar_piece_current)))
  ++ [fmt_end (format bar)]
  ++ [" "%char]
  ++ ETA_FORMAT (hours eta) (minutes eta) (seconds eta)
  ++ [CR].

(** ** The formulas of the specification

    Written from the words of the specification, to be compared with
    what the code computes. *)

(** "Filled cells = floor(fillCellCount * current / maximum)", with
    "fill-cell count = barWidth - 2". *)
Definition spec_filled_cells (barWidth current maximum : Z) : Z :=
  (barWidth - 2) * current / maximum.

(** "estimate remaining seconds as elapsed * (maximum - current) / current". *)
Definition spec_remaining_seconds (elapsed current maximum : Z) : Z :=
  elapsed * (maximum - current) / current.

(** ** Rounding in closed form

    The functions below restate, on pairs of a mantissa and an
    exponent, what [binary_round_aux] computes on mantissas of at
    least 53 bits; the lemmas of the second part prove the agreement. *)

(** [k] steps of [shr_1] from the mantissa [m], round bit [r0] and
    sticky bit [s0]. *)
Definition shr_result (m : Z) (r0 s0 : bool) (k : Z) : shr_record :=
  if 0 <? k
  then Build_shr_record (m / 2 ^ k) (Z.testbit m (k - 1))
         (negb (m mod 2 ^ (k - 1) =? 0) || r0 || s0)
  else Build_shr_record m r0 s0.

(** Rounding to nearest even adds one to the mantissa. *)
Definition rne_up (mrs : shr_record) : bool :=
  shr_r mrs && (shr_s mrs || Z.odd (shr_m mrs)).

(** The round and sticky bits that stand for a location. *)
Definition loc_r (l : location) : bool := shr_r (shr_record_of_loc 0 l).

Definition loc_s (l : location) : bool := shr_s (shr_record_of_loc 0 l).

(** The mantissa [mx] at location [lx], shifted by [k] bits and rounded. *)
Definition round_mantissa (mx : Z) (lx : location) (k : Z) : Z :=
  let mrs := shr_result mx (loc_r lx) (loc_s lx) k in
  shr_m mrs + Z.b2z (rne_up mrs).

(** A rounded mantissa of 54 bits is [2^53]: it is written with 53. *)
Definition renorm_pair (m e : Z) : Z * Z :=
  if m =? 2 ^ 53 then (2 ^ 52, e + 1) else (m, e).

Definition renorm (sx : bool) (m e : Z) : double :=
  if m =? 2 ^ 53
  then S754_finite sx (Z.to_pos (2 ^ 52)) (e + 1)
  else S754_finite sx (Z.to_pos m) e.

(** The finite double of a sign, a mantissa and an exponent. *)
Definition finite_of (sx : bool) (me : Z * Z) : double :=
  S754_finite sx (Z.to_pos (fst me)) (snd me).

(** A normal double has a mantissa of exactly 53 bits. *)
Definition normal_pair (x : Z * Z) : Prop := 2 ^ 52 <= fst x < 2 ^ 53.

(** On normal doubles of the same sign the order is that of the
    exponents, then of the mantissas. *)
Definition lex_le (x y : Z * Z) : Prop :=
  snd x < snd y \/ (snd x = snd y /\ fst x <= fst y).

Definition lex_lt (x y : Z * Z) : Prop :=
  snd x < snd y \/ (snd x = snd y /\ fst x < fst y).

(** The double 1.0. *)
Definition one_pair : Z * Z := (2 ^ 52, -52).

(** The double of a positive integer. *)
Definition conv_pair (n : Z) : Z * Z :=
  let k := Zdigits2 n - 53 in
  if k <? 0 then (n * 2 ^ (- k), k)
  else renorm_pair (round_mantissa n loc_Exact k) k.

(** The rounding of an exact mantissa adds one. *)
Definition exact_up (mx k : Z) : bool :=
  (0 <? k) && Z.testbit mx (k - 1)
  && (negb (mx mod 2 ^ (k - 1) =? 0) || Z.odd (mx / 2 ^ k)).

(** The quotient and the product of two normal doubles. *)
Definition div_pair (x y : Z * Z) : Z * Z :=
  let m := fst x * 2 ^ 53 in
  let q := m / fst y in
  let k := if q <? 2 ^ 53 then 0 else 1 in
  renorm_pair (round_mantissa q (new_location (fst y) (m mod fst y)) k)
    (snd x - snd y - 53 + k).

Definition mul_pair (x y : Z * Z) : Z * Z :=
  let p := fst x * fst y in
  let k := if p <? 2 ^ 105 then 52 else 53 in
  renorm_pair (round_mantissa p loc_Exact k) (snd x + snd y + k).

(** The real number that a pair of a mantissa and an exponent stands for. *)
Definition bpow (e : Z) : R := powerRZ 2 e.

Definition F2R (p : Z * Z) : R := (IZR (fst p) * bpow (snd p))%R.

(** ** Facts on machine integers *)

Lemma int_wrap_id (z : Z) : is_int z -> int_wrap z = z.
Proof.
  unfold is_int, INT_MIN, INT_MAX, int_wrap. intros H.
  rewrite Z.mod_small; lia.
Qed.

Lemma int_wrap_range (z : Z) : is_int (int_wrap z).
Proof.
  unfold is_int, INT_MIN, INT_MAX, int_wrap.
  pose proof (Z.mod_pos_bound (z + 2 ^ 31) (2 ^ 32) ltac:(lia)). lia.
Qed.

Lemma progressbar_max_spec (x y : Z) : progressbar_max x y = Z.max x y.
Proof.
  unfold progressbar_max. destruct (Z.gtb_spec x y); lia.
Qed.

Lemma int_add_exact (a b : Z) : is_int (a + b) -> a +i b = a + b.
Proof. apply int_wrap_id. Qed.

Lemma int_sub_exact (a b : Z) : is_int (a - b) -> a -i b = a - b.
Proof. apply int_wrap_id. Qed.

Lemma int_mul_exact (a b : Z) : is_int (a * b) -> a *i b = a * b.
Proof. apply int_wrap_id. Qed.

Lemma int_div_exact (a b : Z) : is_int (Z.quot a b) -> a /i b = Z.quot a b.
Proof. apply int_wrap_id. Qed.

Lemma is_int_bounds (z : Z) : - 2147483648 <= z <= 2147483647 -> is_int z.
Proof. unfold is_int, INT_MIN, INT_MAX. lia. Qed.

(** Rewrites an [int] operation into the operation on [Z] when the
    result is seen to be in range. *)
Ltac int_exact :=
  unfold int_add, int_sub, int_mul;
  repeat match goal with
         | |- context [int_wrap ?z] =>
             rewrite (int_wrap_id z) by (apply is_int_bounds; lia)
         end.

(** ** Layout *)

Lemma bar_width_at_least_minimum (W L : Z) : 10 <= progressbar_bar_width W L.
Proof.
  unfold progressbar_bar_width, MINIMUM_BAR_WIDTH.
  rewrite progressbar_max_spec. lia.
Qed.

Lemma bar_width_exact (W L : Z) :
  0 <= W <= INT_MAX -> 0 <= L <= INT_MAX - 15 ->
  progressbar_bar_width W L = Z.max 10 (W - L - 13 - 2).
Proof.
  unfold INT_MAX, progressbar_bar_width, MINIMUM_BAR_WIDTH, ETA_FORMAT_LENGTH,
    WHITESPACE_LENGTH.
  intros HW HL. rewrite progressbar_max_spec. int_exact. reflexivity.
Qed.

(** C5.  The bar width is at least 10 for every pair of [int]
    arguments, and it is [max(10, W - labelLen - 13 - 2)] for every
    screen width and label length whose difference the type [int] can
    hold (a screen width from 0 to [INT_MAX], a label of at most
    [INT_MAX - 15] characters). *)
Theorem bar_width_is_max (W L : Z) :
  10 <= progressbar_bar_width W L /\
  (0 <= W <= INT_MAX -> 0 <= L <= INT_MAX - 15 ->
   progressbar_bar_width W L = Z.max 10 (W - L - 13 - 2)).
Proof.
  split.
  - apply bar_width_at_least_minimum.
  - apply bar_width_exact.
Qed.

Lemma bar_width_is_max_witness :
  10 <= progressbar_bar_width 20 17 /\
  progressbar_bar_width 80 7 = Z.max 10 (80 - 7 - 13 - 2).
Proof.
  split.
  - apply (proj1 (bar_width_is_max 20 17)).
  - apply (proj2 (bar_width_is_max 80 7)); unfold INT_MAX; lia.
Defined.

(** C4.  From a screen of 25 columns on, the label, the bar, the ETA
    field and the two separating blanks fit the screen. *)
Theorem layout_fits_screen (W L : Z) :
  25 <= W <= INT_MAX -> 0 <= L <= INT_MAX - 25 ->
  let barWidth := progressbar_bar_width W L in
  let labelWidth := progressbar_label_width W L barWidth in
  labelWidth + 1 + barWidth + 1 + 13 <= W.
Proof.
  intros HW HL barWidth labelWidth. subst labelWidth barWidth.
  rewrite bar_width_exact by (unfold INT_MAX in *; lia).
  unfold progressbar_label_width, ETA_FORMAT_LENGTH, WHITESPACE_LENGTH.
  unfold INT_MAX in *. rewrite !progressbar_max_spec.
  destruct (Z.max_spec 10 (W - L - 13 - 2)) as [[Hc ->] | [Hc ->]].
  - int_exact. destruct (Z.gtb_spec (L + 1 + (W - L - 13 - 2) + 1 + 13) W); lia.
  - int_exact. destruct (Z.gtb_spec (L + 1 + 10 + 1 + 13) W); lia.
Qed.

Lemma layout_fits_screen_witness :
  progressbar_label_width 30 17 (progressbar_bar_width 30 17) + 1
    + progressbar_bar_width 30 17 + 1 + 13 <= 30.
Proof.
  apply (layout_fits_screen 30 17); unfold INT_MAX; lia.
Defined.

(** ** Time components *)

(** C7.  The components of a number of seconds add up to it, minutes
    and seconds are below 60, and the hours are the whole quotient by
    3600, however large. *)
Theorem time_components_decompose (S : Z) :
  0 <= S <= INT_MAX ->
  let c := progressbar_calc_time_components S in
  hours c * 3600 + minutes c * 60 + seconds c = S /\
  0 <= minutes c < 60 /\
  0 <= seconds c < 60 /\
  hours c = S / 3600.
Proof.
  intros HS c. subst c. unfold INT_MAX in HS.
  unfold progressbar_calc_time_components. cbn [hours minutes seconds].
  assert (Hq : Z.quot S 3600 = S / 3600) by (apply Z.quot_div_nonneg; lia).
  pose proof (Z.div_mod S 3600 ltac:(lia)) as Hdm.
  pose proof (Z.mod_pos_bound S 3600 ltac:(lia)) as Hb.
  assert (Hh : 0 <= S / 3600 <= S)
    by (split; [apply Z.div_pos; lia | apply Z.div_le_upper_bound; lia]).
  rewrite (int_div_exact S 3600) by (apply is_int_bounds; lia).
  rewrite Hq. int_exact. fold (int_div (S - S / 3600 * 3600) 60).
  set (r := S - S / 3600 * 3600).
  assert (Hr : 0 <= r < 3600) by (unfold r; lia).
  assert (Hq' : Z.quot r 60 = r / 60) by (apply Z.quot_div_nonneg; lia).
  pose proof (Z.div_mod r 60 ltac:(lia)) as Hdm'.
  pose proof (Z.mod_pos_bound r 60 ltac:(lia)) as Hb'.
  assert (Hm : 0 <= r / 60 < 60)
    by (split; [apply Z.div_pos; lia | apply Z.div_lt_upper_bound; lia]).
  rewrite (int_div_exact r 60) by (apply is_int_bounds; lia).
  rewrite Hq'. int_exact. unfold r in *. lia.
Qed.

Lemma time_components_decompose_witness :
  let c := progressbar_calc_time_components 360061 in
  hours c * 3600 + minutes c * 60 + seconds c = 360061 /\
  0 <= minutes c < 60 /\
  0 <= seconds c < 60 /\
  hours c = 360061 / 3600.
Proof.
  apply (time_components_decompose 360061). unfold INT_MAX. lia.
Defined.

(** ** Binary64 rounding

    [shr] and [binary_round_aux] of [SpecFloat] in closed form, then
    conversion, division and multiplication on normal numbers. *)

Lemma digits2_pos_bounds (p : positive) :
  2 ^ (Zpos (digits2_pos p) - 1) <= Zpos p < 2 ^ Zpos (digits2_pos p).
Proof.
  induction p as [p IH | p IH | ]; cbn [digits2_pos].
  - rewrite Pos2Z.inj_succ, (Pos2Z.inj_xI p).
    replace (Z.succ (Zpos (digits2_pos p)) - 1) with (Z.succ (Zpos (digits2_pos p) - 1)) by lia.
    rewrite !Z.pow_succ_r by lia.
    set (a := 2 ^ (Zpos (digits2_pos p) - 1)) in *.
    set (b := 2 ^ Zpos (digits2_pos p)) in *. lia.
  - rewrite Pos2Z.inj_succ, (Pos2Z.inj_xO p).
    replace (Z.succ (Zpos (digits2_pos p)) - 1) with (Z.succ (Zpos (digits2_pos p) - 1)) by lia.
    rewrite !Z.pow_succ_r by lia.
    set (a := 2 ^ (Zpos (digits2_pos p) - 1)) in *.
    set (b := 2 ^ Zpos (digits2_pos p)) in *. lia.
  - cbn. lia.
Qed.

Lemma Zdigits2_unique (m d : Z) :
  2 ^ (d - 1) <= m < 2 ^ d -> 0 < m -> Zdigits2 m = d.
Proof.
  intros Hb Hm. destruct m as [ | p | p ]; try lia.
  cbn [Zdigits2]. pose proof (digits2_pos_bounds p) as Hp.
  set (d' := Zpos (digits2_pos p)) in *.
  assert (0 < d') by (unfold d'; lia).
  destruct (Z.lt_trichotomy d' d) as [Hlt | [Heq | Hgt]]; [ | assumption | ].
  - assert (2 ^ d' <= 2 ^ (d - 1)) by (apply Z.pow_le_mono_r; lia). lia.
  - destruct (Z.le_gt_cases d 0) as [Hd | Hd].
    + assert (2 ^ d <= 2 ^ 0) by (apply Z.pow_le_mono_r_iff; lia).
      change (2 ^ 0) with 1 in *. lia.
    + assert (2 ^ d <= 2 ^ (d' - 1)) by (apply Z.pow_le_mono_r; lia). lia.
Qed.

Lemma iter_pos_nat {A : Type} (f : A -> A) (p : positive) (x : A) :
  iter_pos f p x = Nat.iter (Pos.to_nat p) f x.
Proof.
  revert x. induction p as [p IH | p IH | ]; intros x; cbn [iter_pos].
  - rewrite !IH, Pos2Nat.inj_xI.
    replace (S (2 * Pos.to_nat p)) with (Pos.to_nat p + (Pos.to_nat p + 1))%nat by lia.
    rewrite !Nat.iter_add. reflexivity.
  - rewrite !IH, Pos2Nat.inj_xO.
    replace (2 * Pos.to_nat p)%nat with (Pos.to_nat p + Pos.to_nat p)%nat by lia.
    rewrite Nat.iter_add. reflexivity.
  - reflexivity.
Qed.

Lemma shr_1_nonneg (m : Z) (r s : bool) :
  0 <= m ->
  shr_1 (Build_shr_record m r s) = Build_shr_record (m / 2) (Z.odd m) (r || s).
Proof.
  intros Hm. rewrite <- Z.div2_div.
  destruct m as [ | [p | p | ] | p ]; try lia; reflexivity.
Qed.

Lemma mod_pow2_succ (m j : Z) :
  0 <= j ->
  m mod 2 ^ (j + 1) = m mod 2 ^ j + 2 ^ j * Z.b2z (Z.testbit m j).
Proof.
  intros Hj. rewrite Z.pow_add_r by lia. change (2 ^ 1) with 2.
  rewrite Z.rem_mul_r by lia.
  rewrite Z.testbit_odd, Z.shiftr_div_pow2 by lia.
  rewrite Zmod_odd. destruct (Z.odd (m / 2 ^ j)); reflexivity.
Qed.

Lemma sticky_succ (m j : Z) :
  0 <= j ->
  negb (m mod 2 ^ (j + 1) =? 0) = Z.testbit m j || negb (m mod 2 ^ j =? 0).
Proof.
  intros Hj. rewrite mod_pow2_succ by lia.
  pose proof (Z.mod_pos_bound m (2 ^ j) ltac:(lia)) as Hb.
  destruct (Z.testbit m j); cbn [Z.b2z orb].
  - destruct (Z.eqb_spec (m mod 2 ^ j + 2 ^ j * 1) 0); [lia | reflexivity].
  - rewrite Z.mul_0_r, Z.add_0_r. reflexivity.
Qed.

Lemma shr_1_iter (j : nat) (m : Z) (r0 s0 : bool) :
  0 <= m ->
  Nat.iter (S j) shr_1 (Build_shr_record m r0 s0) =
  Build_shr_record (m / 2 ^ (Z.of_nat j + 1)) (Z.testbit m (Z.of_nat j))
    (negb (m mod 2 ^ Z.of_nat j =? 0) || r0 || s0).
Proof.
  intros Hm. induction j as [ | j IH ].
  - cbn [Nat.iter]. rewrite shr_1_nonneg by lia.
    cbn [Z.of_nat Z.add]. rewrite Z.bit0_odd. change (2 ^ 0) with 1. change (2 ^ 1) with 2.
    rewrite Z.mod_1_r. reflexivity.
  - rewrite Nat.iter_succ, IH.
    rewrite shr_1_nonneg by (apply Z.div_pos; lia).
    rewrite Nat2Z.inj_succ. unfold Z.succ. f_equal.
    + rewrite Z.div_div by lia. rewrite <- (Z.pow_add_r 2 _ 1) by lia. reflexivity.
    + rewrite (Z.testbit_odd m (Z.of_nat j + 1)), Z.shiftr_div_pow2 by lia. reflexivity.
    + rewrite (sticky_succ m (Z.of_nat j)) by lia.
      destruct (Z.testbit m (Z.of_nat j)), (negb (m mod 2 ^ Z.of_nat j =? 0)), r0, s0; reflexivity.
Qed.

Lemma shr_spec (m : Z) (r0 s0 : bool) (e k : Z) :
  0 <= m ->
  shr (Build_shr_record m r0 s0) e k =
  (shr_result m r0 s0 k, if 0 <? k then e + k else e).
Proof.
  intros Hm. unfold shr, shr_result. destruct k as [ | p | p ]; try reflexivity.
  change (0 <? Zpos p) with true. cbv iota.
  rewrite iter_pos_nat.
  destruct (Pos2Nat.is_succ p) as [j Hj]. rewrite Hj.
  rewrite shr_1_iter by lia.
  assert (Hp : Zpos p = Z.of_nat j + 1) by lia.
  rewrite Hp. replace (Z.of_nat j + 1 - 1) with (Z.of_nat j) by lia. reflexivity.
Qed.

Lemma round_nearest_even_up (mrs : shr_record) :
  round_nearest_even (shr_m mrs) (loc_of_shr_record mrs) =
  shr_m mrs + Z.b2z (rne_up mrs).
Proof.
  destruct mrs as [m [ | ] [ | ]]; unfold rne_up; cbn.
  - lia.
  - rewrite <- Z.negb_odd. destruct (Z.odd m); cbn; lia.
  - lia.
  - lia.
Qed.

Lemma shr_record_of_loc_eq (m : Z) (l : location) :
  shr_record_of_loc m l = Build_shr_record m (loc_r l) (loc_s l).
Proof. destruct l as [ | [ | | ]]; reflexivity. Qed.

Lemma fexp_normal (z : Z) : -1021 <= z -> fexp 53 1024 z = z - 53.
Proof. intros H. unfold fexp, emin. lia. Qed.

Lemma shr_result_m (m : Z) (r0 s0 : bool) (k : Z) :
  0 <= k -> shr_m (shr_result m r0 s0 k) = m / 2 ^ k.
Proof.
  intros Hk. unfold shr_result. destruct (Z.ltb_spec 0 k); cbn [shr_m].
  - reflexivity.
  - replace k with 0 by lia. rewrite Z.pow_0_r, Z.div_1_r. reflexivity.
Qed.

Lemma round_mantissa_bounds (mx : Z) (lx : location) (k : Z) :
  0 <= k -> 2 ^ (52 + k) <= mx < 2 ^ (53 + k) ->
  mx / 2 ^ k <= round_mantissa mx lx k <= mx / 2 ^ k + 1 /\
  2 ^ 52 <= mx / 2 ^ k < 2 ^ 53.
Proof.
  intros Hk Hm. unfold round_mantissa. cbv zeta. rewrite shr_result_m by lia.
  split.
  - destruct (rne_up _); cbn [Z.b2z]; lia.
  - rewrite !Z.pow_add_r in Hm by lia.
    split.
    + apply Z.div_le_lower_bound; lia.
    + apply Z.div_lt_upper_bound; lia.
Qed.

Lemma binary_round_aux_normal (sx : bool) (mx ex : Z) (lx : location) (k : Z) :
  0 <= k -> 2 ^ (52 + k) <= mx < 2 ^ (53 + k) -> -1074 <= ex + k <= 970 ->
  binary_round_aux 53 1024 sx mx ex lx = renorm sx (round_mantissa mx lx k) (ex + k).
Proof.
  intros Hk Hm He.
  assert (Hpos : 0 < mx).
  { assert (0 < 2 ^ (52 + k)) by (apply Z.pow_pos_nonneg; lia). lia. }
  pose proof (round_mantissa_bounds mx lx k Hk Hm) as [Hr Hq].
  unfold binary_round_aux, shr_fexp.
  rewrite (Zdigits2_unique mx (53 + k))
    by (try assumption; replace (53 + k - 1) with (52 + k) by lia; assumption).
  rewrite fexp_normal by lia.
  replace (53 + k + ex - 53 - ex) with k by lia.
  rewrite shr_record_of_loc_eq, shr_spec by lia.
  rewrite round_nearest_even_up.
  fold (round_mantissa mx lx k).
  set (m2 := round_mantissa mx lx k) in *.
  replace (if 0 <? k then ex + k else ex) with (ex + k)
    by (destruct (Z.ltb_spec 0 k); lia).
  unfold renorm. destruct (Z.eqb_spec m2 (2 ^ 53)) as [Heq | Hne].
  - rewrite Heq.
    rewrite (Zdigits2_unique (2 ^ 53) 54) by (cbn; lia).
    rewrite fexp_normal by lia.
    replace (54 + (ex + k) - 53 - (ex + k)) with 1 by lia.
    cbn [shr_record_of_loc]. rewrite shr_spec by (cbn; lia).
    change (0 <? 1) with true. cbv iota.
    change (shr_m (shr_result (2 ^ 53) false false 1)) with (Zpos (Z.to_pos (2 ^ 52))).
    cbv iota.
    replace (ex + k + 1 <=? 1024 - 53) with true by (symmetry; apply Z.leb_le; lia).
    reflexivity.
  - rewrite (Zdigits2_unique m2 53) by (change (53 - 1) with 52; lia).
    rewrite fexp_normal by lia.
    replace (53 + (ex + k) - 53 - (ex + k)) with 0 by lia.
    cbn [shr_record_of_loc shr fst snd shr_m].
    destruct m2 as [ | p | p ] eqn:Em2; try lia.
    replace (ex + k <=? 1024 - 53) with true by (symmetry; apply Z.leb_le; lia).
    reflexivity.
Qed.

Lemma renorm_finite_of (sx : bool) (m e : Z) :
  renorm sx m e = finite_of sx (renorm_pair m e).
Proof. unfold renorm, renorm_pair, finite_of. destruct (m =? 2 ^ 53); reflexivity. Qed.

Lemma renorm_pair_normal (m e : Z) :
  2 ^ 52 <= m <= 2 ^ 53 -> normal_pair (renorm_pair m e).
Proof.
  unfold normal_pair, renorm_pair. intros H.
  destruct (Z.eqb_spec m (2 ^ 53)); cbn [fst]; lia.
Qed.

Lemma pos_iter_xO (p n : positive) : Zpos (Pos.iter xO p n) = Zpos p * 2 ^ Zpos n.
Proof.
  apply (Pos.iter_ind _ xO p (fun n a => Zpos a = Zpos p * 2 ^ Zpos n)).
  - rewrite Pos2Z.inj_xO. change (2 ^ 1) with 2. lia.
  - intros q a IH. rewrite Pos2Z.inj_xO, IH, Pos2Z.inj_succ, Z.pow_succ_r by lia. lia.
Qed.

Lemma Zdigits2_bounds (n : Z) :
  0 < n -> 0 < Zdigits2 n /\ 2 ^ (Zdigits2 n - 1) <= n < 2 ^ Zdigits2 n.
Proof.
  intros Hn. destruct n as [ | p | p ]; try lia. cbn [Zdigits2].
  split; [lia | apply digits2_pos_bounds].
Qed.

Lemma Zdigits2_le (n b : Z) : 0 < n < 2 ^ b -> Zdigits2 n <= b.
Proof.
  intros Hn. destruct (Zdigits2_bounds n) as [Hd Hb]; [lia | ].
  destruct (Z.le_gt_cases (Zdigits2 n) b) as [ | Hgt]; [assumption | ].
  assert (2 ^ b <= 2 ^ (Zdigits2 n - 1)) by (apply Z.pow_le_mono_r; lia). lia.
Qed.

Lemma binary_round_closed (sx : bool) (p : positive) :
  Zpos p < 2 ^ 1000 ->
  binary_round 53 1024 sx p 0 = finite_of sx (conv_pair (Zpos p)).
Proof.
  intros Hp. unfold binary_round, conv_pair.
  destruct (Zdigits2_bounds (Zpos p) ltac:(lia)) as [Hd Hb].
  pose proof (Zdigits2_le (Zpos p) 1000 ltac:(lia)) as Hle.
  cbn [Zdigits2] in *. set (d := Zpos (digits2_pos p)) in *.
  rewrite fexp_normal by lia.
  unfold shl_align. replace (d + 0 - 53) with (d - 53) by lia.
  rewrite Z.sub_0_r.
  destruct (Z.ltb_spec (d - 53) 0) as [Hlt | Hge].
  - destruct (d - 53) as [ | q | q ] eqn:Ek; try lia.
    change (- Zneg q) with (Zpos q).
    rewrite (binary_round_aux_normal sx _ _ _ 0); rewrite ?pos_iter_xO.
    + rewrite renorm_finite_of. unfold round_mantissa, shr_result, rne_up.
      cbn [Z.ltb Z.compare loc_r loc_s shr_record_of_loc shr_r shr_s shr_m andb Z.b2z].
      rewrite Z.add_0_r, Z.add_0_r. unfold renorm_pair.
      assert (Hm : Zpos p * 2 ^ Zpos q < 2 ^ 53).
      { replace 53 with (d + Zpos q) by lia. rewrite Z.pow_add_r by lia.
        apply Z.mul_lt_mono_pos_r; [apply Z.pow_pos_nonneg; lia | lia]. }
      destruct (Z.eqb_spec (Zpos p * 2 ^ Zpos q) (2 ^ 53)); [lia | ].
      unfold finite_of. cbn [fst snd]. rewrite <- pos_iter_xO. reflexivity.
    + lia.
    + rewrite !Z.add_0_r. split.
      * replace 52 with (d - 1 + Zpos q) by lia. rewrite Z.pow_add_r by lia.
        apply Z.mul_le_mono_nonneg_r; [apply Z.pow_nonneg; lia | lia].
      * replace 53 with (d + Zpos q) by lia. rewrite Z.pow_add_r by lia.
        apply Z.mul_lt_mono_pos_r; [apply Z.pow_pos_nonneg; lia | lia].
    + lia.
  - assert (Hal : match d - 53 with Zneg d0 => (Pos.iter xO p d0, d - 53) | _ => (p, 0) end = (p, 0)).
    { destruct (d - 53); try reflexivity; lia. }
    rewrite Hal.
    rewrite (binary_round_aux_normal sx _ _ _ (d - 53)).
    + rewrite renorm_finite_of. rewrite Z.add_0_l. reflexivity.
    + lia.
    + replace (52 + (d - 53)) with (d - 1) by lia.
      replace (53 + (d - 53)) with d by lia. assumption.
    + lia.
Qed.

Lemma round_mantissa_exact (mx k : Z) :
  0 <= k ->
  round_mantissa mx loc_Exact k = mx / 2 ^ k + Z.b2z (exact_up mx k).
Proof.
  intros Hk. unfold round_mantissa, exact_up. cbv zeta.
  rewrite shr_result_m by lia. f_equal. f_equal.
  unfold shr_result, rne_up. destruct (Z.ltb_spec 0 k); cbn [shr_r shr_s shr_m loc_r loc_s shr_record_of_loc andb].
  - rewrite !orb_false_r. reflexivity.
  - reflexivity.
Qed.

Lemma testbit_mod_pow2 (m k : Z) :
  0 < k ->
  m mod 2 ^ k = m mod 2 ^ (k - 1) + 2 ^ (k - 1) * Z.b2z (Z.testbit m (k - 1)).
Proof.
  intros Hk. replace k with (k - 1 + 1) at 1 by lia. apply mod_pow2_succ. lia.
Qed.

Lemma round_mantissa_exact_mono (k a b : Z) :
  0 <= k -> 0 <= a <= b ->
  round_mantissa a loc_Exact k <= round_mantissa b loc_Exact k.
Proof.
  intros Hk Hab. rewrite !round_mantissa_exact by lia.
  assert (Hp : 0 < 2 ^ k) by (apply Z.pow_pos_nonneg; lia).
  assert (Hq : a / 2 ^ k <= b / 2 ^ k) by (apply Z.div_le_mono; lia).
  assert (Hua : 0 <= Z.b2z (exact_up a k) <= 1) by (destruct (exact_up a k); cbn; lia).
  assert (Hub : 0 <= Z.b2z (exact_up b k) <= 1) by (destruct (exact_up b k); cbn; lia).
  destruct (Z.eq_dec (a / 2 ^ k) (b / 2 ^ k)) as [Heq | Hne]; [ | lia ].
  rewrite <- Heq.
  destruct (exact_up a k) eqn:Ea; [ | cbn [Z.b2z]; lia ].
  enough (exact_up b k = true) as -> by lia.
  unfold exact_up in *. rewrite <- Heq.
  apply andb_prop in Ea as [Ea Es]. apply andb_prop in Ea as [Ek Ebit].
  rewrite Ek. cbn [andb].
  apply Z.ltb_lt in Ek.
  pose proof (Z.div_mod a (2 ^ k) ltac:(lia)) as Hda.
  pose proof (Z.div_mod b (2 ^ k) ltac:(lia)) as Hdb.
  pose proof (testbit_mod_pow2 a k Ek) as Hma.
  pose proof (testbit_mod_pow2 b k Ek) as Hmb.
  assert (Hh : 0 < 2 ^ (k - 1)) by (apply Z.pow_pos_nonneg; lia).
  pose proof (Z.mod_pos_bound a (2 ^ (k - 1)) Hh) as Hla.
  pose proof (Z.mod_pos_bound b (2 ^ (k - 1)) Hh) as Hlb.
  rewrite Ebit in Hma. cbn [Z.b2z] in Hma.
  rewrite <- Heq in Hdb.
  destruct (Z.testbit b (k - 1)); cbn [Z.b2z] in Hmb; [ | lia ].
  cbn [andb]. apply orb_prop in Es as [Es | Es].
  - apply orb_true_intro. left.
    apply negb_true_iff in Es. apply Z.eqb_neq in Es.
    apply negb_true_iff. apply Z.eqb_neq. lia.
  - rewrite Es. apply orb_true_r.
Qed.

Lemma renorm_pair_mono (m1 m2 e : Z) :
  2 ^ 52 <= m1 -> m1 <= m2 -> m2 <= 2 ^ 53 ->
  lex_le (renorm_pair m1 e) (renorm_pair m2 e).
Proof.
  intros H1 H12 H2. unfold lex_le, renorm_pair.
  destruct (Z.eqb_spec m1 (2 ^ 53)), (Z.eqb_spec m2 (2 ^ 53)); cbn [fst snd]; lia.
Qed.

Lemma pow2_split (a b c : Z) : 0 <= b -> 0 <= c -> a = b + c -> 2 ^ a = 2 ^ b * 2 ^ c.
Proof. intros Hb Hc ->. apply Z.pow_add_r; assumption. Qed.

Lemma conv_pair_cases (n : Z) :
  0 < n ->
  normal_pair (conv_pair n) /\
  (snd (conv_pair n) = Zdigits2 n - 53 \/
   (snd (conv_pair n) = Zdigits2 n - 52 /\ fst (conv_pair n) = 2 ^ 52)).
Proof.
  intros Hn. destruct (Zdigits2_bounds n Hn) as [Hd Hb].
  unfold conv_pair. cbv zeta. set (d := Zdigits2 n) in *.
  destruct (Z.ltb_spec (d - 53) 0) as [Hlt | Hge].
  - split; [ | left; reflexivity ].
    unfold normal_pair. cbn [fst]. split.
    + rewrite (pow2_split 52 (d - 1) (- (d - 53))) by lia.
      apply Z.mul_le_mono_nonneg_r; [apply Z.pow_nonneg; lia | lia].
    + rewrite (pow2_split 53 d (- (d - 53))) by lia.
      apply Z.mul_lt_mono_pos_r; [apply Z.pow_pos_nonneg; lia | lia].
  - destruct (round_mantissa_bounds n loc_Exact (d - 53)) as [Hr Hq]; [lia | | ].
    { replace (52 + (d - 53)) with (d - 1) by lia.
      replace (53 + (d - 53)) with d by lia. assumption. }
    split.
    + apply renorm_pair_normal. lia.
    + unfold renorm_pair.
      destruct (Z.eqb_spec (round_mantissa n loc_Exact (d - 53)) (2 ^ 53)); cbn [fst snd].
      * right. split; [lia | reflexivity].
      * left. reflexivity.
Qed.

Lemma Zdigits2_mono (a b : Z) : 0 < a <= b -> Zdigits2 a <= Zdigits2 b.
Proof.
  intros Hab. destruct (Zdigits2_bounds b) as [Hd Hb]; [lia | ].
  apply Zdigits2_le. lia.
Qed.

Lemma conv_pair_mono (a b : Z) :
  0 < a <= b -> lex_le (conv_pair a) (conv_pair b).
Proof.
  intros Hab.
  pose proof (Zdigits2_mono a b Hab) as Hd.
  destruct (Z.eq_dec (Zdigits2 a) (Zdigits2 b)) as [Heq | Hne].
  - unfold conv_pair. cbv zeta. rewrite <- Heq.
    destruct (Zdigits2_bounds a) as [Hda Hba]; [lia | ].
    destruct (Zdigits2_bounds b) as [Hdb Hbb]; [lia | ].
    rewrite <- Heq in Hbb.
    set (d := Zdigits2 a) in *.
    destruct (Z.ltb_spec (d - 53) 0) as [Hlt | Hge].
    + right. cbn [fst snd]. split; [reflexivity | ].
      apply Z.mul_le_mono_nonneg_r; [apply Z.pow_nonneg; lia | lia].
    + assert (Hrange : forall n, 2 ^ (d - 1) <= n < 2 ^ d ->
                       2 ^ (52 + (d - 53)) <= n < 2 ^ (53 + (d - 53))).
      { intros n Hn. replace (52 + (d - 53)) with (d - 1) by lia.
        replace (53 + (d - 53)) with d by lia. assumption. }
      destruct (round_mantissa_bounds a loc_Exact (d - 53)) as [Hra Hqa]; [lia | auto | ].
      destruct (round_mantissa_bounds b loc_Exact (d - 53)) as [Hrb Hqb]; [lia | auto | ].
      apply renorm_pair_mono; [lia | | lia].
      apply round_mantissa_exact_mono; lia.
  - destruct (conv_pair_cases a) as [Hna [Ha | [Ha Ha']]]; [lia | | ];
    destruct (conv_pair_cases b) as [Hnb [Hb | [Hb Hb']]]; try lia;
    unfold lex_le, normal_pair in *; lia.
Qed.

Lemma conv_pair_small (n : Z) :
  0 < n < 2 ^ 53 ->
  conv_pair n = (n * 2 ^ (53 - Zdigits2 n), Zdigits2 n - 53).
Proof.
  intros Hn. pose proof (Zdigits2_le n 53 Hn) as Hle.
  unfold conv_pair. cbv zeta.
  destruct (Z.ltb_spec (Zdigits2 n - 53) 0) as [Hlt | Hge].
  - f_equal. f_equal. f_equal. lia.
  - replace (Zdigits2 n) with 53 by lia. change (53 - 53) with 0.
    rewrite round_mantissa_exact by lia. unfold exact_up. cbn [Z.ltb Z.compare andb Z.b2z].
    rewrite Z.pow_0_r, Z.div_1_r, Z.add_0_r, Z.mul_1_r. unfold renorm_pair.
    destruct (Z.eqb_spec n (2 ^ 53)); [lia | reflexivity].
Qed.

Lemma Zdigits2_normal (x : Z * Z) :
  normal_pair x -> Zdigits2 (Zpos (Z.to_pos (fst x))) = 53 /\ Zpos (Z.to_pos (fst x)) = fst x.
Proof.
  unfold normal_pair. intros Hx.
  assert (Hid : Zpos (Z.to_pos (fst x)) = fst x) by (apply Z2Pos.id; lia).
  split; [ | assumption ]. rewrite Hid.
  apply Zdigits2_unique; [change (53 - 1) with 52; assumption | lia].
Qed.

Lemma div_quotient_bounds (mx my : Z) :
  2 ^ 52 <= mx < 2 ^ 53 -> 2 ^ 52 <= my < 2 ^ 53 ->
  2 ^ 52 <= mx * 2 ^ 53 / my < 2 ^ 54.
Proof.
  intros Hx Hy. split.
  - apply Z.div_le_lower_bound; nia.
  - apply Z.div_lt_upper_bound; nia.
Qed.

Lemma SFdiv_normal (sx sy : bool) (x y : Z * Z) :
  normal_pair x -> normal_pair y -> -1000 <= snd x - snd y <= 1000 ->
  SFdiv 53 1024 (finite_of sx x) (finite_of sy y) = finite_of (xorb sx sy) (div_pair x y).
Proof.
  intros Hx Hy He.
  destruct (Zdigits2_normal x Hx) as [Hdx Hix].
  destruct (Zdigits2_normal y Hy) as [Hdy Hiy].
  unfold normal_pair in Hx, Hy.
  unfold finite_of at 1 2. unfold SFdiv, SFdiv_core_binary.
  rewrite Hdx, Hdy, Hix, Hiy.
  rewrite fexp_normal by lia.
  rewrite Z.min_l by lia.
  replace (snd x - snd y - (53 + snd x - (53 + snd y) - 53)) with 53 by lia.
  cbv iota. rewrite Z.shiftl_mul_pow2 by lia.
  assert (Hde : Z.div_eucl (fst x * 2 ^ 53) (fst y)
                = (fst x * 2 ^ 53 / fst y, (fst x * 2 ^ 53) mod fst y)).
  { unfold Z.div, Z.modulo. destruct (Z.div_eucl (fst x * 2 ^ 53) (fst y)). reflexivity. }
  rewrite Hde.
  pose proof (div_quotient_bounds (fst x) (fst y) Hx Hy) as Hq.
  unfold div_pair. cbv zeta.
  set (q := fst x * 2 ^ 53 / fst y) in *.
  destruct (Z.ltb_spec q (2 ^ 53)) as [Hlt | Hge].
  - rewrite (binary_round_aux_normal _ _ _ _ 0) by (rewrite ?Z.add_0_r; lia).
    rewrite renorm_finite_of. do 2 f_equal. lia.
  - rewrite (binary_round_aux_normal _ _ _ _ 1)
      by (try change (52 + 1) with 53; try change (53 + 1) with 54; lia).
    rewrite renorm_finite_of. do 2 f_equal. lia.
Qed.

Lemma div_pair_normal (x y : Z * Z) :
  normal_pair x -> normal_pair y ->
  normal_pair (div_pair x y) /\
  snd x - snd y - 53 <= snd (div_pair x y) <= snd x - snd y - 51.
Proof.
  intros Hx Hy. unfold normal_pair in Hx, Hy.
  pose proof (div_quotient_bounds (fst x) (fst y) Hx Hy) as Hq.
  unfold div_pair. cbv zeta.
  set (q := fst x * 2 ^ 53 / fst y) in *.
  set (l := new_location _ _).
  assert (Hk : let k := if q <? 2 ^ 53 then 0 else 1 in
               0 <= k <= 1 /\ 2 ^ (52 + k) <= q < 2 ^ (53 + k)).
  { destruct (Z.ltb_spec q (2 ^ 53)); cbv zeta;
    [ rewrite !Z.add_0_r | change (52 + 1) with 53; change (53 + 1) with 54 ]; lia. }
  cbv zeta in Hk. destruct Hk as [Hk Hqk].
  set (k := if q <? 2 ^ 53 then 0 else 1) in *.
  destruct (round_mantissa_bounds q l k) as [Hr Hb]; [lia | assumption | ].
  split.
  - apply renorm_pair_normal. lia.
  - unfold renorm_pair. destruct (_ =? _); cbn [snd]; lia.
Qed.

Lemma new_location_zero (n : Z) : new_location n 0 = loc_Exact.
Proof.
  unfold new_location, new_location_even, new_location_odd.
  destruct (Z.even n); reflexivity.
Qed.

Lemma div_pair_le_one (x y : Z * Z) :
  normal_pair x -> normal_pair y -> lex_le x y ->
  lex_le (div_pair x y) one_pair.
Proof.
  intros Hx Hy Hle. unfold normal_pair in Hx, Hy.
  pose proof (div_quotient_bounds (fst x) (fst y) Hx Hy) as Hq.
  unfold div_pair. cbv zeta.
  set (q := fst x * 2 ^ 53 / fst y) in *.
  set (l := new_location _ _).
  destruct (Z.ltb_spec q (2 ^ 53)) as [Hlt | Hge].
  - destruct (round_mantissa_bounds q l 0) as [Hr Hb]; [lia | rewrite !Z.add_0_r; lia | ].
    rewrite Z.pow_0_r, Z.div_1_r in Hr.
    unfold lex_le, one_pair, renorm_pair in *.
    destruct (Z.eqb_spec (round_mantissa q l 0) (2 ^ 53)); cbn [fst snd]; lia.
  - destruct Hle as [Hle | [Hes Hms]].
    + destruct (round_mantissa_bounds q l 1) as [Hr Hb];
        [lia | change (52 + 1) with 53; change (53 + 1) with 54; lia | ].
      unfold lex_le, one_pair, renorm_pair in *.
      destruct (Z.eqb_spec (round_mantissa q l 1) (2 ^ 53)); cbn [fst snd]; lia.
    + assert (Hxy : fst x = fst y).
      { assert (2 ^ 53 * fst y <= fst x * 2 ^ 53).
        { pose proof (Z.mul_div_le (fst x * 2 ^ 53) (fst y) ltac:(lia)). unfold q in Hge. nia. }
        lia. }
      assert (Hq53 : q = 2 ^ 53)
        by (unfold q; rewrite Hxy, Z.mul_comm; apply Z.div_mul; lia).
      assert (Hl : l = loc_Exact).
      { unfold l. rewrite Hxy, (Z.mul_comm (fst y)), Z.mod_mul by lia.
        apply new_location_zero. }
      rewrite Hl, Hq53, round_mantissa_exact by lia.
      unfold lex_le, one_pair. right. cbn. split; [lia | reflexivity].
Qed.

Lemma mul_product_bounds (mx my : Z) :
  2 ^ 52 <= mx < 2 ^ 53 -> 2 ^ 52 <= my < 2 ^ 53 ->
  2 ^ 104 <= mx * my < 2 ^ 106.
Proof. intros Hx Hy. nia. Qed.

Lemma SFmul_normal (sx sy : bool) (x y : Z * Z) :
  normal_pair x -> normal_pair y -> -1000 <= snd x + snd y <= 900 ->
  SFmul 53 1024 (finite_of sx x) (finite_of sy y) = finite_of (xorb sx sy) (mul_pair x y).
Proof.
  intros Hx Hy He.
  destruct (Zdigits2_normal x Hx) as [_ Hix].
  destruct (Zdigits2_normal y Hy) as [_ Hiy].
  unfold normal_pair in Hx, Hy.
  pose proof (mul_product_bounds (fst x) (fst y) Hx Hy) as Hp.
  unfold finite_of at 1 2. unfold SFmul.
  rewrite Pos2Z.inj_mul, Hix, Hiy.
  unfold mul_pair. cbv zeta.
  destruct (Z.ltb_spec (fst x * fst y) (2 ^ 105)) as [Hlt | Hge].
  - rewrite (binary_round_aux_normal _ _ _ _ 52)
      by (try change (52 + 52) with 104; try change (53 + 52) with 105; lia).
    apply renorm_finite_of.
  - rewrite (binary_round_aux_normal _ _ _ _ 53)
      by (try change (52 + 53) with 105; try change (53 + 53) with 106; lia).
    apply renorm_finite_of.
Qed.

Lemma mul_pair_normal (x y : Z * Z) :
  normal_pair x -> normal_pair y -> normal_pair (mul_pair x y).
Proof.
  intros Hx Hy. unfold normal_pair in Hx, Hy.
  pose proof (mul_product_bounds (fst x) (fst y) Hx Hy) as Hp.
  unfold mul_pair. cbv zeta.
  destruct (Z.ltb_spec (fst x * fst y) (2 ^ 105)) as [Hlt | Hge].
  - destruct (round_mantissa_bounds (fst x * fst y) loc_Exact 52) as [Hr Hb];
      [lia | change (52 + 52) with 104; change (53 + 52) with 105; lia | ].
    apply renorm_pair_normal. lia.
  - destruct (round_mantissa_bounds (fst x * fst y) loc_Exact 53) as [Hr Hb];
      [lia | change (52 + 53) with 105; change (53 + 53) with 106; lia | ].
    apply renorm_pair_normal. lia.
Qed.

Lemma exact_up_multiple (m k : Z) : 0 < k -> exact_up (m * 2 ^ k) k = false.
Proof.
  intros Hk. unfold exact_up.
  assert (Hh : 0 < 2 ^ (k - 1)) by (apply Z.pow_pos_nonneg; lia).
  pose proof (testbit_mod_pow2 (m * 2 ^ k) k Hk) as Hm.
  rewrite Z.mod_mul in Hm by lia.
  pose proof (Z.mod_pos_bound (m * 2 ^ k) (2 ^ (k - 1)) Hh) as Hb.
  destruct (Z.testbit (m * 2 ^ k) (k - 1)); cbn [Z.b2z] in Hm.
  - lia.
  - rewrite andb_false_r. reflexivity.
Qed.

Lemma mul_pair_le (x q : Z * Z) :
  normal_pair x -> normal_pair q -> lex_le q one_pair ->
  lex_le (mul_pair x q) x.
Proof.
  intros Hx Hq Hle. unfold normal_pair in Hx, Hq.
  pose proof (mul_product_bounds (fst x) (fst q) Hx Hq) as Hp.
  unfold one_pair, lex_le in Hle. cbn [fst snd] in Hle.
  destruct Hle as [Hlt | [He Hm]].
  - unfold mul_pair. cbv zeta.
    destruct (Z.ltb_spec (fst x * fst q) (2 ^ 105)) as [H105 | H105].
    + destruct (round_mantissa_bounds (fst x * fst q) loc_Exact 52) as [Hr Hb];
        [lia | change (52 + 52) with 104; change (53 + 52) with 105; lia | ].
      unfold lex_le, renorm_pair.
      destruct (Z.eqb_spec (round_mantissa (fst x * fst q) loc_Exact 52) (2 ^ 53));
        cbn [fst snd]; lia.
    + destruct (round_mantissa_bounds (fst x * fst q) loc_Exact 53) as [Hr Hb];
        [lia | change (52 + 53) with 105; change (53 + 53) with 106; lia | ].
      assert (Hm1 : fst x * fst q / 2 ^ 53 < fst x)
        by (apply Z.div_lt_upper_bound; nia).
      unfold lex_le, renorm_pair.
      destruct (Z.eqb_spec (round_mantissa (fst x * fst q) loc_Exact 53) (2 ^ 53));
        cbn [fst snd]; lia.
  - assert (Hq52 : fst q = 2 ^ 52) by lia.
    unfold mul_pair. cbv zeta. rewrite Hq52, He.
    destruct (Z.ltb_spec (fst x * 2 ^ 52) (2 ^ 105)) as [H105 | H105]; [ | lia ].
    rewrite round_mantissa_exact, exact_up_multiple, Z.div_mul by lia.
    cbn [Z.b2z]. rewrite Z.add_0_r. unfold renorm_pair, lex_le.
    destruct (Z.eqb_spec (fst x) (2 ^ 53)); cbn [fst snd]; lia.
Qed.

Lemma trunc_le (p : Z * Z) (n : Z) :
  normal_pair p -> 0 < n < 2 ^ 53 -> lex_le p (conv_pair n) ->
  0 <= Z.shiftl (fst p) (snd p) <= n.
Proof.
  intros Hp Hn Hle. unfold normal_pair in Hp.
  rewrite conv_pair_small in Hle by assumption.
  pose proof (Zdigits2_le n 53 Hn) as Hd.
  destruct (Zdigits2_bounds n) as [Hd0 Hb]; [lia | ].
  set (d := Zdigits2 n) in *.
  assert (Hn52 : 2 ^ 52 <= n * 2 ^ (53 - d)).
  { rewrite (pow2_split 52 (d - 1) (53 - d)) by lia.
    apply Z.mul_le_mono_nonneg_r; [apply Z.pow_nonneg; lia | lia]. }
  unfold lex_le in Hle. cbn [fst snd] in Hle.
  assert (Hs : snd p <= 0) by lia.
  rewrite Z.shiftl_div_pow2 by lia.
  assert (Hj : 0 < 2 ^ (- snd p)) by (apply Z.pow_pos_nonneg; lia).
  split; [apply Z.div_pos; lia | ].
  apply Z.div_le_upper_bound; [lia | ].
  destruct Hle as [Hlt | [He Hm]].
  - rewrite (pow2_split (- snd p) (53 - d) (- snd p - (53 - d))) by lia.
    assert (2 <= 2 ^ (- snd p - (53 - d))).
    { change 2 with (2 ^ 1) at 1. apply Z.pow_le_mono_r; lia. }
    assert (0 < 2 ^ (53 - d)) by (apply Z.pow_pos_nonneg; lia).
    nia.
  - replace (- snd p) with (53 - d) by lia. lia.
Qed.

(** ** Doubles of the model *)

Lemma double_of_Z_pos (n : Z) :
  0 < n < 2 ^ 1000 -> double_of_Z n = finite_of false (conv_pair n).
Proof.
  intros Hn. destruct n as [ | p | p ]; try lia.
  unfold double_of_Z, binary_normalize. apply binary_round_closed. lia.
Qed.

Lemma double_of_Z_neg (n : Z) :
  0 < n < 2 ^ 1000 -> double_of_Z (- n) = finite_of true (conv_pair n).
Proof.
  intros Hn. destruct n as [ | p | p ]; try lia.
  unfold double_of_Z, binary_normalize. cbn [Z.opp]. apply binary_round_closed. lia.
Qed.

Lemma double_of_Z_nonzero (n : Z) :
  0 < n < 2 ^ 1000 -> double_is_zero (double_of_Z n) = false.
Proof. intros Hn. rewrite double_of_Z_pos by assumption. reflexivity. Qed.

Lemma conv_pair_exponent (n : Z) :
  0 < n < 2 ^ 64 -> -52 <= snd (conv_pair n) <= 12.
Proof.
  intros Hn. destruct (conv_pair_cases n) as [_ Hc]; [lia | ].
  pose proof (Zdigits2_le n 64 Hn).
  destruct (Zdigits2_bounds n); lia.
Qed.

Lemma double_trunc_finite (s : bool) (p : Z * Z) :
  normal_pair p ->
  double_trunc (finite_of s p) = Some (cond_Zopp s (Z.shiftl (fst p) (snd p))).
Proof.
  intros Hp. unfold normal_pair in Hp. unfold finite_of, double_trunc.
  rewrite Z2Pos.id by lia. reflexivity.
Qed.

Lemma double_to_int_in_range (x : double) (z : Z) :
  double_trunc x = Some z -> is_int z -> double_to_int x = z.
Proof.
  unfold double_to_int, is_int. intros -> Hz.
  destruct (Z.leb_spec INT_MIN z), (Z.leb_spec z INT_MAX); cbn [andb]; lia.
Qed.

Lemma shiftl_conv_pair_small (n : Z) :
  0 < n < 2 ^ 53 -> Z.shiftl (fst (conv_pair n)) (snd (conv_pair n)) = n.
Proof.
  intros Hn. rewrite conv_pair_small by assumption. cbn [fst snd].
  pose proof (Zdigits2_le n 53 Hn).
  rewrite Z.shiftl_div_pow2 by lia.
  replace (- (Zdigits2 n - 53)) with (53 - Zdigits2 n) by lia.
  apply Z.div_mul. apply Z.pow_nonzero; lia.
Qed.

(** Converting an [int] to double and back gives the [int]. *)
Lemma double_to_int_of_Z (z : Z) : is_int z -> double_to_int (double_of_Z z) = z.
Proof.
  intros Hz. pose proof Hz as Hz'. unfold is_int, INT_MIN, INT_MAX in Hz'.
  apply double_to_int_in_range; [ | assumption ].
  destruct (Z.lt_trichotomy z 0) as [Hneg | [-> | Hpos]].
  - replace z with (- - z) by lia.
    rewrite double_of_Z_neg by lia.
    rewrite double_trunc_finite by (apply conv_pair_cases; lia).
    rewrite shiftl_conv_pair_small by lia. reflexivity.
  - reflexivity.
  - rewrite double_of_Z_pos by lia.
    rewrite double_trunc_finite by (apply conv_pair_cases; lia).
    rewrite shiftl_conv_pair_small by lia. reflexivity.
Qed.

(** [offset > 0] in [progressbar_remaining_seconds] is the comparison
    of the two calendar times. *)
Lemma dgt_zero_of_Z (z : Z) :
  - 2 ^ 1000 < z < 2 ^ 1000 -> dgt (double_of_Z z) (double_of_Z 0) = (0 <? z).
Proof.
  intros Hz. destruct (Z.lt_trichotomy z 0) as [Hneg | [-> | Hpos]].
  - replace z with (- - z) at 1 by lia.
    rewrite double_of_Z_neg by lia.
    destruct (Z.ltb_spec 0 z); [lia | reflexivity].
  - reflexivity.
  - rewrite double_of_Z_pos by lia.
    destruct (Z.ltb_spec 0 z); [reflexivity | lia].
Qed.

(** ** The filled part of the bar *)

(** The product [n * (v / m)] in doubles, truncated, is between 0 and
    [n] when [v < m]. *)
Lemma scaled_ratio_bounds (n v m : Z) :
  0 < n <= INT_MAX -> 0 <= v < m -> m < 2 ^ 64 ->
  exists q, ddiv (double_of_Z v) (double_of_Z m) = Done q /\
            0 <= double_to_int (dmul (double_of_Z n) q) <= n.
Proof.
  intros Hn Hv Hm. unfold INT_MAX in Hn. unfold ddiv.
  rewrite double_of_Z_nonzero by lia.
  eexists. split; [reflexivity | ].
  rewrite (double_of_Z_pos m), (double_of_Z_pos n) by lia.
  destruct (conv_pair_cases m) as [Hnm _]; [lia | ].
  destruct (conv_pair_cases n) as [Hnn _]; [lia | ].
  destruct (Z.eq_dec v 0) as [-> | Hv0].
  - cbn. lia.
  - rewrite (double_of_Z_pos v) by lia.
    destruct (conv_pair_cases v) as [Hnv _]; [lia | ].
    pose proof (conv_pair_exponent v ltac:(lia)) as Hev.
    pose proof (conv_pair_exponent m ltac:(lia)) as Hem.
    pose proof (conv_pair_exponent n ltac:(lia)) as Hen.
    rewrite SFdiv_normal by (try assumption; lia).
    destruct (div_pair_normal (conv_pair v) (conv_pair m) Hnv Hnm) as [Hnq Heq].
    pose proof (div_pair_le_one _ _ Hnv Hnm (conv_pair_mono v m ltac:(lia))) as Hq1.
    unfold dmul. rewrite SFmul_normal by (try assumption; lia).
    set (q := div_pair (conv_pair v) (conv_pair m)) in *.
    pose proof (mul_pair_normal _ _ Hnn Hnq) as Hnp.
    pose proof (mul_pair_le _ _ Hnn Hnq Hq1) as Hple.
    pose proof (trunc_le _ n Hnp ltac:(lia) Hple) as Ht.
    rewrite (double_to_int_in_range _ (Z.shiftl (fst (mul_pair (conv_pair n) q))
                                        (snd (mul_pair (conv_pair n) q)))).
    + assumption.
    + rewrite double_trunc_finite by assumption. reflexivity.
    + apply is_int_bounds. lia.
Qed.

(** ** Distance to the exact quotient

    Every rounding of a normal number moves it by at most one part in
    [2^52]; through the two conversions, the division and the
    multiplication, the truncated product stays within one of the
    quotient of the integers. *)

Section RoundingError.
Local Open Scope R_scope.

Lemma bpow_add (a b : Z) : bpow (a + b) = bpow a * bpow b.
Proof. apply powerRZ_add. lra. Qed.

Lemma bpow_pos (e : Z) : 0 < bpow e.
Proof. apply powerRZ_lt. lra. Qed.

Lemma bpow_IZR (k : Z) : (0 <= k)%Z -> bpow k = IZR (2 ^ k).
Proof.
  intros Hk. unfold bpow. rewrite <- (Z2Nat.id k) by lia.
  rewrite <- pow_powerRZ, pow_IZR. reflexivity.
Qed.

Lemma bpow_opp (k : Z) : bpow (- k) * bpow k = 1.
Proof. rewrite <- bpow_add. replace (- k + k)%Z with 0%Z by lia. reflexivity. Qed.

Lemma F2R_renorm (m e : Z) : F2R (renorm_pair m e) = IZR m * bpow e.
Proof.
  unfold F2R, renorm_pair. destruct (Z.eqb_spec m (2 ^ 53)) as [-> | _]; cbn [fst snd].
  - rewrite bpow_add. rewrite (bpow_IZR 1) by lia.
    change (2 ^ 52)%Z with 4503599627370496%Z.
    change (2 ^ 53)%Z with 9007199254740992%Z.
    change (2 ^ 1)%Z with 2%Z. lra.
  - reflexivity.
Qed.

Lemma round_rel_error (mx ex k : Z) (lx : location) (r : R) :
  (0 <= k)%Z -> (2 ^ (52 + k) <= mx < 2 ^ (53 + k))%Z ->
  IZR mx * bpow ex <= r <= IZR (mx + 1) * bpow ex ->
  Rabs (F2R (renorm_pair (round_mantissa mx lx k) (ex + k)) - r) <= r * bpow (-52).
Proof.
  intros Hk Hm Hr. rewrite F2R_renorm.
  destruct (round_mantissa_bounds mx lx k Hk Hm) as [Hb Hq].
  set (m1 := (mx / 2 ^ k)%Z) in *. set (m2 := round_mantissa mx lx k) in *.
  assert (Hp : (0 < 2 ^ k)%Z) by (apply Z.pow_pos_nonneg; lia).
  assert (Hlo : (m1 * 2 ^ k <= mx)%Z).
  { unfold m1. rewrite Z.mul_comm. apply Z.mul_div_le. lia. }
  assert (Hhi : (mx + 1 <= (m1 + 1) * 2 ^ k)%Z).
  { unfold m1. pose proof (Z.mul_succ_div_gt mx (2 ^ k) Hp). lia. }
  apply IZR_le in Hlo, Hhi. rewrite mult_IZR in Hlo, Hhi.
  rewrite !plus_IZR in Hhi. rewrite plus_IZR in Hr.
  destruct Hb as [Hb1 Hb2]. apply IZR_le in Hb1, Hb2. rewrite plus_IZR in Hb2.
  destruct Hq as [Hq1 _]. apply IZR_le in Hq1.
  rewrite bpow_add, (bpow_IZR k) by lia.
  pose proof (bpow_pos ex) as HE.
  pose proof (bpow_opp 52) as Hc. cbn [Z.opp] in Hc.
  rewrite (bpow_IZR 52) in Hc by lia.
  pose proof (bpow_pos (-52)) as Hc0.
  assert (HP : 0 < IZR (2 ^ k)) by (apply IZR_lt; lia).
  set (a := IZR m1) in *. set (b := IZR m2) in *. set (P := IZR (2 ^ k)) in *.
  set (E := bpow ex) in *. set (X := IZR mx) in *. set (c := bpow (-52)) in *.
  set (T := IZR (2 ^ 52)) in *.
  assert (HT : T = 4503599627370496) by reflexivity.
  clearbody a b P E X c T.
  assert (Hu : 0 < E * P) by nra.
  assert (H1 : a * (E * P) <= r).
  { apply Rle_trans with (X * E); [ | lra ].
    replace (a * (E * P)) with (a * P * E) by ring.
    apply Rmult_le_compat_r; lra. }
  assert (H2 : r <= (a + 1) * (E * P)).
  { apply Rle_trans with ((X + 1) * E); [lra | ].
    replace ((a + 1) * (E * P)) with ((a + 1) * P * E) by ring.
    apply Rmult_le_compat_r; lra. }
  assert (H3 : E * P <= r * c).
  { assert (H4 : T * (E * P) <= r).
    { apply Rle_trans with (a * (E * P)); [ | lra ].
      apply Rmult_le_compat_r; lra. }
    replace (E * P) with (c * (T * (E * P))) by (rewrite <- Rmult_assoc, Hc; ring).
    rewrite (Rmult_comm r c). apply Rmult_le_compat_l; lra. }
  assert (H5 : a * (E * P) <= b * (E * P)) by (apply Rmult_le_compat_r; lra).
  assert (H6 : b * (E * P) <= (a + 1) * (E * P)) by (apply Rmult_le_compat_r; lra).
  rewrite <- Rmult_assoc, (Rmult_assoc b).
  apply Rabs_le. split; lra.
Qed.


Lemma F2R_scaled (n j : Z) : (0 <= j)%Z -> F2R ((n * 2 ^ j)%Z, (- j)%Z) = IZR n.
Proof.
  intros Hj. unfold F2R. cbn [fst snd]. rewrite mult_IZR, <- (bpow_IZR j) by lia.
  rewrite Rmult_assoc, (Rmult_comm (bpow j)), bpow_opp. ring.
Qed.

Lemma F2R_conv_small (n : Z) : (0 < n < 2 ^ 53)%Z -> F2R (conv_pair n) = IZR n.
Proof.
  intros Hn. rewrite conv_pair_small by assumption.
  pose proof (Zdigits2_le n 53 Hn).
  replace (Zdigits2 n - 53)%Z with (- (53 - Zdigits2 n))%Z by lia.
  apply F2R_scaled. lia.
Qed.

Lemma conv_rel_error (v : Z) :
  (0 < v)%Z -> Rabs (F2R (conv_pair v) - IZR v) <= IZR v * bpow (-52).
Proof.
  intros Hv. destruct (Zdigits2_bounds v Hv) as [Hd Hb].
  assert (HV : 0 < IZR v) by (apply IZR_lt; lia).
  pose proof (bpow_pos (-52)) as Hc.
  unfold conv_pair. cbv zeta.
  destruct (Z.ltb_spec (Zdigits2 v - 53) 0) as [Hlt | Hge].
  - replace (Zdigits2 v - 53)%Z with (- - (Zdigits2 v - 53))%Z at 2 by lia.
    rewrite F2R_scaled by lia.
    replace (IZR v - IZR v) with 0 by ring. rewrite Rabs_R0. nra.
  - replace (Zdigits2 v - 53)%Z with (0 + (Zdigits2 v - 53))%Z at 2 by lia.
    apply round_rel_error.
    + lia.
    + replace (52 + (Zdigits2 v - 53))%Z with (Zdigits2 v - 1)%Z by lia.
      replace (53 + (Zdigits2 v - 53))%Z with (Zdigits2 v) by lia. assumption.
    + change (bpow 0) with 1. rewrite plus_IZR. lra.
Qed.

Lemma F2R_normal_pos (x : Z * Z) : normal_pair x -> 0 < F2R x.
Proof.
  unfold normal_pair, F2R. intros Hx.
  apply Rmult_lt_0_compat; [apply IZR_lt; lia | apply bpow_pos].
Qed.

Lemma div_rel_error (x y : Z * Z) :
  normal_pair x -> normal_pair y ->
  Rabs (F2R (div_pair x y) - F2R x / F2R y) <= F2R x / F2R y * bpow (-52).
Proof.
  intros Hx Hy.
  pose proof (div_quotient_bounds (fst x) (fst y) Hx Hy) as Hq.
  unfold normal_pair in Hx, Hy.
  unfold div_pair. cbv zeta.
  set (q := (fst x * 2 ^ 53 / fst y)%Z) in *.
  set (l := new_location _ _).
  assert (Hr : IZR q * bpow (snd x - snd y - 53) <= F2R x / F2R y
               <= IZR (q + 1) * bpow (snd x - snd y - 53)).
  { assert (Hlo : (q * fst y <= fst x * 2 ^ 53)%Z).
    { unfold q. rewrite Z.mul_comm. apply Z.mul_div_le. lia. }
    assert (Hhi : (fst x * 2 ^ 53 + 1 <= (q + 1) * fst y)%Z).
    { unfold q. pose proof (Z.mul_succ_div_gt (fst x * 2 ^ 53) (fst y) ltac:(lia)). lia. }
    apply IZR_le in Hlo, Hhi. rewrite !mult_IZR in Hlo. rewrite plus_IZR, !mult_IZR in Hhi.
    rewrite !plus_IZR in *.
    unfold F2R.
    assert (Hex : bpow (snd x) = bpow (snd x - snd y - 53) * IZR (2 ^ 53) * bpow (snd y)).
    { rewrite <- (bpow_IZR 53), <- !bpow_add by lia. f_equal. lia. }
    rewrite Hex.
    pose proof (bpow_pos (snd x - snd y - 53)) as HB.
    pose proof (bpow_pos (snd y)) as HY.
    assert (Hmy : 0 < IZR (fst y)) by (apply IZR_lt; lia).
    set (B := bpow (snd x - snd y - 53)) in *. set (Ey := bpow (snd y)) in *.
    set (T := IZR (2 ^ 53)) in *. set (a := IZR (fst x)) in *. set (b := IZR (fst y)) in *.
    replace (a * (B * T * Ey) / (b * Ey)) with (a * T / b * B) by (field; lra).
    clearbody B Ey T a b.
    split; apply Rmult_le_compat_r; try lra.
    - apply Rmult_le_reg_r with b; [lra | ].
      replace (a * T / b * b) with (a * T) by (field; lra). lra.
    - apply Rmult_le_reg_r with b; [lra | ].
      replace (a * T / b * b) with (a * T) by (field; lra). lra. }
  destruct (Z.ltb_spec q (2 ^ 53)) as [Hlt | Hge].
  - apply round_rel_error; [lia | rewrite !Z.add_0_r; lia | assumption].
  - apply round_rel_error;
      [lia | change (52 + 1)%Z with 53%Z; change (53 + 1)%Z with 54%Z; lia | assumption].
Qed.

Lemma mul_rel_error (x y : Z * Z) :
  normal_pair x -> normal_pair y ->
  Rabs (F2R (mul_pair x y) - F2R x * F2R y) <= F2R x * F2R y * bpow (-52).
Proof.
  intros Hx Hy.
  pose proof (mul_product_bounds (fst x) (fst y) Hx Hy) as Hp.
  assert (Hr : IZR (fst x * fst y) * bpow (snd x + snd y) <= F2R x * F2R y
               <= IZR (fst x * fst y + 1) * bpow (snd x + snd y)).
  { unfold F2R. rewrite plus_IZR, mult_IZR, bpow_add.
    pose proof (bpow_pos (snd x)). pose proof (bpow_pos (snd y)).
    split; [right; ring | ].
    assert (0 < bpow (snd x) * bpow (snd y)) by (apply Rmult_lt_0_compat; assumption).
    nra. }
  unfold mul_pair. cbv zeta.
  destruct (Z.ltb_spec (fst x * fst y) (2 ^ 105)) as [Hlt | Hge].
  - apply round_rel_error;
      [lia | change (52 + 52)%Z with 104%Z; change (53 + 52)%Z with 105%Z; lia | assumption].
  - apply round_rel_error;
      [lia | change (52 + 53)%Z with 105%Z; change (53 + 53)%Z with 106%Z; lia | assumption].
Qed.

Lemma shiftl_floor (p : Z * Z) :
  (0 <= fst p)%Z -> (snd p <= 0)%Z ->
  IZR (Z.shiftl (fst p) (snd p)) <= F2R p < IZR (Z.shiftl (fst p) (snd p)) + 1.
Proof.
  intros Hm He. rewrite Z.shiftl_div_pow2 by lia.
  set (j := (- snd p)%Z). assert (Hj : (0 <= j)%Z) by (unfold j; lia).
  assert (Hp : (0 < 2 ^ j)%Z) by (apply Z.pow_pos_nonneg; lia).
  pose proof (Z.mul_div_le (fst p) (2 ^ j) Hp) as Hlo.
  pose proof (Z.mul_succ_div_gt (fst p) (2 ^ j) Hp) as Hhi.
  assert (Hhi' : (fst p + 1 <= 2 ^ j * (fst p / 2 ^ j + 1))%Z) by lia.
  apply IZR_le in Hlo, Hhi'. rewrite mult_IZR in Hlo.
  rewrite plus_IZR, mult_IZR, plus_IZR in Hhi'.
  unfold F2R. replace (snd p) with (- j)%Z by (unfold j; lia).
  pose proof (bpow_opp j) as Ho. rewrite (bpow_IZR j) in Ho by lia.
  pose proof (bpow_pos (- j)) as Hb.
  assert (HP : 0 < IZR (2 ^ j)) by (apply IZR_lt; lia).
  set (c := IZR (fst p / 2 ^ j)) in *. set (P := IZR (2 ^ j)) in *.
  set (m := IZR (fst p)) in *. set (b := bpow (- j)) in *.
  clearbody c P m b.
  assert (H1 : c = b * (P * c)) by (rewrite <- Rmult_assoc, Ho; ring).
  assert (H2 : c + 1 = b * (P * (c + 1))) by (rewrite <- Rmult_assoc, Ho; ring).
  split.
  - rewrite H1, (Rmult_comm m b). apply Rmult_le_compat_l; lra.
  - rewrite H2, (Rmult_comm m b). apply Rmult_lt_compat_l; lra.
Qed.


Lemma bpow_m52 : bpow (-52) = / 4503599627370496.
Proof.
  pose proof (bpow_opp 52) as H. cbn [Z.opp] in H.
  rewrite (bpow_IZR 52) in H by lia.
  change (2 ^ 52)%Z with 4503599627370496%Z in H.
  apply Rmult_eq_reg_r with 4503599627370496; [ | lra ].
  rewrite H. field.
Qed.

Lemma rel_error_interval (a b e : R) :
  0 <= b -> Rabs (a - b) <= b * e -> b * (1 - e) <= a <= b * (1 + e).
Proof.
  intros Hb H. pose proof (Rle_abs (a - b)) as H1.
  pose proof (Rle_abs (- (a - b))) as H2. rewrite Rabs_Ropp in H2. lra.
Qed.

Lemma error_chain (n V M X Y Q P : R) :
  0 < n <= 2147483647 -> 0 < V -> V < M ->
  Rabs (X - V) <= V * bpow (-52) ->
  Rabs (Y - M) <= M * bpow (-52) ->
  Rabs (Q - X / Y) <= X / Y * bpow (-52) ->
  Rabs (P - n * Q) <= n * Q * bpow (-52) ->
  n * V - M < P * M < n * V + M.
Proof.
  rewrite bpow_m52. set (e := / 4503599627370496).
  intros Hn HV HM HX HY HQ HP.
  assert (He : e = / 4503599627370496) by reflexivity. clearbody e.
  assert (He0 : 0 < e < 1) by lra.
  apply rel_error_interval in HX; [ | lra ].
  apply rel_error_interval in HY; [ | lra ].
  assert (HXpos : 0 < X) by nra.
  assert (HYpos : 0 < Y) by nra.
  assert (HR0 : 0 < X / Y) by (apply Rdiv_lt_0_compat; assumption).
  apply rel_error_interval in HQ; [ | lra ].
  assert (HR0Y : X / Y * Y = X) by (field; lra).
  set (R0 := X / Y) in *. clearbody R0.
  assert (HQpos : 0 < Q) by nra.
  apply rel_error_interval in HP; [ | nra ].
  assert (HPpos : 0 <= P) by nra.
  (* Q * Y against X *)
  assert (HQY : X * (1 - e) <= Q * Y <= X * (1 + e)).
  { rewrite <- HR0Y. split.
    - replace (R0 * Y * (1 - e)) with (R0 * (1 - e) * Y) by ring.
      apply Rmult_le_compat_r; lra.
    - replace (R0 * Y * (1 + e)) with (R0 * (1 + e) * Y) by ring.
      apply Rmult_le_compat_r; lra. }
  set (QY := Q * Y) in *.
  assert (HPY : n * QY * (1 - e) <= P * Y <= n * QY * (1 + e)).
  { unfold QY. split.
    - replace (n * (Q * Y) * (1 - e)) with (n * Q * (1 - e) * Y) by ring.
      apply Rmult_le_compat_r; lra.
    - replace (n * (Q * Y) * (1 + e)) with (n * Q * (1 + e) * Y) by ring.
      apply Rmult_le_compat_r; lra. }
  clearbody QY.
  set (W := n * V).
  assert (HW : 0 < W) by (unfold W; nra).
  assert (HWM : W <= 2147483647 * M).
  { unfold W. apply Rle_trans with (n * M); [ | apply Rmult_le_compat_r; lra ].
    apply Rmult_le_compat_l; lra. }
  assert (HnX : W * (1 - e) <= n * X <= W * (1 + e)).
  { unfold W. split.
    - replace (n * V * (1 - e)) with (n * (V * (1 - e))) by ring.
      apply Rmult_le_compat_l; lra.
    - replace (n * V * (1 + e)) with (n * (V * (1 + e))) by ring.
      apply Rmult_le_compat_l; lra. }
  assert (HnQY : n * X * (1 - e) <= n * QY <= n * X * (1 + e)).
  { split.
    - replace (n * X * (1 - e)) with (n * (X * (1 - e))) by ring.
      apply Rmult_le_compat_l; lra.
    - replace (n * X * (1 + e)) with (n * (X * (1 + e))) by ring.
      apply Rmult_le_compat_l; lra. }
  set (nX := n * X) in *. set (nQY := n * QY) in *. clearbody nX nQY W.
  assert (H1 : W * (1 - e) * (1 - e) <= nQY).
  { apply Rle_trans with (nX * (1 - e)); [ | lra ].
    apply Rmult_le_compat_r; lra. }
  assert (H2 : nQY <= W * (1 + e) * (1 + e)).
  { apply Rle_trans with (nX * (1 + e)); [lra | ].
    apply Rmult_le_compat_r; lra. }
  assert (H3 : W * (1 - e) * (1 - e) * (1 - e) <= P * Y).
  { apply Rle_trans with (nQY * (1 - e)); [ | lra ].
    apply Rmult_le_compat_r; lra. }
  assert (H4 : P * Y <= W * (1 + e) * (1 + e) * (1 + e)).
  { apply Rle_trans with (nQY * (1 + e)); [lra | ].
    apply Rmult_le_compat_r; lra. }
  assert (H5 : P * M * (1 - e) <= P * Y).
  { replace (P * M * (1 - e)) with (P * (M * (1 - e))) by ring.
    apply Rmult_le_compat_l; lra. }
  assert (H6 : P * Y <= P * M * (1 + e)).
  { replace (P * M * (1 + e)) with (P * (M * (1 + e))) by ring.
    apply Rmult_le_compat_l; lra. }
  set (K := P * M) in *. set (PY := P * Y) in *. clearbody K PY.
  assert (Hup : W * (1 + e) * (1 + e) * (1 + e) <= W + W * (4 * e)).
  { assert (e * e <= e * / 4503599627370496) by (rewrite He; nra).
    assert (e * e * e <= e * e) by nra.
    replace (W * (1 + e) * (1 + e) * (1 + e))
      with (W + W * (3 * e + 3 * (e * e) + e * e * e)) by ring.
    apply Rplus_le_compat_l. apply Rmult_le_compat_l; lra. }
  assert (Hdn : W - W * (3 * e) <= W * (1 - e) * (1 - e) * (1 - e)).
  { assert (0 <= e * e) by nra. assert (e * e * e <= e * e) by nra.
    replace (W * (1 - e) * (1 - e) * (1 - e))
      with (W - W * (3 * e - 3 * (e * e) + e * e * e)) by ring.
    apply Rplus_le_compat_l. apply Ropp_le_contravar.
    apply Rmult_le_compat_l; lra. }
  rewrite He in *.
  split; lra.
Qed.


End RoundingError.

Lemma scaled_ratio_value (n v m : Z) :
  0 < n <= INT_MAX -> 0 < v < m -> m < 2 ^ 64 ->
  let q := div_pair (conv_pair v) (conv_pair m) in
  let p := mul_pair (conv_pair n) q in
  SFdiv 53 1024 (double_of_Z v) (double_of_Z m) = finite_of false q /\
  dmul (double_of_Z n) (finite_of false q) = finite_of false p /\
  normal_pair q /\ normal_pair p /\ lex_le p (conv_pair n) /\
  double_to_int (finite_of false p) = Z.shiftl (fst p) (snd p) /\
  0 <= Z.shiftl (fst p) (snd p) <= n.
Proof.
  intros Hn Hv Hm q p. unfold INT_MAX in Hn.
  destruct (conv_pair_cases m) as [Hnm _]; [lia | ].
  destruct (conv_pair_cases n) as [Hnn _]; [lia | ].
  destruct (conv_pair_cases v) as [Hnv _]; [lia | ].
  pose proof (conv_pair_exponent v ltac:(lia)) as Hev.
  pose proof (conv_pair_exponent m ltac:(lia)) as Hem.
  pose proof (conv_pair_exponent n ltac:(lia)) as Hen.
  destruct (div_pair_normal (conv_pair v) (conv_pair m) Hnv Hnm) as [Hnq Heq].
  pose proof (div_pair_le_one _ _ Hnv Hnm (conv_pair_mono v m ltac:(lia))) as Hq1.
  fold q in Hnq, Heq, Hq1.
  pose proof (mul_pair_normal _ _ Hnn Hnq) as Hnp.
  pose proof (mul_pair_le _ _ Hnn Hnq Hq1) as Hple.
  fold p in Hnp, Hple.
  pose proof (trunc_le _ n Hnp ltac:(lia) Hple) as Ht.
  split.
  { rewrite (double_of_Z_pos v), (double_of_Z_pos m) by lia.
    apply SFdiv_normal; try assumption; lia. }
  split.
  { rewrite (double_of_Z_pos n) by lia. unfold dmul.
    apply SFmul_normal; try assumption; lia. }
  split; [assumption | ]. split; [assumption | ]. split; [assumption | ].
  split; [ | assumption ].
  apply double_to_int_in_range.
  - apply double_trunc_finite. assumption.
  - apply is_int_bounds. lia.
Qed.

Lemma scaled_ratio_near_floor (n v m : Z) :
  0 < n <= INT_MAX -> 0 <= v < m -> m < 2 ^ 64 ->
  let c := double_to_int
             (dmul (double_of_Z n) (SFdiv 53 1024 (double_of_Z v) (double_of_Z m))) in
  n * v / m - 1 <= c <= n * v / m + 1.
Proof.
  intros Hn Hv Hm c. subst c.
  destruct (Z.eq_dec v 0) as [-> | Hv0].
  - rewrite (double_of_Z_pos m), (double_of_Z_pos n) by (unfold INT_MAX in Hn; lia).
    rewrite Z.mul_0_r, Z.div_0_l by lia. cbn. lia.
  - destruct (scaled_ratio_value n v m Hn ltac:(lia) Hm)
      as (Hq & Hp & Hnq & Hnp & Hle & Hc & Hb).
    rewrite Hq, Hp, Hc.
    set (q := div_pair (conv_pair v) (conv_pair m)) in *.
    set (p := mul_pair (conv_pair n) q) in *.
    set (c := Z.shiftl (fst p) (snd p)) in *.
    unfold INT_MAX in Hn.
    destruct (conv_pair_cases m) as [Hnm _]; [lia | ].
    destruct (conv_pair_cases n) as [Hnn _]; [lia | ].
    destruct (conv_pair_cases v) as [Hnv _]; [lia | ].
    (* the value of the product, as a real number *)
    pose proof (conv_rel_error v ltac:(lia)) as EX.
    pose proof (conv_rel_error m ltac:(lia)) as EY.
    pose proof (div_rel_error _ _ Hnv Hnm) as EQ. fold q in EQ.
    pose proof (mul_rel_error _ _ Hnn Hnq) as EP. fold p in EP.
    rewrite (F2R_conv_small n) in EP by lia.
    assert (Hsnd : snd p <= 0).
    { rewrite conv_pair_small in Hle by lia.
      pose proof (Zdigits2_le n 53 ltac:(lia)).
      unfold lex_le in Hle. cbn [fst snd] in Hle. lia. }
    pose proof (shiftl_floor p ltac:(unfold normal_pair in Hnp; lia) Hsnd) as Hfl.
    fold c in Hfl.
    assert (HnR : (0 < IZR n <= 2147483647)%R)
      by (split; [apply IZR_lt | apply IZR_le]; lia).
    assert (HvR : (0 < IZR v)%R) by (apply IZR_lt; lia).
    assert (HmR : (IZR v < IZR m)%R) by (apply IZR_lt; lia).
    pose proof (error_chain _ _ _ _ _ _ _ HnR HvR HmR EX EY EQ EP) as Hch.
    (* the quotient of the specification *)
    set (f := n * v / m).
    assert (Hf1 : m * f <= n * v) by (apply Z.mul_div_le; lia).
    assert (Hf2 : n * v + 1 <= m * (f + 1)).
    { pose proof (Z.mul_succ_div_gt (n * v) m ltac:(lia)). unfold f. lia. }
    apply IZR_le in Hf1, Hf2.
    rewrite !mult_IZR in Hf1. rewrite plus_IZR, !mult_IZR, plus_IZR in Hf2.
    set (P := F2R p) in *. set (M := IZR m) in *. set (N := IZR n) in *.
    set (V := IZR v) in *. set (F := IZR f) in *. set (C := IZR c) in *.
    assert (HM : (0 < M)%R) by lra.
    assert (HPM1 : (C * M <= P * M)%R) by (apply Rmult_le_compat_r; lra).
    assert (HPM2 : (P * M <= (C + 1) * M)%R) by (apply Rmult_le_compat_r; lra).
    assert (HCF1 : (C < F + 2)%R).
    { apply Rmult_lt_reg_r with M; [assumption | ]. lra. }
    assert (HCF2 : (F - 2 < C)%R).
    { apply Rmult_lt_reg_r with M; [assumption | ]. lra. }
    unfold C, F in HCF1, HCF2.
    replace (IZR f + 2)%R with (IZR (f + 2)) in HCF1 by (rewrite plus_IZR; reflexivity).
    replace (IZR f - 2)%R with (IZR (f - 2)) in HCF2 by (rewrite minus_IZR; reflexivity).
    apply lt_IZR in HCF1, HCF2. lia.
Qed.

(** ** Below the maximum, below the full bar *)

Lemma conv_pair_small_lt (a b : Z) :
  0 < a < b -> b < 2 ^ 53 -> lex_lt (conv_pair a) (conv_pair b).
Proof.
  intros Hab Hb. rewrite !conv_pair_small by lia.
  pose proof (Zdigits2_mono a b ltac:(lia)) as Hd.
  pose proof (Zdigits2_le b 53 ltac:(lia)) as Hdb.
  unfold lex_lt. cbn [fst snd].
  destruct (Z.eq_dec (Zdigits2 a) (Zdigits2 b)) as [Heq | Hne]; [right | left; lia].
  split; [lia | ]. rewrite Heq.
  apply Z.mul_lt_mono_pos_r; [apply Z.pow_pos_nonneg; lia | lia].
Qed.

(** A quotient of two different normal numbers, the smaller by the
    larger, is rounded to a double below 1. *)
Lemma div_pair_lt_one (x y : Z * Z) :
  normal_pair x -> normal_pair y -> lex_lt x y ->
  snd (div_pair x y) <= -53.
Proof.
  intros Hx Hy Hlt. unfold normal_pair in Hx, Hy.
  pose proof (div_quotient_bounds (fst x) (fst y) Hx Hy) as Hq.
  unfold div_pair. cbv zeta.
  set (q := fst x * 2 ^ 53 / fst y) in *.
  set (l := new_location _ _).
  assert (Hqy : q * fst y <= fst x * 2 ^ 53).
  { unfold q. rewrite Z.mul_comm. apply Z.mul_div_le. lia. }
  destruct (Z.ltb_spec q (2 ^ 53)) as [Hq53 | Hq53].
  - destruct (round_mantissa_bounds q l 0) as [Hr Hb]; [lia | rewrite !Z.add_0_r; lia | ].
    rewrite Z.pow_0_r, Z.div_1_r in Hr.
    unfold renorm_pair.
    destruct (Z.eqb_spec (round_mantissa q l 0) (2 ^ 53)) as [Hc | Hc]; cbn [snd].
    + (* a carry needs q = 2^53 - 1 *)
      destruct Hlt as [He | [He Hm]]; [lia | ].
      exfalso.
      assert (Hq1 : q = 2 ^ 53 - 1) by lia.
      assert (fst x * 2 ^ 53 <= (fst y - 1) * 2 ^ 53) by nia.
      nia.
    + destruct Hlt as [He | [He Hm]]; lia.
  - destruct Hlt as [He | [He Hm]].
    2:{ exfalso. assert (fst x * 2 ^ 53 < fst y * 2 ^ 53) by nia. nia. }
    destruct (round_mantissa_bounds q l 1) as [Hr Hb];
      [lia | change (52 + 1) with 53; change (53 + 1) with 54; lia | ].
    unfold renorm_pair.
    destruct (Z.eqb_spec (round_mantissa q l 1) (2 ^ 53)) as [Hc | Hc]; cbn [snd]; [ | lia ].
    destruct (Z.eq_dec (snd x) (snd y - 1)) as [He1 | He1]; [ | lia ].
    exfalso.
    (* the carry needs q / 2 = 2^53 - 1 and a rounding up *)
    assert (Hq2 : q <= 2 ^ 54 - 2).
    { unfold q. apply Z.div_le_upper_bound; nia. }
    assert (Hhalf : q / 2 ^ 1 = 2 ^ 53 - 1).
    { assert (q / 2 ^ 1 <= 2 ^ 53 - 1) by (apply Z.div_le_upper_bound; lia). lia. }
    assert (Hqe : q = 2 ^ 54 - 2).
    { pose proof (Z.mul_div_le q (2 ^ 1) ltac:(lia)). change (2 ^ 1) with 2 in *. lia. }
    unfold round_mantissa in Hc. cbv zeta in Hc. rewrite shr_result_m in Hc by lia.
    rewrite Hhalf in Hc.
    unfold shr_result, rne_up in Hc. change (0 <? 1) with true in Hc.
    cbn [shr_r shr_s shr_m] in Hc. rewrite Hqe in Hc at 1.
    change (Z.testbit (2 ^ 54 - 2) (1 - 1)) with false in Hc.
    cbn [andb Z.b2z] in Hc. lia.
Qed.

Lemma mul_pair_lt (x q : Z * Z) :
  normal_pair x -> normal_pair q -> snd q <= -53 ->
  lex_lt (mul_pair x q) x.
Proof.
  intros Hx Hq He. unfold normal_pair in Hx, Hq.
  pose proof (mul_product_bounds (fst x) (fst q) Hx Hq) as Hp.
  unfold mul_pair. cbv zeta.
  set (P := fst x * fst q) in *.
  destruct (Z.ltb_spec P (2 ^ 105)) as [H105 | H105].
  - destruct (round_mantissa_bounds P loc_Exact 52) as [Hr Hb];
      [lia | change (52 + 52) with 104; change (53 + 52) with 105; lia | ].
    unfold lex_lt, renorm_pair.
    destruct (Z.eqb_spec (round_mantissa P loc_Exact 52) (2 ^ 53)) as [Hc | Hc];
      cbn [fst snd]; [ | lia ].
    destruct (Z.eq_dec (fst x) (2 ^ 52)) as [Hx52 | Hx52]; [ | lia ].
    exfalso. unfold P in Hc. rewrite Hx52, Z.mul_comm in Hc.
    rewrite round_mantissa_exact, exact_up_multiple, Z.div_mul in Hc by lia.
    cbn [Z.b2z] in Hc. lia.
  - destruct (round_mantissa_bounds P loc_Exact 53) as [Hr Hb];
      [lia | change (52 + 53) with 105; change (53 + 53) with 106; lia | ].
    assert (Hm1 : P / 2 ^ 53 < fst x)
      by (apply Z.div_lt_upper_bound; unfold P; nia).
    unfold lex_lt, renorm_pair.
    destruct (Z.eqb_spec (round_mantissa P loc_Exact 53) (2 ^ 53)) as [Hc | Hc];
      cbn [fst snd]; [lia | ].
    destruct (Z.eq_dec (snd q) (-53)) as [He53 | He53]; [ | left; lia ].
    right. split; [lia | ].
    destruct (Z.eq_dec (P / 2 ^ 53) (fst x - 1)) as [Hm | Hm]; [ | lia ].
    (* the quotient is one below the mantissa of x: no rounding up *)
    rewrite round_mantissa_exact, Hm by lia.
    enough (Hup : exact_up P 53 = false) by (rewrite Hup; cbn [Z.b2z]; lia).
    pose proof (Z.mul_div_le P (2 ^ 53) ltac:(lia)) as Hlo. rewrite Hm in Hlo.
    assert (Hj : fst q = 2 ^ 53 - 1).
    { assert (fst x * (2 ^ 53 - fst q) <= 2 ^ 53) by (unfold P in Hlo; lia).
      destruct (Z.eq_dec (fst q) (2 ^ 53 - 1)) as [ | Hn]; [assumption | exfalso ].
      assert (2 <= 2 ^ 53 - fst q) by lia.
      assert (fst x * 2 <= 2 ^ 53) by nia.
      assert (fst x = 2 ^ 52) by lia.
      unfold P in H105. nia. }
    assert (Hx52 : 2 ^ 52 < fst x) by (unfold P in H105; nia).
    assert (Hrem : P mod 2 ^ 53 = 2 ^ 53 - fst x).
    { symmetry. apply (Z.mod_unique_pos P (2 ^ 53) (fst x - 1)); [lia | ].
      unfold P. rewrite Hj. ring. }
    pose proof (testbit_mod_pow2 P 53 ltac:(lia)) as Hbit.
    change (53 - 1) with 52 in Hbit.
    pose proof (Z.mod_pos_bound P (2 ^ 52) ltac:(lia)) as Hb52.
    unfold exact_up. change (53 - 1) with 52.
    destruct (Z.testbit P 52); cbn [Z.b2z] in Hbit; [lia | ].
    rewrite andb_false_r. reflexivity.
Qed.

Lemma trunc_lt (p : Z * Z) (n : Z) :
  normal_pair p -> 0 < n < 2 ^ 53 -> lex_lt p (conv_pair n) ->
  Z.shiftl (fst p) (snd p) < n.
Proof.
  intros Hp Hn Hlt. unfold normal_pair in Hp.
  rewrite conv_pair_small in Hlt by assumption.
  pose proof (Zdigits2_le n 53 Hn) as Hd.
  destruct (Zdigits2_bounds n) as [Hd0 Hb]; [lia | ].
  set (d := Zdigits2 n) in *.
  assert (Hn52 : 2 ^ 52 <= n * 2 ^ (53 - d)).
  { rewrite (pow2_split 52 (d - 1) (53 - d)) by lia.
    apply Z.mul_le_mono_nonneg_r; [apply Z.pow_nonneg; lia | lia]. }
  unfold lex_lt in Hlt. cbn [fst snd] in Hlt.
  assert (Hs : snd p <= 0) by lia.
  rewrite Z.shiftl_div_pow2 by lia.
  assert (Hj : 0 < 2 ^ (- snd p)) by (apply Z.pow_pos_nonneg; lia).
  apply Z.div_lt_upper_bound; [lia | ].
  destruct Hlt as [He | [He Hm]].
  - rewrite (pow2_split (- snd p) (53 - d) (- snd p - (53 - d))) by lia.
    assert (2 <= 2 ^ (- snd p - (53 - d))).
    { change 2 with (2 ^ 1) at 1. apply Z.pow_le_mono_r; lia. }
    assert (0 < 2 ^ (53 - d)) by (apply Z.pow_pos_nonneg; lia).
    nia.
  - replace (- snd p) with (53 - d) by lia. lia.
Qed.

Lemma scaled_ratio_strict (n v m : Z) :
  0 < n <= INT_MAX -> 0 <= v < m -> m < 2 ^ 53 ->
  double_to_int
    (dmul (double_of_Z n) (SFdiv 53 1024 (double_of_Z v) (double_of_Z m))) < n.
Proof.
  intros Hn Hv Hm.
  destruct (Z.eq_dec v 0) as [-> | Hv0].
  - rewrite (double_of_Z_pos m), (double_of_Z_pos n) by (unfold INT_MAX in Hn; lia).
    cbn. lia.
  - assert (Hv' : 0 < v < m) by lia.
    destruct (conv_pair_cases m) as [Hnm _]; [lia | ].
    destruct (conv_pair_cases n) as [Hnn _]; [lia | ].
    destruct (conv_pair_cases v) as [Hnv _]; [lia | ].
    unfold INT_MAX in Hn.
    pose proof (conv_pair_exponent v ltac:(lia)) as Hev.
    pose proof (conv_pair_exponent m ltac:(lia)) as Hem.
    pose proof (conv_pair_exponent n ltac:(lia)) as Hen.
    destruct (div_pair_normal (conv_pair v) (conv_pair m) Hnv Hnm) as [Hnq Heq].
    pose proof (div_pair_lt_one _ _ Hnv Hnm (conv_pair_small_lt v m Hv' Hm)) as Hq1.
    pose proof (mul_pair_normal _ _ Hnn Hnq) as Hnp.
    pose proof (mul_pair_lt _ _ Hnn Hnq Hq1) as Hplt.
    pose proof (trunc_lt _ n Hnp ltac:(lia) Hplt) as Ht.
    assert (Hple : lex_le (mul_pair (conv_pair n) (div_pair (conv_pair v) (conv_pair m)))
                     (conv_pair n)).
    { unfold lex_lt in Hplt. unfold lex_le. lia. }
    pose proof (trunc_le _ n Hnp ltac:(lia) Hple) as Ht'.
    rewrite (double_of_Z_pos v), (double_of_Z_pos m), (double_of_Z_pos n) by lia.
    rewrite SFdiv_normal by (try assumption; lia).
    unfold dmul. rewrite SFmul_normal by (try assumption; lia).
    cbn [xorb].
    rewrite (double_to_int_in_range _ _ (double_trunc_finite false _ Hnp))
      by (apply is_int_bounds; cbn [cond_Zopp]; lia).
    exact Ht.
Qed.

(** ** The filled pieces of a draw *)

Lemma bar_width_is_int (W L : Z) : 10 <= progressbar_bar_width W L <= INT_MAX.
Proof.
  split; [apply bar_width_at_least_minimum | ].
  unfold progressbar_bar_width, MINIMUM_BAR_WIDTH. rewrite progressbar_max_spec.
  pose proof (int_wrap_range (W -i L -i ETA_FORMAT_LENGTH - WHITESPACE_LENGTH)) as H.
  fold (int_sub (W -i L -i ETA_FORMAT_LENGTH) WHITESPACE_LENGTH) in H.
  unfold is_int, INT_MIN, INT_MAX in *. lia.
Qed.

Lemma draw_completed_true (bar : progressbar) :
  draw_completed bar = true <-> max bar <= value bar.
Proof. unfold draw_completed. rewrite Z.geb_le. reflexivity. Qed.

Lemma draw_completed_false (bar : progressbar) :
  draw_completed bar = false <-> value bar < max bar.
Proof.
  unfold draw_completed. destruct (Z.geb_spec (value bar) (max bar)); split; intros; try lia; discriminate.
Qed.

Lemma filled_count_bounds (bar : progressbar) (bar_width : Z) :
  wf_bar bar -> 2 < bar_width <= INT_MAX ->
  exists bar_piece_current,
    draw_bar_piece_current bar bar_width = Done bar_piece_current /\
    0 <= bar_piece_current <= bar_width - 2.
Proof.
  intros (Hmax & Hval & _) Hw. unfold is_ulong, ULONG_MAX in *. unfold INT_MAX in Hw.
  unfold draw_bar_piece_current, BAR_BORDER_WIDTH. cbv zeta.
  rewrite int_sub_exact by (apply is_int_bounds; lia).
  destruct (draw_completed bar) eqn:Hc.
  - exists (bar_width - 2). cbn [bind ret].
    rewrite double_to_int_of_Z by (apply is_int_bounds; lia).
    split; [reflexivity | lia].
  - apply draw_completed_false in Hc.
    destruct (scaled_ratio_bounds (bar_width - 2) (value bar) (max bar))
      as (q & Hq & Hb); [unfold INT_MAX; lia | lia | lia | ].
    rewrite Hq. cbn [bind ret]. eexists. split; [reflexivity | exact Hb].
Qed.

Lemma filled_pieces_bounds (bar : progressbar) (W L : Z) :
  wf_bar bar ->
  let bar_width := progressbar_bar_width W L in
  let bar_piece_count := bar_width -i BAR_BORDER_WIDTH in
  exists bar_piece_current,
    draw_bar_piece_current bar bar_width = Done bar_piece_current /\
    0 <= bar_piece_current <= bar_piece_count /\
    0 <= bar_piece_count -i bar_piece_current /\
    size_wrap (bar_piece_count -i bar_piece_current)
    = bar_piece_count - bar_piece_current.
Proof.
  intros Hwf bar_width bar_piece_count.
  pose proof (bar_width_is_int W L) as Hw. fold bar_width in Hw.
  destruct (filled_count_bounds bar bar_width Hwf ltac:(lia)) as (cur & Hcur & Hb).
  unfold INT_MAX in Hw.
  assert (Hcount : bar_piece_count = bar_width - 2).
  { unfold bar_piece_count, BAR_BORDER_WIDTH.
    apply int_sub_exact, is_int_bounds. lia. }
  exists cur. rewrite Hcount.
  rewrite int_sub_exact by (apply is_int_bounds; lia).
  repeat split; try assumption; try lia.
  unfold size_wrap. apply Z.mod_small. lia.
Qed.

(** C9.  Whatever the bar holds (a current value above the maximum and
    a maximum of zero included) and whatever the terminal reports, the
    number of filled pieces that a draw computes is between 0 and the
    number of pieces, so the number of blanks passed to
    [progressbar_write_char] is not negative and its conversion to
    [size_t] leaves it unchanged. *)
Theorem filled_pieces_within_count (e : env) (bar : progressbar) :
  wf_bar bar ->
  let screen_width := int_wrap (get_screen_width e) in
  let label_length := int_wrap (Z.of_nat (String.length (label bar))) in
  let bar_width := progressbar_bar_width screen_width label_length in
  let bar_piece_count := bar_width -i BAR_BORDER_WIDTH in
  exists bar_piece_current,
    draw_bar_piece_current bar bar_width = Done bar_piece_current /\
    0 <= bar_piece_current <= bar_piece_count /\
    0 <= bar_piece_count -i bar_piece_current /\
    size_wrap (bar_piece_count -i bar_piece_current)
    = bar_piece_count - bar_piece_current.
Proof.
  intros Hwf screen_width label_length.
  exact (filled_pieces_bounds bar screen_width label_length Hwf).
Qed.

Lemma filled_pieces_within_count_witness :
  let e := Build_env 10 (Some 80) in
  let bar := Build_progressbar 10 3 0 "Loading" (Build_format "|" "=" "|") in
  wf_bar bar /\
  exists bar_piece_current,
    draw_bar_piece_current bar (progressbar_bar_width 80 7) = Done bar_piece_current /\
    0 <= bar_piece_current <= progressbar_bar_width 80 7 -i BAR_BORDER_WIDTH.
Proof.
  cbv zeta.
  assert (Hwf : wf_bar (Build_progressbar 10 3 0 "Loading" (Build_format "|" "=" "|")))
    by (unfold wf_bar, is_ulong, is_time, ULONG_MAX; cbn; lia).
  split; [exact Hwf | ].
  destruct (filled_pieces_within_count (Build_env 10 (Some 80)) _ Hwf)
    as (cur & Hcur & Hb & _).
  exists cur. split; [exact Hcur | exact Hb].
Defined.

(** C1, as stated, fails: with 49 pieces, 1 step done of 49, the
    quotient [1.0 / 49] is rounded down, its product with 49 is just
    below 1 and the truncation gives no filled piece, where the formula
    of the specification gives one. *)
Lemma filled_count_not_floor :
  let bar := Build_progressbar 49 1 0 "Loading" (Build_format "|" "=" "|") in
  0 < max bar /\ 0 <= value bar <= max bar /\
  draw_bar_piece_current bar 51 = Done 0 /\
  spec_filled_cells 51 (value bar) (max bar) = 1 /\
  draw_bar_piece_current bar 51
  <> Done (spec_filled_cells 51 (value bar) (max bar)).
Proof.
  cbv zeta. cbn [max value].
  assert (H : draw_bar_piece_current
                (Build_progressbar 49 1 0 "Loading" (Build_format "|" "=" "|")) 51
              = Done 0) by (vm_compute; reflexivity).
  rewrite H. repeat split; try lia; try reflexivity.
  vm_compute. discriminate.
Qed.

(** Beyond [2^53] two different values can have the same double:
    one step before the largest maximum the quotient is rounded to 1
    and the bar is drawn full although it is not complete. *)
Lemma filled_count_full_below_huge_maximum :
  let bar := Build_progressbar ULONG_MAX (ULONG_MAX - 1) 0 "Loading"
               (Build_format "|" "=" "|") in
  draw_completed bar = false /\ draw_bar_piece_current bar 51 = Done 49.
Proof. split; vm_compute; reflexivity. Qed.

(** C1, amended.  For a positive maximum, a current value up to it and
    a bar width from 3 to [INT_MAX], the number of filled cells is
    [barWidth - 2] when the current value has reached the maximum;
    below the maximum it is the truncation of the product of
    [barWidth - 2] and the quotient of current by maximum, both
    computed and rounded in double precision.  That number is between
    0 and [barWidth - 2], it differs by at most one from
    [floor((barWidth-2) * current / maximum)], and for a maximum below
    [2^53] it is [barWidth - 2] exactly when current >= maximum. *)
Theorem filled_count_rounded (bar : progressbar) (barWidth : Z) :
  wf_bar bar -> 0 < max bar -> 0 <= value bar <= max bar ->
  2 < barWidth <= INT_MAX ->
  exists filled,
    draw_bar_piece_current bar barWidth = Done filled /\
    (value bar = max bar -> filled = barWidth - 2) /\
    (value bar < max bar ->
     filled = double_to_int
                (dmul (double_of_Z (barWidth - 2))
                   (SFdiv 53 1024 (double_of_Z (value bar)) (double_of_Z (max bar))))) /\
    0 <= filled <= barWidth - 2 /\
    spec_filled_cells barWidth (value bar) (max bar) - 1 <= filled
      <= spec_filled_cells barWidth (value bar) (max bar) + 1 /\
    (max bar < 2 ^ 53 -> (filled = barWidth - 2 <-> max bar <= value bar)).
Proof.
  intros Hwf Hmax Hval Hw.
  pose proof Hwf as (Hm & Hv & _). unfold is_ulong, ULONG_MAX in Hm, Hv.
  assert (Hw' : 2 < barWidth <= 2147483647) by (unfold INT_MAX in Hw; lia).
  assert (Hcount : barWidth -i BAR_BORDER_WIDTH = barWidth - 2).
  { unfold BAR_BORDER_WIDTH. apply int_sub_exact, is_int_bounds. lia. }
  assert (Hn : 0 < barWidth - 2 <= INT_MAX) by (unfold INT_MAX; lia).
  unfold spec_filled_cells.
  destruct (Z.eq_dec (value bar) (max bar)) as [Heq | Hne].
  - exists (barWidth - 2).
    split.
    { unfold draw_bar_piece_current. cbv zeta. rewrite Hcount.
      rewrite (proj2 (draw_completed_true bar)) by lia. cbn [bind ret].
      rewrite double_to_int_of_Z by (apply is_int_bounds; lia). reflexivity. }
    split; [reflexivity | ]. split; [lia | ]. split; [lia | ].
    split.
    + rewrite Heq, Z.div_mul by lia. lia.
    + intros _. split; intros; [lia | reflexivity].
  - assert (Hlt : value bar < max bar) by lia.
    set (filled := double_to_int
                     (dmul (double_of_Z (barWidth - 2))
                        (SFdiv 53 1024 (double_of_Z (value bar))
                           (double_of_Z (max bar))))).
    exists filled.
    destruct (filled_count_bounds bar barWidth Hwf Hw) as (cur & Hcur & Hb).
    assert (Hd : draw_bar_piece_current bar barWidth = Done filled).
    { unfold draw_bar_piece_current. cbv zeta. rewrite Hcount.
      rewrite (proj2 (draw_completed_false bar) Hlt).
      unfold ddiv. rewrite double_of_Z_nonzero by lia. reflexivity. }
    rewrite Hd in Hcur. injection Hcur as <-.
    split; [exact Hd | ]. split; [lia | ]. split; [reflexivity | ].
    split; [exact Hb | ]. split.
    + apply (scaled_ratio_near_floor (barWidth - 2) (value bar) (max bar)); lia.
    + intros H53.
      pose proof (scaled_ratio_strict (barWidth - 2) (value bar) (max bar) Hn
                    ltac:(lia) H53) as Hs.
      fold filled in Hs. split; lia.
Qed.

Lemma filled_count_rounded_witness :
  let bar := Build_progressbar 49 1 0 "Loading" (Build_format "|" "=" "|") in
  wf_bar bar /\ 0 < max bar /\ 0 <= value bar <= max bar /\ 2 < 51 <= INT_MAX /\
  exists filled,
    draw_bar_piece_current bar 51 = Done filled /\
    spec_filled_cells 51 (value bar) (max bar) - 1 <= filled
      <= spec_filled_cells 51 (value bar) (max bar) + 1.
Proof.
  cbv zeta.
  assert (Hwf : wf_bar (Build_progressbar 49 1 0 "Loading" (Build_format "|" "=" "|")))
    by (unfold wf_bar, is_ulong, is_time, ULONG_MAX; cbn; lia).
  assert (Hw : 2 < 51 <= INT_MAX) by (unfold INT_MAX; lia).
  split; [exact Hwf | ]. split; [cbn; lia | ]. split; [cbn; lia | ].
  split; [exact Hw | ].
  destruct (filled_count_rounded _ 51 Hwf ltac:(cbn; lia) ltac:(cbn; lia) Hw)
    as (filled & Hd & _ & _ & _ & Hnear & _).
  exists filled. split; [exact Hd | exact Hnear].
Defined.

(** ** Division by zero *)

Lemma remaining_seconds_done (e : env) (bar : progressbar) :
  wf_bar bar ->
  progressbar_remaining_seconds e bar
  = Done (if (value bar >? 0)
             && dgt (difftime (time e) (start bar)) (double_of_Z 0)
          then double_to_int
                 (dmul (SFdiv 53 1024 (difftime (time e) (start bar))
                          (double_of_Z (value bar)))
                    (double_of_Z (ulong_sub (max bar) (value bar))))
          else 0).
Proof.
  intros (_ & Hv & _). unfold is_ulong, ULONG_MAX in Hv.
  unfold progressbar_remaining_seconds. cbv zeta.
  destruct (Z.gtb_spec (value bar) 0) as [Hpos | Hz]; cbn [andb]; [ | reflexivity ].
  destruct (dgt _ _); [ | reflexivity ].
  unfold ddiv. rewrite double_of_Z_nonzero by lia. reflexivity.
Qed.

Lemma draw_eta_done (e : env) (bar : progressbar) :
  wf_bar bar -> exists eta, draw_eta e bar = Done eta.
Proof.
  intros Hwf. unfold draw_eta. destruct (draw_completed bar).
  - eexists. reflexivity.
  - rewrite remaining_seconds_done by assumption. eexists. reflexivity.
Qed.

Lemma draw_bar_piece_current_done (bar : progressbar) (bar_width : Z) :
  wf_bar bar -> exists cur, draw_bar_piece_current bar bar_width = Done cur.
Proof.
  intros (Hm & Hv & _). unfold is_ulong, ULONG_MAX in Hm, Hv.
  unfold draw_bar_piece_current. cbv zeta.
  destruct (draw_completed bar) eqn:Hc.
  - eexists. reflexivity.
  - apply draw_completed_false in Hc.
    unfold ddiv. rewrite double_of_Z_nonzero by lia. eexists. reflexivity.
Qed.

Lemma progressbar_draw_done (e : env) (bar : progressbar) (s : streams) :
  wf_bar bar -> exists s', progressbar_draw e bar s = Done s'.
Proof.
  intros Hwf. unfold progressbar_draw. cbv zeta.
  match goal with
  | |- context [draw_bar_piece_current bar ?w] =>
      destruct (draw_bar_piece_current_done bar w Hwf) as (cur & ->)
  end.
  destruct (draw_eta_done e bar Hwf) as (eta & ->).
  cbn [bind]. destruct (_ =? 0); eexists; reflexivity.
Qed.

(** C6.  A draw always runs to its end: no division of the draw or of
    the ETA computation meets a zero divisor, whatever the current
    value.  With a maximum of zero the bar counts as complete: all
    pieces are filled and the ETA shows the elapsed time, and no
    division is evaluated at all. *)
Theorem draw_never_divides_by_zero (e : env) (bar : progressbar) (s : streams) :
  wf_bar bar ->
  (exists s', progressbar_draw e bar s = Done s') /\
  (exists r, progressbar_remaining_seconds e bar = Done r) /\
  (max bar = 0 ->
   draw_completed bar = true /\
   (forall bar_width,
      draw_bar_piece_current bar bar_width = Done (bar_width -i BAR_BORDER_WIDTH)) /\
   draw_eta e bar
   = Done (progressbar_calc_time_components
             (double_to_int (difftime (time e) (start bar))))).
Proof.
  intros Hwf. split; [ | split ].
  - apply progressbar_draw_done, Hwf.
  - rewrite remaining_seconds_done by assumption. eexists. reflexivity.
  - intros H0. destruct Hwf as (_ & Hv & _). unfold is_ulong in Hv.
    assert (Hc : draw_completed bar = true) by (apply draw_completed_true; lia).
    split; [exact Hc | ]. split.
    + intros bar_width. unfold draw_bar_piece_current. cbv zeta. rewrite Hc.
      cbn [bind ret]. rewrite double_to_int_of_Z by apply int_wrap_range.
      reflexivity.
    + unfold draw_eta. rewrite Hc. reflexivity.
Qed.

Lemma draw_never_divides_by_zero_witness :
  let e := Build_env 5 (Some 80) in
  let bar := Build_progressbar 0 0 0 "Loading" (Build_format "|" "=" "|") in
  wf_bar bar /\
  (exists s', progressbar_draw e bar (Build_streams [] []) = Done s') /\
  draw_completed bar = true.
Proof.
  cbv zeta.
  assert (Hwf : wf_bar (Build_progressbar 0 0 0 "Loading" (Build_format "|" "=" "|")))
    by (unfold wf_bar, is_ulong, is_time, ULONG_MAX; cbn; lia).
  split; [exact Hwf | ].
  destruct (draw_never_divides_by_zero (Build_env 5 (Some 80)) _ (Build_streams [] []) Hwf)
    as (Hd & _ & H0).
  split; [exact Hd | exact (proj1 (H0 eq_refl))].
Defined.

(** ** The ETA *)

(** C3, as stated, fails: one second after the start, with 49 steps
    done of 98, the code divides first, [1.0 / 49] is rounded down,
    its product with 49 is just below 1 and the estimate is 0 seconds;
    [elapsed * (maximum - current) / current] is 1 second. *)
Lemma eta_not_spec_formula :
  let e := Build_env 1 (Some 80) in
  let bar := Build_progressbar 98 49 0 "Loading" (Build_format "|" "=" "|") in
  value bar < max bar /\ 0 < value bar /\ 0 < time e - start bar /\
  draw_eta e bar = Done (Build_time_components 0 0 0) /\
  progressbar_calc_time_components
    (spec_remaining_seconds (time e - start bar) (value bar) (max bar))
  = Build_time_components 0 0 1 /\
  draw_eta e bar
  <> Done (progressbar_calc_time_components
             (spec_remaining_seconds (time e - start bar) (value bar) (max bar))).
Proof.
  cbv zeta. cbn [max value start time].
  assert (H : draw_eta (Build_env 1 (Some 80))
                (Build_progressbar 98 49 0 "Loading" (Build_format "|" "=" "|"))
              = Done (Build_time_components 0 0 0)) by (vm_compute; reflexivity).
  rewrite H. repeat split; try lia; try reflexivity.
  vm_compute. discriminate.
Qed.

Lemma eta_product_finite (E v d : Z) :
  0 < E < 2 ^ 64 -> 0 < v < 2 ^ 64 -> 0 < d < 2 ^ 64 ->
  exists p,
    normal_pair p /\
    dmul (SFdiv 53 1024 (double_of_Z E) (double_of_Z v)) (double_of_Z d)
    = finite_of false p.
Proof.
  intros HE Hv Hd.
  assert (Hbig : 2 ^ 64 < 2 ^ 1000) by (apply Z.pow_lt_mono_r; lia).
  destruct (conv_pair_cases E) as [Hnx _]; [lia | ].
  destruct (conv_pair_cases v) as [Hny _]; [lia | ].
  destruct (conv_pair_cases d) as [Hnz _]; [lia | ].
  pose proof (conv_pair_exponent E HE) as Hex.
  pose proof (conv_pair_exponent v Hv) as Hey.
  pose proof (conv_pair_exponent d Hd) as Hez.
  destruct (div_pair_normal (conv_pair E) (conv_pair v) Hnx Hny) as [Hnq Heq].
  exists (mul_pair (div_pair (conv_pair E) (conv_pair v)) (conv_pair d)).
  split; [apply mul_pair_normal; assumption | ].
  rewrite (double_of_Z_pos E), (double_of_Z_pos v), (double_of_Z_pos d) by lia.
  rewrite (SFdiv_normal false false _ _ Hnx Hny) by lia.
  cbn [xorb]. unfold dmul.
  rewrite (SFmul_normal false false _ _ Hnq Hnz) by lia.
  reflexivity.
Qed.

(** C3, amended.  The number of seconds decomposed for the ETA field
    is: when current >= maximum, the elapsed time [now - startTime],
    for an elapsed time in the range of [int]; otherwise, when
    current > 0 and the elapsed time is positive, the double product
    [(elapsed / current) * (maximum - current)], the quotient being
    taken and rounded first, is finite and not negative, and the
    number of seconds is its integer truncation whenever that is at
    most [INT_MAX]; otherwise 0 seconds.  The computation ends without
    a division by zero in every case.  Nothing is stated on an elapsed
    time or a truncated product beyond the range of [int], whose
    conversion ISO C leaves undefined. *)
Theorem eta_seconds_cases (e : env) (bar : progressbar) :
  wf_bar bar -> is_time (time e) ->
  let elapsed := time e - start bar in
  let product :=
    dmul (SFdiv 53 1024 (double_of_Z elapsed) (double_of_Z (value bar)))
      (double_of_Z (max bar - value bar)) in
  (max bar <= value bar -> is_int elapsed ->
   draw_eta e bar = Done (progressbar_calc_time_components elapsed)) /\
  (value bar < max bar -> 0 < value bar -> 0 < elapsed ->
   exists z,
     double_trunc product = Some z /\ 0 <= z /\
     (z <= INT_MAX ->
      draw_eta e bar = Done (progressbar_calc_time_components z))) /\
  (value bar < max bar -> value bar = 0 \/ elapsed <= 0 ->
   draw_eta e bar = Done (Build_time_components 0 0 0)) /\
  (exists eta, draw_eta e bar = Done eta).
Proof.
  intros Hwf Ht elapsed product.
  pose proof Hwf as (Hm & Hv & Hs). unfold is_ulong, ULONG_MAX in Hm, Hv.
  unfold is_time in Hs, Ht.
  assert (Hgt : dgt (difftime (time e) (start bar)) (double_of_Z 0) = (0 <? elapsed)).
  { unfold difftime. apply dgt_zero_of_Z.
    assert (2 ^ 64 < 2 ^ 1000) by (apply Z.pow_lt_mono_r; lia). lia. }
  split; [ | split; [ | split ]].
  - intros Hc Hi. apply draw_completed_true in Hc.
    unfold draw_eta. rewrite Hc. unfold difftime. fold elapsed.
    rewrite double_to_int_of_Z by assumption. reflexivity.
  - intros Hlt Hpos He. pose proof (proj2 (draw_completed_false bar) Hlt) as Hc.
    destruct (eta_product_finite elapsed (value bar) (max bar - value bar))
      as (p & Hnp & Hp); [unfold elapsed; lia | lia | lia | ].
    fold product in Hp.
    exists (Z.shiftl (fst p) (snd p)).
    assert (Htr : double_trunc product = Some (Z.shiftl (fst p) (snd p))).
    { rewrite Hp, (double_trunc_finite false p Hnp). reflexivity. }
    assert (H0 : 0 <= Z.shiftl (fst p) (snd p)).
    { apply Z.shiftl_nonneg. unfold normal_pair in Hnp. lia. }
    split; [exact Htr | ]. split; [exact H0 | ].
    intros Hz.
    unfold draw_eta. rewrite Hc, remaining_seconds_done by assumption.
    rewrite Hgt.
    destruct (Z.gtb_spec (value bar) 0); [ | lia ].
    destruct (Z.ltb_spec 0 elapsed); [ | lia ].
    cbn [andb bind ret]. unfold difftime, ulong_sub, ulong_wrap.
    rewrite Z.mod_small by lia. fold elapsed. fold product.
    rewrite (double_to_int_in_range product _ Htr)
      by (apply is_int_bounds; unfold INT_MAX in Hz; lia).
    reflexivity.
  - intros Hlt Hz. pose proof (proj2 (draw_completed_false bar) Hlt) as Hc.
    unfold draw_eta. rewrite Hc, remaining_seconds_done by assumption.
    rewrite Hgt.
    destruct Hz as [Hz | Hz].
    + destruct (Z.gtb_spec (value bar) 0); [lia | ]. reflexivity.
    + destruct (Z.ltb_spec 0 elapsed); [lia | ].
      rewrite andb_false_r. reflexivity.
  - apply draw_eta_done. exact Hwf.
Qed.

Lemma eta_seconds_cases_witness :
  let e := Build_env 10 (Some 80) in
  let bar := Build_progressbar 10 3 0 "Loading" (Build_format "|" "=" "|") in
  wf_bar bar /\ is_time (time e) /\
  value bar < max bar /\ 0 < value bar /\ 0 < time e - start bar /\
  draw_eta e bar = Done (Build_time_components 0 0 23).
Proof.
  cbv zeta.
  assert (Hwf : wf_bar (Build_progressbar 10 3 0 "Loading" (Build_format "|" "=" "|")))
    by (unfold wf_bar, is_ulong, is_time, ULONG_MAX; cbn; lia).
  assert (Ht : is_time (time (Build_env 10 (Some 80))))
    by (unfold is_time; cbn; lia).
  split; [exact Hwf | split; [exact Ht | ]].
  cbn [max value start time].
  split; [lia | ]. split; [lia | ]. split; [lia | ].
  destruct (proj1 (proj2 (eta_seconds_cases _ _ Hwf Ht))) as (z & Hz & _ & H);
    [cbn; lia | cbn; lia | cbn; lia | ].
  vm_compute in Hz. injection Hz as <-.
  rewrite H by (unfold INT_MAX; lia). reflexivity.
Defined.

(** ** What a draw writes *)

Lemma fputs_stderr (cs : list ascii) (s : streams) :
  fputs cs stderr s = Build_streams (out s) (err s ++ cs).
Proof. reflexivity. Qed.

Lemma fputc_stderr (ch : ascii) (s : streams) :
  fputc ch stderr s = Build_streams (out s) (err s ++ [ch]).
Proof. reflexivity. Qed.

Lemma fwrite_stderr (ptr : string) (n : Z) (s : streams) :
  fwrite ptr n stderr s
  = Build_streams (out s)
      (err s ++ firstn (Z.to_nat (size_wrap n)) (list_ascii_of_string ptr)).
Proof. reflexivity. Qed.

Lemma write_char_stderr (ch : ascii) (times : Z) (s : streams) :
  progressbar_write_char stderr ch times s
  = Build_streams (out s) (err s ++ repeat ch (Z.to_nat (size_wrap times))).
Proof.
  unfold progressbar_write_char.
  induction (Z.to_nat (size_wrap times)) as [ | n IH ].
  - cbn [Nat.iter nat_rect repeat]. rewrite app_nil_r. destruct s; reflexivity.
  - rewrite Nat.iter_succ, IH, fputc_stderr. cbn [out err].
    rewrite <- app_assoc, <- repeat_cons. reflexivity.
Qed.

Lemma progressbar_draw_text (e : env) (bar : progressbar) (s : streams) :
  let screen_width := int_wrap (get_screen_width e) in
  let label_length := int_wrap (Z.of_nat (String.length (label bar))) in
  let bar_width := progressbar_bar_width screen_width label_length in
  let label_width := progressbar_label_width screen_width label_length bar_width in
  let bar_piece_count := bar_width -i BAR_BORDER_WIDTH in
  progressbar_draw e bar s
  = (bar_piece_current <- draw_bar_piece_current bar bar_width ;;
     eta <- draw_eta e bar ;;
     ret (Build_streams (out s)
            (err s ++ draw_text bar label_width bar_piece_count bar_piece_current eta))).
Proof.
  cbv zeta. unfold progressbar_draw. cbv zeta.
  destruct (draw_bar_piece_current bar _) as [cur | | ];
    [ | reflexivity | reflexivity ].
  destruct (draw_eta e bar) as [eta | | ]; [ | reflexivity | reflexivity ].
  cbn [bind]. unfold ret, draw_text.
  destruct (_ =? 0); cbv beta iota;
    repeat (rewrite ?fwrite_stderr, ?fputc_stderr, ?write_char_stderr, ?fputs_stderr;
            cbn [out err]);
    repeat rewrite <- app_assoc; cbn [app]; reflexivity.
Qed.

Lemma progressbar_draw_appends (e : env) (bar : progressbar) (s : streams) :
  progressbar_draw e bar s
  = (text <- draw_output e bar ;; ret (Build_streams (out s) (err s ++ text))).
Proof.
  unfold draw_output. rewrite !progressbar_draw_text. cbv zeta.
  destruct (draw_bar_piece_current bar _) as [cur | | ];
    [ | reflexivity | reflexivity ].
  destruct (draw_eta e bar) as [eta | | ]; [ | reflexivity | reflexivity ].
  cbn [bind ret out err app]. reflexivity.
Qed.

Lemma draw_output_env (e1 e2 : env) (bar : progressbar) :
  time e1 = time e2 -> get_screen_width e1 = get_screen_width e2 ->
  draw_output e1 bar = draw_output e2 bar.
Proof.
  intros Ht Hw. unfold draw_output, progressbar_draw, draw_eta,
    progressbar_remaining_seconds.
  rewrite Ht, Hw. reflexivity.
Qed.

(** C2, as stated, fails: the text of a draw starts with the label,
    not with the sequence that erases the line. *)
Lemma draw_has_no_clear_prefix :
  let e := Build_env 10 (Some 40) in
  let bar := Build_progressbar 10 5 0 "Loading" (Build_format "|" "=" "|") in
  progressbar_draw e bar (Build_streams [] [])
  = Done (Build_streams []
            (list_ascii_of_string "Loading |========        | ETA: 0h00m10s" ++ [CR])) /\
  ~ (exists line s',
       progressbar_draw e bar (Build_streams [] []) = Done s' /\
       err s' = CLEAR_LINE ++ line ++ [CR]).
Proof.
  cbv zeta.
  assert (H : progressbar_draw (Build_env 10 (Some 40))
                (Build_progressbar 10 5 0 "Loading" (Build_format "|" "=" "|"))
                (Build_streams [] [])
              = Done (Build_streams []
                        (list_ascii_of_string "Loading |========        | ETA: 0h00m10s"
                         ++ [CR])))
    by (vm_compute; reflexivity).
  split; [exact H | ].
  intros (line & s' & Hd & He). rewrite H in Hd. injection Hd as <-.
  cbn in He. discriminate He.
Qed.

(** C2, amended.  Every draw leaves the standard output alone and
    appends to the error stream, with nothing before it, the line it
    renders: the label cut to the label width and a blank (unless the
    label width is 0), the begin border, the filled pieces, the blanks
    of the unfilled pieces, the end border, a blank, the ETA text, and
    last a carriage return, with no newline after it. *)
Theorem draw_writes_line (e : env) (bar : progressbar) (s : streams) :
  wf_bar bar ->
  let screen_width := int_wrap (get_screen_width e) in
  let label_length := int_wrap (Z.of_nat (String.length (label bar))) in
  let bar_width := progressbar_bar_width screen_width label_length in
  let label_width := progressbar_label_width screen_width label_length bar_width in
  let bar_piece_count := bar_width -i BAR_BORDER_WIDTH in
  exists bar_piece_current eta,
    draw_bar_piece_current bar bar_width = Done bar_piece_current /\
    draw_eta e bar = Done eta /\
    0 <= bar_piece_current <= bar_piece_count /\
    progressbar_draw e bar s
    = Done (Build_streams (out s)
              (err s
               ++ (if label_width =? 0 then []
                   else firstn (Z.to_nat (size_wrap label_width))
                          (list_ascii_of_string (label bar)) ++ [" "%char])
               ++ [fmt_begin (format bar)]
               ++ repeat (fmt_fill (format bar)) (Z.to_nat bar_piece_current)
               ++ repeat " "%char (Z.to_nat (bar_piece_count - bar_piece_current))
               ++ [fmt_end (format bar)]
               ++ [" "%char]
               ++ ETA_FORMAT (hours eta) (minutes eta) (seconds eta)
               ++ [CR])).
Proof.
  intros Hwf screen_width label_length bar_width label_width bar_piece_count.
  destruct (filled_pieces_bounds bar screen_width label_length Hwf)
    as (cur & Hcur & Hb & Hnn & Hsz).
  fold bar_width in Hcur, Hb, Hnn, Hsz. fold bar_piece_count in Hb, Hnn, Hsz.
  destruct (draw_eta_done e bar Hwf) as (eta & Heta).
  exists cur, eta. repeat split; try assumption; try lia.
  rewrite progressbar_draw_text. cbv zeta.
  fold screen_width label_length bar_width label_width bar_piece_count.
  rewrite Hcur, Heta. cbn [bind]. unfold ret, draw_text.
  rewrite Hsz. unfold size_wrap at 2.
  pose proof (bar_width_is_int screen_width label_length) as Hw.
  fold bar_width in Hw. unfold INT_MAX in Hw.
  assert (Hcount : bar_piece_count = bar_width - 2).
  { unfold bar_piece_count, BAR_BORDER_WIDTH. apply int_sub_exact, is_int_bounds. lia. }
  rewrite (Z.mod_small cur) by lia. reflexivity.
Qed.

Lemma draw_writes_line_witness :
  let bar := Build_progressbar 10 5 0 "Loading" (Build_format "|" "=" "|") in
  wf_bar bar /\
  exists line,
    progressbar_draw (Build_env 10 (Some 40)) bar (Build_streams [] [])
    = Done (Build_streams [] line).
Proof.
  cbv zeta.
  assert (Hwf : wf_bar (Build_progressbar 10 5 0 "Loading" (Build_format "|" "=" "|")))
    by (unfold wf_bar, is_ulong, is_time, ULONG_MAX; cbn; lia).
  split; [exact Hwf | ].
  destruct (draw_writes_line (Build_env 10 (Some 40)) _ (Build_streams [] []) Hwf)
    as (cur & eta & _ & _ & _ & Hd).
  eexists. exact Hd.
Defined.

(** ** Two draws in a row *)

(** C8, as stated, fails: the text depends on the clock.  A complete
    bar drawn one second and two seconds after its start shows two
    different elapsed times. *)
Lemma draw_twice_differs :
  let bar := Build_progressbar 10 10 0 "Loading" (Build_format "|" "=" "|") in
  exists text1 text2 s1 s2,
    progressbar_draw (Build_env 1 (Some 40)) bar (Build_streams [] []) = Done s1 /\
    progressbar_draw (Build_env 2 (Some 40)) bar s1 = Done s2 /\
    err s1 = text1 /\ err s2 = text1 ++ text2 /\ text1 <> text2.
Proof.
  cbv zeta.
  exists (list_ascii_of_string "Loading |================| ETA: 0h00m01s" ++ [CR]).
  exists (list_ascii_of_string "Loading |================| ETA: 0h00m02s" ++ [CR]).
  eexists. eexists.
  split; [vm_compute; reflexivity | ].
  split; [vm_compute; reflexivity | ].
  split; [reflexivity | ].
  split; [reflexivity | ].
  cbn. discriminate.
Qed.

(** C8, amended.  Two draws of the same bar in a row, with no change
    of the bar in between, append the same text when the clock shows
    the same second and the terminal the same width at both. *)
Theorem draw_twice_same_output (e1 e2 : env) (bar : progressbar) (s : streams) :
  wf_bar bar ->
  time e1 = time e2 -> get_screen_width e1 = get_screen_width e2 ->
  exists text s1 s2,
    progressbar_draw e1 bar s = Done s1 /\
    progressbar_draw e2 bar s1 = Done s2 /\
    err s1 = err s ++ text /\
    err s2 = err s1 ++ text /\
    out s2 = out s.
Proof.
  intros Hwf Ht Hw.
  destruct (progressbar_draw_done e1 bar s Hwf) as (s1 & H1).
  pose proof H1 as H1'. rewrite progressbar_draw_appends in H1'.
  destruct (draw_output e1 bar) as [text | | ] eqn:Ho; try discriminate.
  cbn [bind] in H1'. injection H1' as <-.
  exists text. eexists. eexists.
  split; [exact H1 | ].
  split.
  - rewrite progressbar_draw_appends, <- (draw_output_env e1 e2 bar Ht Hw), Ho.
    reflexivity.
  - cbn [out err]. repeat split; reflexivity.
Qed.

Lemma draw_twice_same_output_witness :
  let bar := Build_progressbar 10 5 0 "Loading" (Build_format "|" "=" "|") in
  let e1 := Build_env 10 (Some 0) in
  let e2 := Build_env 10 None in
  wf_bar bar /\ time e1 = time e2 /\ get_screen_width e1 = get_screen_width e2 /\
  exists text s1 s2,
    progressbar_draw e1 bar (Build_streams [] []) = Done s1 /\
    progressbar_draw e2 bar s1 = Done s2 /\
    err s1 = [] ++ text /\
    err s2 = err s1 ++ text /\
    out s2 = [].
Proof.
  cbv zeta.
  assert (Hwf : wf_bar (Build_progressbar 10 5 0 "Loading" (Build_format "|" "=" "|")))
    by (unfold wf_bar, is_ulong, is_time, ULONG_MAX; cbn; lia).
  split; [exact Hwf | ].
  split; [reflexivity | ].
  split; [reflexivity | ].
  apply (draw_twice_same_output (Build_env 10 (Some 0)) (Build_env 10 None) _
           (Build_streams [] []) Hwf); reflexivity.
Defined.

(** ** Increment *)

(** C10, as stated, fails: a bar with a maximum of 0 is complete at
    any value, so it stays complete when its value wraps to 0. *)
Lemma inc_wrap_stays_complete :
  let bar := Build_progressbar 0 ULONG_MAX 0 "Loading" (Build_format "|" "=" "|") in
  exists bar' s',
    progressbar_inc (Build_env 1 (Some 40)) bar (Build_streams [] []) = Done (bar', s') /\
    value bar' = 0 /\
    draw_completed bar = true /\
    draw_completed bar' = true.
Proof.
  cbv zeta. eexists. eexists.
  split; [vm_compute; reflexivity | ].
  repeat split.
Qed.

(** C10, amended.  Increment is update with [current + 1] reduced
    modulo 2^64, without clamping: at the largest [unsigned long] the
    current value wraps to 0.  The bar, complete before, is incomplete
    at the draw of this increment when its maximum is positive, and
    still complete when its maximum is 0. *)
Theorem inc_wraps_at_ulong_max (e : env) (bar : progressbar) (s : streams) :
  wf_bar bar -> value bar = ULONG_MAX ->
  progressbar_inc e bar s = progressbar_update e bar ((value bar + 1) mod 2 ^ 64) s /\
  exists bar' s',
    progressbar_inc e bar s = Done (bar', s') /\
    value bar' = 0 /\
    max bar' = max bar /\
    draw_completed bar = true /\
    (0 < max bar -> draw_completed bar' = false) /\
    (max bar = 0 -> draw_completed bar' = true).
Proof.
  intros Hwf Hv. split; [reflexivity | ].
  pose proof Hwf as (Hm & _ & Hs). unfold is_ulong in Hm.
  unfold progressbar_inc, progressbar_update, ulong_add, ulong_wrap.
  rewrite Hv. change ((ULONG_MAX + 1) mod 2 ^ 64) with 0.
  set (bar' := Build_progressbar (max bar) 0 (start bar) (label bar) (format bar)).
  assert (Hwf' : wf_bar bar').
  { unfold wf_bar, bar'. cbn [max value start].
    split; [exact Hm | split; [unfold is_ulong, ULONG_MAX; lia | exact Hs]]. }
  destruct (progressbar_draw_done e bar' s Hwf') as (s' & Hd).
  exists bar', s'. rewrite Hd. cbn [bind ret].
  split; [reflexivity | ]. split; [reflexivity | ]. split; [reflexivity | ].
  split; [apply draw_completed_true; lia | ].
  split.
  - intros Hpos. apply draw_completed_false. cbn [max value bar']. lia.
  - intros H0. apply draw_completed_true. cbn [max value bar']. lia.
Qed.

Lemma inc_wraps_at_ulong_max_witness :
  let bar := Build_progressbar 10 ULONG_MAX 0 "Loading" (Build_format "|" "=" "|") in
  wf_bar bar /\ value bar = ULONG_MAX /\
  exists bar' s',
    progressbar_inc (Build_env 1 (Some 40)) bar (Build_streams [] []) = Done (bar', s') /\
    value bar' = 0.
Proof.
  cbv zeta.
  assert (Hwf : wf_bar (Build_progressbar 10 ULONG_MAX 0 "Loading"
                          (Build_format "|" "=" "|")))
    by (unfold wf_bar, is_ulong, is_time, ULONG_MAX; cbn; lia).
  split; [exact Hwf | ]. split; [reflexivity | ].
  destruct (inc_wraps_at_ulong_max (Build_env 1 (Some 40)) _ (Build_streams [] [])
              Hwf eq_refl) as (_ & bar' & s' & Hi & Hv & _).
  exists bar', s'. split; [exact Hi | exact Hv].
Defined.

(** ** The layout in its three cases *)

(** X1.  The label width is between 0 and the length of the label.
    On a screen of at least [L + 25] columns the label is written in
    full and the bar takes the rest, [W - L - 15] columns; on a
    narrower screen the bar has its minimal 10 columns and the label is
    cut to [W - 25] characters, to none from 25 columns down. *)
Theorem layout_cases (W L : Z) :
  0 <= W <= INT_MAX -> 0 <= L <= INT_MAX - 25 ->
  let bar_width := progressbar_bar_width W L in
  let label_width := progressbar_label_width W L bar_width in
  0 <= label_width <= L /\
  (L + 25 <= W -> bar_width = W - L - 15 /\ label_width = L) /\
  (W < L + 25 -> bar_width = 10 /\ label_width = Z.max 0 (W - 25)).
Proof.
  intros HW HL bar_width label_width. subst label_width bar_width.
  rewrite bar_width_exact by (unfold INT_MAX in *; lia).
  unfold progressbar_label_width, ETA_FORMAT_LENGTH, WHITESPACE_LENGTH.
  unfold INT_MAX in *. rewrite !progressbar_max_spec.
  destruct (Z.max_spec 10 (W - L - 13 - 2)) as [[Hc ->] | [Hc ->]].
  - int_exact. destruct (Z.gtb_spec (L + 1 + (W - L - 13 - 2) + 1 + 13) W); lia.
  - int_exact. destruct (Z.gtb_spec (L + 1 + 10 + 1 + 13) W); lia.
Qed.

Lemma layout_cases_witness :
  progressbar_bar_width 20 17 = 10 /\
  progressbar_label_width 20 17 (progressbar_bar_width 20 17) = Z.max 0 (20 - 25).
Proof.
  apply (proj2 (proj2 (layout_cases 20 17 ltac:(unfold INT_MAX; lia)
                         ltac:(unfold INT_MAX; lia)))). lia.
Defined.

(** ** Time components of any number of seconds *)

Lemma time_components_quot_rem (S : Z) :
  is_int S ->
  progressbar_calc_time_components S
  = Build_time_components (Z.quot S 3600) (Z.quot (Z.rem S 3600) 60)
      (Z.rem (Z.rem S 3600) 60).
Proof.
  intros HS. unfold is_int, INT_MIN, INT_MAX in HS.
  unfold progressbar_calc_time_components.
  pose proof (Z.quot_rem' S 3600) as Hqr.
  assert (Hrem : -3600 < Z.rem S 3600 < 3600).
  { pose proof (Z.rem_bound_abs S 3600 ltac:(lia)). lia. }
  assert (Hsgn : (0 <= S -> 0 <= Z.rem S 3600) /\ (S <= 0 -> Z.rem S 3600 <= 0)).
  { split; intros.
    - apply Z.rem_nonneg; lia.
    - apply Z.rem_nonpos; lia. }
  assert (Hq : - 2147483648 <= Z.quot S 3600 <= 2147483647).
  { destruct (Z.le_gt_cases 0 S); lia. }
  rewrite (int_div_exact S 3600) by (apply is_int_bounds; lia).
  set (h := Z.quot S 3600) in *. set (r := Z.rem S 3600) in *.
  assert (Hr : S - h * 3600 = r) by lia.
  rewrite (int_mul_exact h 3600) by (apply is_int_bounds; lia).
  rewrite (int_sub_exact S (h * 3600)) by (apply is_int_bounds; lia).
  rewrite Hr.
  pose proof (Z.quot_rem' r 60) as Hqr'.
  assert (Hrem' : -60 < Z.rem r 60 < 60).
  { pose proof (Z.rem_bound_abs r 60 ltac:(lia)). lia. }
  assert (Hsgn' : (0 <= r -> 0 <= Z.rem r 60) /\ (r <= 0 -> Z.rem r 60 <= 0)).
  { split; intros.
    - apply Z.rem_nonneg; lia.
    - apply Z.rem_nonpos; lia. }
  assert (Hq' : -60 < Z.quot r 60 < 60) by lia.
  rewrite (int_div_exact r 60) by (apply is_int_bounds; lia).
  set (m := Z.quot r 60) in *.
  rewrite (int_mul_exact m 60) by (apply is_int_bounds; lia).
  rewrite (int_sub_exact r (m * 60)) by (apply is_int_bounds; lia).
  f_equal. lia.
Qed.

(** X2.  For every [int], negative ones too (the clock may have been
    set back since the start), the components add up to the number of
    seconds, the hours are its quotient by 3600 truncated toward zero,
    minutes and seconds are strictly between -60 and 60, and no
    component of a number that is not positive is positive. *)
Theorem time_components_any_int (S : Z) :
  is_int S ->
  let c := progressbar_calc_time_components S in
  hours c * 3600 + minutes c * 60 + seconds c = S /\
  hours c = Z.quot S 3600 /\
  -60 < minutes c < 60 /\ -60 < seconds c < 60 /\
  (S <= 0 -> hours c <= 0 /\ minutes c <= 0 /\ seconds c <= 0).
Proof.
  intros HS c. subst c. rewrite (time_components_quot_rem S HS).
  cbn [hours minutes seconds].
  pose proof (Z.quot_rem' S 3600) as Hqr.
  pose proof (Z.quot_rem' (Z.rem S 3600) 60) as Hqr'.
  pose proof (Z.rem_bound_abs S 3600 ltac:(lia)) as Hrem.
  pose proof (Z.rem_bound_abs (Z.rem S 3600) 60 ltac:(lia)) as Hrem'.
  assert (Hsgn : forall a b, 0 < b ->
                 (0 <= a -> 0 <= Z.rem a b /\ 0 <= Z.quot a b) /\
                 (a <= 0 -> Z.rem a b <= 0 /\ Z.quot a b <= 0)).
  { intros a b Hb. split; intros Ha.
    - split; [apply Z.rem_nonneg; lia | apply Z.quot_pos; lia].
    - split; [apply Z.rem_nonpos; lia | ].
      rewrite <- (Z.opp_involutive a), Z.quot_opp_l by lia.
      pose proof (Z.quot_pos (- a) b ltac:(lia) ltac:(lia)). lia. }
  destruct (Hsgn S 3600 ltac:(lia)) as [Hp Hn].
  destruct (Hsgn (Z.rem S 3600) 60 ltac:(lia)) as [Hp' Hn'].
  repeat split; lia.
Qed.

Lemma time_components_any_int_witness :
  progressbar_calc_time_components (-3725) = Build_time_components (-1) (-2) (-5) /\
  hours (progressbar_calc_time_components (-3725)) = Z.quot (-3725) 3600.
Proof.
  split; [reflexivity | ].
  apply (time_components_any_int (-3725)). apply is_int_bounds. lia.
Defined.

(** ** Writing a run of characters *)

Lemma fputs_nil (file : FILE) (s : streams) : fputs [] file s = s.
Proof.
  destruct s as [so se]. destruct file; unfold fputs; cbn [out err];
    rewrite app_nil_r; reflexivity.
Qed.

Lemma fputs_app (a b : list ascii) (file : FILE) (s : streams) :
  fputs (a ++ b) file s = fputs b file (fputs a file s).
Proof. destruct file; unfold fputs; cbn [out err]; rewrite app_assoc; reflexivity. Qed.

Lemma write_char_repeat (file : FILE) (ch : ascii) (times : Z) (s : streams) :
  progressbar_write_char file ch times s
  = fputs (repeat ch (Z.to_nat (size_wrap times))) file s.
Proof.
  unfold progressbar_write_char.
  induction (Z.to_nat (size_wrap times)) as [ | n IH ].
  - cbn [Nat.iter nat_rect repeat]. symmetry. apply fputs_nil.
  - rewrite Nat.iter_succ, IH. unfold fputc. rewrite <- fputs_app, <- repeat_cons.
    reflexivity.
Qed.

(** X3.  [progressbar_write_char] writes the character [times] times
    on the stream it is given, for a count from 0 to [INT_MAX]; a
    negative [int] count, converted to [size_t], writes it
    [2^64 + times] times. *)
Theorem write_char_count (file : FILE) (ch : ascii) (times : Z) (s : streams) :
  (0 <= times <= INT_MAX ->
   progressbar_write_char file ch times s
   = fputs (repeat ch (Z.to_nat times)) file s) /\
  (INT_MIN <= times < 0 ->
   progressbar_write_char file ch times s
   = fputs (repeat ch (Z.to_nat (2 ^ 64 + times))) file s).
Proof.
  unfold INT_MIN, INT_MAX. rewrite write_char_repeat. unfold size_wrap.
  split; intros H.
  - rewrite Z.mod_small by lia. reflexivity.
  - replace (times mod 2 ^ 64) with (2 ^ 64 + times); [reflexivity | ].
    apply (Z.mod_unique_pos times (2 ^ 64) (-1)); lia.
Qed.

Lemma write_char_count_witness :
  progressbar_write_char stderr "=" 3 (Build_streams [] [])
  = fputs (repeat "="%char 3) stderr (Build_streams [] []).
Proof.
  apply (proj1 (write_char_count stderr "=" 3 (Build_streams [] []))).
  unfold INT_MAX. lia.
Defined.

(** ** The width of the ETA field *)

Lemma format_d_length (zero_pad : bool) (width : nat) (n : Z) :
  List.length (format_d zero_pad width n)
  = Nat.max width
      ((if n <? 0 then 1%nat else 0%nat)
       + List.length (list_ascii_of_string
                        (NilZero.string_of_uint (N.to_uint (Z.abs_N n))))).
Proof.
  unfold format_d. cbv zeta.
  destruct zero_pad, (n <? 0); rewrite !length_app, repeat_length; cbn [List.length]; lia.
Qed.

(** A numeral of at most one digit is below 10, one of at most two
    digits below 100. *)
Lemma uint_digits_small (d : Decimal.uint) :
  let len := List.length (list_ascii_of_string (NilZero.string_of_uint d)) in
  ((len <= 1)%nat -> (N.of_uint d < 10)%N) /\
  ((len <= 2)%nat -> (N.of_uint d < 100)%N).
Proof.
  cbv zeta.
  destruct d as [ | d | d | d | d | d | d | d | d | d | d];
    [ split; intros _; reflexivity | .. ];
    (destruct d as [ | d | d | d | d | d | d | d | d | d | d];
     [ split; intros _; reflexivity | .. ];
     (destruct d as [ | d | d | d | d | d | d | d | d | d | d];
      [ split; [ intros H; cbn in H; lia | intros _; reflexivity ] | .. ];
      (split; intros H; cbn in H; lia))).
Qed.

Lemma digits_length_ge (n : N) :
  let len := List.length (list_ascii_of_string (NilZero.string_of_uint (N.to_uint n))) in
  ((10 <= n)%N -> (2 <= len)%nat) /\ ((100 <= n)%N -> (3 <= len)%nat).
Proof.
  cbv zeta. pose proof (uint_digits_small (N.to_uint n)) as [H1 H2].
  cbv zeta in H1, H2. rewrite Unsigned.of_to in H1, H2. lia.
Qed.

Lemma digits_length_small (k : nat) :
  (k < 100)%nat ->
  List.length (list_ascii_of_string (NilZero.string_of_uint (N.to_uint (N.of_nat k))))
  = if (k <? 10)%nat then 1%nat else 2%nat.
Proof.
  intros Hk.
  do 100 (destruct k as [ | k]; [reflexivity | ]). lia.
Qed.

Lemma format_d_two (zero_pad : bool) (n : Z) :
  (2 <= List.length (format_d zero_pad 2 n))%nat /\
  (List.length (format_d zero_pad 2 n) = 2%nat <-> -10 < n < 100).
Proof.
  rewrite format_d_length. split; [lia | ].
  pose proof (digits_length_ge (Z.abs_N n)) as [H10 H100]. cbv zeta in H10, H100.
  destruct (Z.ltb_spec n 0) as [Hneg | Hpos].
  - split.
    + intros H. destruct (Z.le_gt_cases n (-10)) as [Hle | Hgt]; [ | lia ].
      assert (2 <= List.length (list_ascii_of_string
                      (NilZero.string_of_uint (N.to_uint (Z.abs_N n)))))%nat
        by (apply H10; lia).
      lia.
    + intros H.
      replace (Z.abs_N n) with (N.of_nat (Z.to_nat (- n))) by lia.
      rewrite digits_length_small by lia.
      destruct (Nat.ltb_spec (Z.to_nat (- n)) 10); lia.
  - split.
    + intros H. destruct (Z.le_gt_cases 100 n) as [Hle | Hgt]; [ | lia ].
      assert (3 <= List.length (list_ascii_of_string
                      (NilZero.string_of_uint (N.to_uint (Z.abs_N n)))))%nat
        by (apply H100; lia).
      lia.
    + intros H.
      replace (Z.abs_N n) with (N.of_nat (Z.to_nat n)) by lia.
      rewrite digits_length_small by lia.
      destruct (Nat.ltb_spec (Z.to_nat n) 10); lia.
Qed.

Lemma ETA_FORMAT_length (h m s : Z) :
  List.length (ETA_FORMAT h m s)
  = (7 + List.length (format_d false 2 h) + List.length (format_d true 2 m)
     + List.length (format_d true 2 s))%nat.
Proof.
  unfold ETA_FORMAT. rewrite !length_app. cbn [List.length list_ascii_of_string]. lia.
Qed.

(** X4.  The ETA field is never shorter than [ETA_FORMAT_LENGTH];
    for a number of seconds that is not negative it has that length
    exactly below a hundred hours, and is longer from a hundred hours
    on. *)
Theorem eta_field_width (S : Z) :
  is_int S ->
  let c := progressbar_calc_time_components S in
  let n := Z.of_nat (List.length (ETA_FORMAT (hours c) (minutes c) (seconds c))) in
  ETA_FORMAT_LENGTH <= n /\
  (0 <= S -> (n = ETA_FORMAT_LENGTH <-> S < 360000)).
Proof.
  intros HS c n. subst n c. rewrite (time_components_quot_rem S HS).
  cbn [hours minutes seconds]. unfold ETA_FORMAT_LENGTH. rewrite ETA_FORMAT_length.
  pose proof (format_d_two false (Z.quot S 3600)) as [Hh Hh'].
  pose proof (format_d_two true (Z.quot (Z.rem S 3600) 60)) as [Hm Hm'].
  pose proof (format_d_two true (Z.rem (Z.rem S 3600) 60)) as [Hs Hs'].
  split; [lia | ].
  intros Hpos.
  pose proof (Z.quot_rem' S 3600) as Hqr.
  pose proof (Z.rem_bound_pos S 3600 Hpos ltac:(lia)) as Hr.
  pose proof (Z.quot_rem' (Z.rem S 3600) 60) as Hqr'.
  pose proof (Z.rem_bound_pos (Z.rem S 3600) 60 ltac:(lia) ltac:(lia)) as Hr'.
  assert (Hm2 : List.length (format_d true 2 (Z.quot (Z.rem S 3600) 60)) = 2%nat)
    by (apply Hm'; lia).
  assert (Hs2 : List.length (format_d true 2 (Z.rem (Z.rem S 3600) 60)) = 2%nat)
    by (apply Hs'; lia).
  rewrite Hm2, Hs2. split.
  - intros H. assert (Hh2 : List.length (format_d false 2 (Z.quot S 3600)) = 2%nat) by lia.
    apply Hh' in Hh2. lia.
  - intros H. assert (Hh2 : List.length (format_d false 2 (Z.quot S 3600)) = 2%nat)
      by (apply Hh'; lia).
    lia.
Qed.

Lemma eta_field_width_witness :
  let c := progressbar_calc_time_components 360000 in
  ~ Z.of_nat (List.length (ETA_FORMAT (hours c) (minutes c) (seconds c)))
    = ETA_FORMAT_LENGTH.
Proof.
  intros c H.
  apply (proj2 (eta_field_width 360000 ltac:(apply is_int_bounds; lia))
           ltac:(lia)) in H.
  lia.
Defined.

(** ** The line of a fresh bar and of a complete bar *)

Lemma filled_none_at_zero (bar : progressbar) (bar_width : Z) :
  wf_bar bar -> value bar = 0 -> 0 < max bar -> 2 < bar_width <= INT_MAX ->
  draw_bar_piece_current bar bar_width = Done 0.
Proof.
  intros (Hm & _ & _) Hv Hmax Hw. unfold is_ulong, ULONG_MAX in Hm. unfold INT_MAX in Hw.
  unfold draw_bar_piece_current, BAR_BORDER_WIDTH. cbv zeta.
  rewrite int_sub_exact by (apply is_int_bounds; lia).
  rewrite (proj2 (draw_completed_false bar)) by lia.
  unfold ddiv. rewrite double_of_Z_nonzero by lia. rewrite Hv.
  rewrite (double_of_Z_pos (max bar)), (double_of_Z_pos (bar_width - 2)) by lia.
  reflexivity.
Qed.

Lemma filled_all_when_complete (bar : progressbar) (bar_width : Z) :
  max bar <= value bar -> 2 < bar_width <= INT_MAX ->
  draw_bar_piece_current bar bar_width = Done (bar_width - 2).
Proof.
  intros Hc Hw. unfold INT_MAX in Hw.
  unfold draw_bar_piece_current, BAR_BORDER_WIDTH. cbv zeta.
  rewrite int_sub_exact by (apply is_int_bounds; lia).
  rewrite (proj2 (draw_completed_true bar)) by lia. cbn [bind ret].
  rewrite double_to_int_of_Z by (apply is_int_bounds; lia). reflexivity.
Qed.

(** X5.  A bar with no step done and a positive maximum is drawn with
    every piece blank and a remaining time of zero. *)
Theorem fresh_bar_line (e : env) (bar : progressbar) (s : streams) :
  wf_bar bar -> value bar = 0 -> 0 < max bar ->
  let screen_width := int_wrap (get_screen_width e) in
  let label_length := int_wrap (Z.of_nat (String.length (label bar))) in
  let bar_width := progressbar_bar_width screen_width label_length in
  let label_width := progressbar_label_width screen_width label_length bar_width in
  progressbar_draw e bar s
  = Done (Build_streams (out s)
            (err s
             ++ (if label_width =? 0 then []
                 else firstn (Z.to_nat (size_wrap label_width))
                        (list_ascii_of_string (label bar)) ++ [" "%char])
             ++ [fmt_begin (format bar)]
             ++ repeat " "%char (Z.to_nat (bar_width - 2))
             ++ [fmt_end (format bar)]
             ++ list_ascii_of_string " ETA: 0h00m00s"
             ++ [CR])).
Proof.
  intros Hwf Hv Hmax screen_width label_length bar_width label_width.
  pose proof (bar_width_is_int screen_width label_length) as Hw. fold bar_width in Hw.
  rewrite progressbar_draw_text. cbv zeta.
  fold screen_width label_length bar_width label_width.
  rewrite (filled_none_at_zero bar bar_width Hwf Hv Hmax) by lia.
  unfold draw_eta. rewrite (proj2 (draw_completed_false bar)) by lia.
  rewrite remaining_seconds_done by assumption.
  destruct (Z.gtb_spec (value bar) 0) as [Hpos | _]; [lia | ].
  cbn [andb bind ret]. unfold draw_text.
  change (progressbar_calc_time_components 0) with (Build_time_components 0 0 0).
  cbn [hours minutes seconds].
  unfold INT_MAX in Hw.
  assert (Hcount : bar_width -i BAR_BORDER_WIDTH = bar_width - 2).
  { unfold BAR_BORDER_WIDTH. apply int_sub_exact, is_int_bounds. lia. }
  rewrite Hcount.
  rewrite (int_sub_exact (bar_width - 2) 0) by (apply is_int_bounds; lia).
  rewrite Z.sub_0_r. unfold size_wrap at 2 3.
  rewrite (Z.mod_small 0), (Z.mod_small (bar_width - 2)) by lia.
  cbn [Z.to_nat repeat app]. reflexivity.
Qed.

Lemma fresh_bar_line_witness :
  progressbar_draw (Build_env 77 (Some 40))
    (Build_progressbar 100 0 0 "X" (Build_format "|" "=" "|")) (Build_streams [] [])
  = Done (Build_streams []
            (list_ascii_of_string "X |                      | ETA: 0h00m00s" ++ [CR])).
Proof.
  assert (Hwf : wf_bar (Build_progressbar 100 0 0 "X" (Build_format "|" "=" "|")))
    by (unfold wf_bar, is_ulong, is_time, ULONG_MAX; cbn; lia).
  exact (fresh_bar_line (Build_env 77 (Some 40)) _ (Build_streams [] []) Hwf eq_refl
           ltac:(cbn; lia)).
Defined.

(** X6.  A bar whose current value has reached the maximum is drawn
    with every piece filled, whatever its state is otherwise (a
    maximum of 0, a clock set back), and its time field shows the time
    elapsed since the start instead of an estimate. *)
Theorem complete_bar_line (e : env) (bar : progressbar) (s : streams) :
  max bar <= value bar ->
  let screen_width := int_wrap (get_screen_width e) in
  let label_length := int_wrap (Z.of_nat (String.length (label bar))) in
  let bar_width := progressbar_bar_width screen_width label_length in
  let label_width := progressbar_label_width screen_width label_length bar_width in
  let eta := progressbar_calc_time_components
               (double_to_int (difftime (time e) (start bar))) in
  progressbar_draw e bar s
  = Done (Build_streams (out s)
            (err s
             ++ (if label_width =? 0 then []
                 else firstn (Z.to_nat (size_wrap label_width))
                        (list_ascii_of_string (label bar)) ++ [" "%char])
             ++ [fmt_begin (format bar)]
             ++ repeat (fmt_fill (format bar)) (Z.to_nat (bar_width - 2))
             ++ [fmt_end (format bar)]
             ++ [" "%char]
             ++ ETA_FORMAT (hours eta) (minutes eta) (seconds eta)
             ++ [CR])).
Proof.
  intros Hc screen_width label_length bar_width label_width eta.
  pose proof (bar_width_is_int screen_width label_length) as Hw. fold bar_width in Hw.
  rewrite progressbar_draw_text. cbv zeta.
  fold screen_width label_length bar_width label_width.
  rewrite (filled_all_when_complete bar bar_width Hc) by lia.
  unfold draw_eta. rewrite (proj2 (draw_completed_true bar)) by lia.
  cbn [bind ret]. fold eta. unfold draw_text.
  unfold INT_MAX in Hw.
  assert (Hcount : bar_width -i BAR_BORDER_WIDTH = bar_width - 2).
  { unfold BAR_BORDER_WIDTH. apply int_sub_exact, is_int_bounds. lia. }
  rewrite Hcount.
  rewrite (int_sub_exact (bar_width - 2) (bar_width - 2)) by (apply is_int_bounds; lia).
  rewrite Z.sub_diag. unfold size_wrap at 2 3.
  rewrite (Z.mod_small 0), (Z.mod_small (bar_width - 2)) by lia.
  cbn [Z.to_nat repeat app]. reflexivity.
Qed.

Lemma complete_bar_line_witness :
  progressbar_draw (Build_env 3725 (Some 40))
    (Build_progressbar 10 12 0 "X" (Build_format "<" "-" ">")) (Build_streams [] [])
  = Done (Build_streams []
            (list_ascii_of_string "X <----------------------> ETA: 1h02m05s" ++ [CR])).
Proof.
  exact (complete_bar_line (Build_env 3725 (Some 40))
           (Build_progressbar 10 12 0 "X" (Build_format "<" "-" ">"))
           (Build_streams [] []) ltac:(cbn; lia)).
Defined.

(** ** The length of the line *)

Lemma get_screen_width_range (e : env) :
  wf_env e -> 1 <= get_screen_width e <= 65535.
Proof.
  unfold wf_env, get_screen_width, DEFAULT_SCREEN_WIDTH.
  destruct (ioctl_ws_col e) as [c | ]; [ | lia ].
  destruct (Z.eqb_spec c 0); lia.
Qed.

Lemma list_ascii_length (x : string) :
  List.length (list_ascii_of_string x) = String.length x.
Proof. induction x as [ | c x IH ]; cbn; [reflexivity | rewrite IH; reflexivity]. Qed.

(** X7.  The line of a draw, its carriage return apart, takes the
    whole width of a screen of more than 25 columns when there is a
    label, one column less when there is none (the column that the
    missing blank leaves is not used), and 24 columns on a narrower
    screen, as long as the ETA field has its 13 characters; every
    character more in that field makes the line longer. *)
Theorem draw_line_length (e : env) (bar : progressbar) :
  wf_bar bar -> wf_env e ->
  Z.of_nat (String.length (label bar)) <= INT_MAX - 25 ->
  let W := get_screen_width e in
  let L := Z.of_nat (String.length (label bar)) in
  exists text eta,
    draw_output e bar = Done text /\
    draw_eta e bar = Done eta /\
    Z.of_nat (List.length text) - 1
    = (if (L =? 0) || (W <=? 25) then Z.max 24 (W - 1) else W)
      + (Z.of_nat (List.length (ETA_FORMAT (hours eta) (minutes eta) (seconds eta)))
         - ETA_FORMAT_LENGTH).
Proof.
  intros Hwf He HL W L.
  pose proof (get_screen_width_range e He) as HW. fold W in HW.
  unfold draw_output. rewrite progressbar_draw_text. cbv zeta.
  rewrite (int_wrap_id (get_screen_width e)) by (apply is_int_bounds; lia).
  rewrite (int_wrap_id (Z.of_nat (String.length (label bar))))
    by (apply is_int_bounds; unfold INT_MAX in HL; lia).
  fold W L.
  destruct (filled_pieces_bounds bar W L Hwf) as (cur & Hcur & Hb & Hrest & Hrest').
  destruct (draw_eta_done e bar Hwf) as (eta & Heta).
  rewrite Hcur, Heta. cbn [bind ret err app].
  exists (draw_text bar (progressbar_label_width W L (progressbar_bar_width W L))
            (progressbar_bar_width W L -i BAR_BORDER_WIDTH) cur eta), eta.
  split; [reflexivity | ]. split; [reflexivity | ].
  unfold draw_text. rewrite !length_app, !repeat_length. cbn [List.length].
  rewrite Hrest'.
  pose proof (bar_width_is_int W L) as Hw.
  assert (Hcount : progressbar_bar_width W L -i BAR_BORDER_WIDTH
                   = progressbar_bar_width W L - 2).
  { unfold BAR_BORDER_WIDTH. apply int_sub_exact, is_int_bounds.
    unfold INT_MAX in Hw. lia. }
  rewrite Hcount in *.
  unfold size_wrap. rewrite (Z.mod_small cur) by (unfold INT_MAX in Hw; lia).
  assert (Hlay :
    0 <= progressbar_label_width W L (progressbar_bar_width W L) <= L /\
    (L + 25 <= W -> progressbar_bar_width W L = W - L - 15 /\
                    progressbar_label_width W L (progressbar_bar_width W L) = L) /\
    (W < L + 25 -> progressbar_bar_width W L = 10 /\
                   progressbar_label_width W L (progressbar_bar_width W L)
                   = Z.max 0 (W - 25))).
  { rewrite bar_width_exact by (unfold INT_MAX in *; lia).
    unfold progressbar_label_width, ETA_FORMAT_LENGTH, WHITESPACE_LENGTH.
    unfold INT_MAX in *. rewrite !progressbar_max_spec.
    unfold L in *.
    destruct (Z.max_spec 10 (W - Z.of_nat (String.length (label bar)) - 13 - 2))
      as [[Hc ->] | [Hc ->]].
    - int_exact.
      destruct (Z.gtb_spec (Z.of_nat (String.length (label bar)) + 1
                            + (W - Z.of_nat (String.length (label bar)) - 13 - 2)
                            + 1 + 13) W); lia.
    - int_exact.
      destruct (Z.gtb_spec (Z.of_nat (String.length (label bar)) + 1 + 10 + 1 + 13) W);
        lia. }
  destruct Hlay as (Hlw & Hwide & Hnarrow).
  set (lw := progressbar_label_width W L (progressbar_bar_width W L)) in *.
  set (bw := progressbar_bar_width W L) in *.
  set (n := List.length (ETA_FORMAT (hours eta) (minutes eta) (seconds eta))).
  unfold ETA_FORMAT_LENGTH.
  destruct (Z.eqb_spec lw 0) as [Hz | Hnz].
  - cbn [List.length].
    destruct (Z.eqb_spec L 0) as [HL0 | HL0]; cbn [orb].
    + destruct (Z.le_gt_cases (L + 25) W) as [Hc | Hc].
      * destruct (Hwide Hc) as [Hbw _]. lia.
      * destruct (Hnarrow Hc) as [Hbw _]. lia.
    + destruct (Z.le_gt_cases (L + 25) W) as [Hc | Hc].
      * destruct (Hwide Hc) as [_ Hl]. lia.
      * destruct (Hnarrow Hc) as [Hbw Hl].
        destruct (Z.leb_spec W 25); lia.
  - rewrite length_app, length_firstn, list_ascii_length. cbn [List.length].
    rewrite (Z.mod_small lw) by (unfold INT_MAX in HL; lia).
    destruct (Z.eqb_spec L 0) as [HL0 | HL0]; [lia | ]. cbn [orb].
    destruct (Z.le_gt_cases (L + 25) W) as [Hc | Hc].
    + destruct (Hwide Hc) as [Hbw Hl].
      destruct (Z.leb_spec W 25); lia.
    + destruct (Hnarrow Hc) as [Hbw Hl].
      destruct (Z.leb_spec W 25); lia.
Qed.

Lemma draw_line_length_witness :
  exists text eta,
    draw_output (Build_env 5 (Some 40))
      (Build_progressbar 10 5 0 "" (Build_format "|" "=" "|")) = Done text /\
    draw_eta (Build_env 5 (Some 40))
      (Build_progressbar 10 5 0 "" (Build_format "|" "=" "|")) = Done eta /\
    Z.of_nat (List.length text) - 1
    = 39 + (Z.of_nat (List.length (ETA_FORMAT (hours eta) (minutes eta) (seconds eta)))
            - ETA_FORMAT_LENGTH).
Proof.
  apply (draw_line_length (Build_env 5 (Some 40))
           (Build_progressbar 10 5 0 "" (Build_format "|" "=" "|"))).
  - unfold wf_bar, is_ulong, is_time, ULONG_MAX. cbn. lia.
  - unfold wf_env. cbn. lia.
  - unfold INT_MAX. cbn. lia.
Defined.

(** ** One line, ended by a carriage return *)

Lemma string_of_uint_chars (d : Decimal.uint) (c : ascii) :
  In c (list_ascii_of_string (NilEmpty.string_of_uint d)) -> c <> CR /\ c <> LF.
Proof.
  induction d as [ | d IH | d IH | d IH | d IH | d IH | d IH | d IH | d IH | d IH | d IH];
    cbn [NilEmpty.string_of_uint list_ascii_of_string In];
    [ tauto | .. ];
    (intros [<- | H]; [ split; discriminate | exact (IH H) ]).
Qed.

Lemma format_d_chars (zero_pad : bool) (width : nat) (n : Z) (c : ascii) :
  In c (format_d zero_pad width n) -> c <> CR /\ c <> LF.
Proof.
  assert (Hd : In c (list_ascii_of_string
                       (NilZero.string_of_uint (N.to_uint (Z.abs_N n)))) ->
               c <> CR /\ c <> LF).
  { unfold NilZero.string_of_uint. destruct (N.to_uint (Z.abs_N n)) eqn:Hn;
      try (rewrite <- Hn; apply string_of_uint_chars).
    cbn. intros [<- | []]. split; discriminate. }
  assert (Hs : In c (if n <? 0 then ["-"%char] else []) -> c <> CR /\ c <> LF).
  { destruct (n <? 0); cbn; [intros [<- | []]; split; discriminate | tauto]. }
  assert (Hp : forall (a : ascii) k, a <> CR /\ a <> LF -> In c (repeat a k) ->
                                      c <> CR /\ c <> LF).
  { intros a k Ha H. apply repeat_spec in H. subst c. exact Ha. }
  unfold format_d. cbv zeta. destruct zero_pad; intros H;
    repeat (apply in_app_or in H; destruct H as [H | H]); auto.
  - apply (Hp "0"%char _ ltac:(split; discriminate) H).
  - apply (Hp " "%char _ ltac:(split; discriminate) H).
Qed.

Lemma ETA_FORMAT_chars (h m s : Z) (c : ascii) :
  In c (ETA_FORMAT h m s) -> c <> CR /\ c <> LF.
Proof.
  unfold ETA_FORMAT. intros H.
  rewrite !in_app_iff in H. cbn [list_ascii_of_string In] in H.
  decompose [or] H; subst; try contradiction; try (split; discriminate);
    eapply format_d_chars; eassumption.
Qed.

Lemma draw_text_chars (bar : progressbar)
  (label_width bar_piece_count bar_piece_current : Z)
  (eta : progressbar_time_components) :
  (forall c, In c (list_ascii_of_string (label bar)
                   ++ [fmt_begin (format bar); fmt_fill (format bar);
                       fmt_end (format bar)]) ->
             c <> CR /\ c <> LF) ->
  exists line,
    draw_text bar label_width bar_piece_count bar_piece_current eta = line ++ [CR] /\
    forall x, In x line -> x <> CR /\ x <> LF.
Proof.
  intros Hchars. unfold draw_text. eexists. split.
  { rewrite !app_assoc. reflexivity. }
  intros x H.
  assert (Hb : x = fmt_begin (format bar) -> x <> CR /\ x <> LF).
  { intros ->. apply Hchars, in_or_app. right. cbn. tauto. }
  assert (Hf : x = fmt_fill (format bar) -> x <> CR /\ x <> LF).
  { intros ->. apply Hchars, in_or_app. right. cbn. tauto. }
  assert (Hd : x = fmt_end (format bar) -> x <> CR /\ x <> LF).
  { intros ->. apply Hchars, in_or_app. right. cbn. tauto. }
  assert (Hsp : x = " "%char -> x <> CR /\ x <> LF)
    by (intros ->; split; discriminate).
  assert (Hl : forall k, In x (firstn k (list_ascii_of_string (label bar))) ->
                         x <> CR /\ x <> LF).
  { intros k Hk. apply Hchars, in_or_app. left.
    rewrite <- (firstn_skipn k (list_ascii_of_string (label bar))).
    apply in_or_app. left. exact Hk. }
  rewrite !in_app_iff in H.
  destruct H as [[[[[[H | H] | H] | H] | H] | H] | H].
  - destruct (_ =? 0); [destruct H | ].
    apply in_app_or in H. destruct H as [H | H]; [exact (Hl _ H) | ].
    destruct H as [<- | []]. auto.
  - destruct H as [<- | []]. auto.
  - apply repeat_spec in H. auto.
  - apply repeat_spec in H. auto.
  - destruct H as [<- | []]. auto.
  - destruct H as [<- | []]. auto.
  - apply ETA_FORMAT_chars in H. exact H.
Qed.

(** X8.  A draw writes one line: when neither the label nor the three
    characters of the format hold a carriage return or a newline, the
    text of a draw has one carriage return, its last character, and no
    newline. *)
Theorem draw_single_line (e : env) (bar : progressbar) :
  wf_bar bar ->
  (forall c, In c (list_ascii_of_string (label bar)
                   ++ [fmt_begin (format bar); fmt_fill (format bar);
                       fmt_end (format bar)]) ->
             c <> CR /\ c <> LF) ->
  exists line,
    draw_output e bar = Done (line ++ [CR]) /\ ~ In CR line /\ ~ In LF line.
Proof.
  intros Hwf Hchars.
  unfold draw_output. rewrite progressbar_draw_text. cbv zeta.
  match goal with
  | |- context [draw_bar_piece_current bar ?w] =>
      destruct (draw_bar_piece_current_done bar w Hwf) as (cur & ->)
  end.
  destruct (draw_eta_done e bar Hwf) as (eta & ->).
  cbn [bind ret err app].
  match goal with
  | |- context [draw_text bar ?lw ?n cur eta] =>
      destruct (draw_text_chars bar lw n cur eta Hchars) as (line & -> & Hall)
  end.
  exists line. split; [reflexivity | ].
  split; intros H; apply Hall in H; destruct H as [H1 H2]; congruence.
Qed.

Lemma draw_single_line_witness :
  exists line,
    draw_output (Build_env 5 (Some 40))
      (Build_progressbar 10 5 0 "X" (Build_format "|" "=" "|")) = Done (line ++ [CR]) /\
    ~ In CR line /\ ~ In LF line.
Proof.
  apply (draw_single_line (Build_env 5 (Some 40))
           (Build_progressbar 10 5 0 "X" (Build_format "|" "=" "|"))).
  - unfold wf_bar, is_ulong, is_time, ULONG_MAX. cbn. lia.
  - cbn. intros c H.
    repeat (destruct H as [<- | H]; [split; discriminate | ]). destruct H.
Defined.

(** ** The bar never moves back *)

Lemma lex_le_refl (x : Z * Z) : lex_le x x.
Proof. right. split; [reflexivity | lia]. Qed.

Lemma renorm_pair_lex_lt (m1 m2 e1 e2 : Z) :
  m1 <= 2 ^ 53 -> 2 ^ 52 <= m2 -> e1 < e2 ->
  lex_le (renorm_pair m1 e1) (renorm_pair m2 e2).
Proof.
  intros H1 H2 He. unfold lex_le, renorm_pair.
  destruct (Z.eqb_spec m1 (2 ^ 53)), (Z.eqb_spec m2 (2 ^ 53)); cbn [fst snd]; lia.
Qed.

(** One step of shifting does not round an even mantissa up. *)
Lemma round_mantissa_even (mx : Z) (lx : location) :
  Z.odd mx = false -> round_mantissa mx lx 1 = mx / 2 ^ 1.
Proof.
  intros Hodd. unfold round_mantissa. cbv zeta. rewrite shr_result_m by lia.
  unfold shr_result, rne_up. change (0 <? 1) with true. cbn [shr_r].
  change (1 - 1) with 0. rewrite Z.bit0_odd, Hodd. cbn [andb Z.b2z]. lia.
Qed.

Lemma div_pair_mono (x x' y : Z * Z) :
  normal_pair x -> normal_pair x' -> normal_pair y -> lex_le x x' ->
  lex_le (div_pair x y) (div_pair x' y).
Proof.
  intros Hx Hx' Hy Hle. unfold normal_pair in Hx, Hx', Hy.
  pose proof (div_quotient_bounds (fst x) (fst y) Hx Hy) as Hq.
  pose proof (div_quotient_bounds (fst x') (fst y) Hx' Hy) as Hq'.
  assert (Hqy : fst x * 2 ^ 53 / fst y * fst y <= fst x * 2 ^ 53).
  { rewrite Z.mul_comm. apply Z.mul_div_le. lia. }
  assert (Hqy' : fst x' * 2 ^ 53 / fst y * fst y <= fst x' * 2 ^ 53).
  { rewrite Z.mul_comm. apply Z.mul_div_le. lia. }
  assert (Hqs : fst x * 2 ^ 53 < (fst x * 2 ^ 53 / fst y + 1) * fst y).
  { pose proof (Z.mul_succ_div_gt (fst x * 2 ^ 53) (fst y) ltac:(lia)). lia. }
  assert (Hqs' : fst x' * 2 ^ 53 < (fst x' * 2 ^ 53 / fst y + 1) * fst y).
  { pose proof (Z.mul_succ_div_gt (fst x' * 2 ^ 53) (fst y) ltac:(lia)). lia. }
  unfold div_pair. cbv zeta.
  set (q := fst x * 2 ^ 53 / fst y) in *.
  set (q' := fst x' * 2 ^ 53 / fst y) in *.
  set (l := new_location _ ((fst x * 2 ^ 53) mod fst y)).
  set (l' := new_location _ ((fst x' * 2 ^ 53) mod fst y)).
  assert (Hk : q < 2 ^ 53 <-> fst x < fst y) by (split; intros; nia).
  assert (Hk' : q' < 2 ^ 53 <-> fst x' < fst y) by (split; intros; nia).
  assert (R0 : forall z lz, 2 ^ 52 <= z < 2 ^ 53 ->
               z <= round_mantissa z lz 0 <= z + 1).
  { intros z lz Hz.
    destruct (round_mantissa_bounds z lz 0) as [Hr _]; [lia | rewrite !Z.add_0_r; lia | ].
    rewrite Z.pow_0_r, Z.div_1_r in Hr. exact Hr. }
  assert (R1 : forall z lz, 2 ^ 53 <= z < 2 ^ 54 ->
               z / 2 ^ 1 <= round_mantissa z lz 1 <= z / 2 ^ 1 + 1 /\
               2 ^ 52 <= z / 2 ^ 1 < 2 ^ 53).
  { intros z lz Hz. apply round_mantissa_bounds;
      [lia | change (52 + 1) with 53; change (53 + 1) with 54; lia]. }
  destruct Hle as [He | [He Hm]].
  - (* the exponent of x is smaller *)
    destruct (Z.ltb_spec q (2 ^ 53)) as [Hlt | Hge];
      destruct (Z.ltb_spec q' (2 ^ 53)) as [Hlt' | Hge'].
    + pose proof (R0 q l ltac:(lia)). pose proof (R0 q' l' ltac:(lia)).
      apply renorm_pair_lex_lt; lia.
    + pose proof (R0 q l ltac:(lia)). destruct (R1 q' l' ltac:(lia)).
      apply renorm_pair_lex_lt; lia.
    + destruct (R1 q l ltac:(lia)) as [Hr Hb]. pose proof (R0 q' l' ltac:(lia)) as Hr'.
      destruct (Z.eq_dec (snd x + 1) (snd x')) as [He1 | He1];
        [ | apply renorm_pair_lex_lt; lia ].
      replace (snd x' - snd y - 53 + 0) with (snd x - snd y - 53 + 1) by lia.
      apply renorm_pair_mono; [lia | | lia].
      (* same exponent: q / 2 against q' *)
      assert (Hhalf : q / 2 ^ 1 <= q').
      { apply Z.div_le_upper_bound; [lia | ]. change (2 ^ 1) with 2.
        assert (fst x < 2 * fst x') by lia.
        assert (q * fst y < (2 * q' + 2) * fst y) by nia.
        nia. }
      destruct (Z.eq_dec (q / 2 ^ 1) q') as [Heq | Hne]; [ | lia ].
      assert (Heven : Z.odd q = false).
      { destruct (Z.odd q) eqn:Ho; [exfalso | reflexivity].
        pose proof (Z.div_mod q 2 ltac:(lia)) as Hdm.
        rewrite Zmod_odd, Ho in Hdm. change (2 ^ 1) with 2 in Heq.
        assert (Hq2 : q = 2 * q' + 1) by lia.
        assert (fst x + 1 <= 2 * fst x') by lia.
        assert ((2 * q' + 1) * fst y <= fst x * 2 ^ 53) by (rewrite <- Hq2; lia).
        assert (2 * (fst x' * 2 ^ 53) < (2 * q' + 2) * fst y) by lia.
        assert ((fst x + 1) * 2 ^ 53 <= 2 * fst x' * 2 ^ 53) by nia.
        assert (2 ^ 53 < fst y) by nia. lia. }
      rewrite round_mantissa_even by assumption. lia.
    + destruct (R1 q l ltac:(lia)). destruct (R1 q' l' ltac:(lia)).
      apply renorm_pair_lex_lt; lia.
  - (* the same exponent *)
    destruct (Z.eq_dec (fst x) (fst x')) as [Hxx | Hxx].
    { unfold l, l', q, q'. rewrite Hxx, He. apply lex_le_refl. }
    assert (Hq1 : q + 1 <= q').
    { assert ((q + 1) * fst y <= fst x' * 2 ^ 53) by nia.
      unfold q'. apply Z.div_le_lower_bound; lia. }
    rewrite <- He.
    destruct (Z.ltb_spec q (2 ^ 53)) as [Hlt | Hge];
      destruct (Z.ltb_spec q' (2 ^ 53)) as [Hlt' | Hge'].
    + pose proof (R0 q l ltac:(lia)). pose proof (R0 q' l' ltac:(lia)).
      apply renorm_pair_mono; lia.
    + pose proof (R0 q l ltac:(lia)). destruct (R1 q' l' ltac:(lia)).
      apply renorm_pair_lex_lt; lia.
    + lia.
    + destruct (R1 q l ltac:(lia)) as [Hr Hb]. destruct (R1 q' l' ltac:(lia)) as [Hr' Hb'].
      apply renorm_pair_mono; [lia | | lia].
      assert (Hhalf : q / 2 ^ 1 <= q' / 2 ^ 1) by (apply Z.div_le_mono; lia).
      destruct (Z.eq_dec (q / 2 ^ 1) (q' / 2 ^ 1)) as [Heq | Hne]; [ | lia ].
      assert (Heven : Z.odd q = false).
      { destruct (Z.odd q) eqn:Ho; [exfalso | reflexivity].
        pose proof (Z.div_mod q 2 ltac:(lia)) as Hdm.
        pose proof (Z.div_mod q' 2 ltac:(lia)) as Hdm'.
        pose proof (Z.mod_pos_bound q' 2 ltac:(lia)).
        rewrite Zmod_odd, Ho in Hdm. change (2 ^ 1) with 2 in Heq. lia. }
      rewrite round_mantissa_even by assumption. lia.
Qed.

Lemma mul_pair_mono (x q q' : Z * Z) :
  normal_pair x -> normal_pair q -> normal_pair q' -> lex_le q q' ->
  lex_le (mul_pair x q) (mul_pair x q').
Proof.
  intros Hx Hq Hq' Hle. unfold normal_pair in Hx, Hq, Hq'.
  pose proof (mul_product_bounds (fst x) (fst q) Hx Hq) as Hp.
  pose proof (mul_product_bounds (fst x) (fst q') Hx Hq') as Hp'.
  unfold mul_pair. cbv zeta.
  set (P := fst x * fst q) in *. set (P' := fst x * fst q') in *.
  assert (R52 : forall z, 2 ^ 104 <= z < 2 ^ 105 ->
                z / 2 ^ 52 <= round_mantissa z loc_Exact 52 <= z / 2 ^ 52 + 1 /\
                2 ^ 52 <= z / 2 ^ 52 < 2 ^ 53).
  { intros z Hz. apply round_mantissa_bounds;
      [lia | change (52 + 52) with 104; change (53 + 52) with 105; lia]. }
  assert (R53 : forall z, 2 ^ 105 <= z < 2 ^ 106 ->
                z / 2 ^ 53 <= round_mantissa z loc_Exact 53 <= z / 2 ^ 53 + 1 /\
                2 ^ 52 <= z / 2 ^ 53 < 2 ^ 53).
  { intros z Hz. apply round_mantissa_bounds;
      [lia | change (52 + 53) with 105; change (53 + 53) with 106; lia]. }
  destruct Hle as [He | [He Hm]].
  - destruct (Z.ltb_spec P (2 ^ 105)) as [Hlt | Hge];
      destruct (Z.ltb_spec P' (2 ^ 105)) as [Hlt' | Hge'].
    + destruct (R52 P ltac:(lia)). destruct (R52 P' ltac:(lia)).
      apply renorm_pair_lex_lt; lia.
    + destruct (R52 P ltac:(lia)). destruct (R53 P' ltac:(lia)).
      apply renorm_pair_lex_lt; lia.
    + destruct (R53 P ltac:(lia)) as [Hr Hb]. destruct (R52 P' ltac:(lia)) as [Hr' Hb'].
      destruct (Z.eq_dec (snd q + 1) (snd q')) as [He1 | He1];
        [ | apply renorm_pair_lex_lt; lia ].
      replace (snd x + snd q' + 52) with (snd x + snd q + 53) by lia.
      apply renorm_pair_mono; [lia | | lia].
      assert (H1 : P / 2 ^ 53 < fst x) by (apply Z.div_lt_upper_bound; unfold P; nia).
      assert (H2 : fst x <= P' / 2 ^ 52) by (apply Z.div_le_lower_bound; unfold P'; nia).
      lia.
    + destruct (R53 P ltac:(lia)). destruct (R53 P' ltac:(lia)).
      apply renorm_pair_lex_lt; lia.
  - assert (HPP : P <= P') by (unfold P, P'; nia).
    rewrite <- He.
    destruct (Z.ltb_spec P (2 ^ 105)) as [Hlt | Hge];
      destruct (Z.ltb_spec P' (2 ^ 105)) as [Hlt' | Hge'].
    + destruct (R52 P ltac:(lia)). destruct (R52 P' ltac:(lia)).
      apply renorm_pair_mono; [lia | | lia].
      apply round_mantissa_exact_mono; lia.
    + destruct (R52 P ltac:(lia)). destruct (R53 P' ltac:(lia)).
      apply renorm_pair_lex_lt; lia.
    + lia.
    + destruct (R53 P ltac:(lia)). destruct (R53 P' ltac:(lia)).
      apply renorm_pair_mono; [lia | | lia].
      apply round_mantissa_exact_mono; lia.
Qed.

Lemma trunc_mono (p p' : Z * Z) :
  normal_pair p -> normal_pair p' -> snd p' <= 0 -> lex_le p p' ->
  Z.shiftl (fst p) (snd p) <= Z.shiftl (fst p') (snd p').
Proof.
  intros Hp Hp' Hs Hle. unfold normal_pair in Hp, Hp'.
  destruct Hle as [He | [He Hm]].
  - rewrite !Z.shiftl_div_pow2 by lia.
    set (a := - snd p) in *. set (a' := - snd p') in *.
    assert (H0 : 0 < 2 ^ a') by (apply Z.pow_pos_nonneg; lia).
    apply Z.le_trans with (fst p / 2 ^ (a' + 1)).
    + apply Z.div_le_compat_l; [lia | ].
      split; [apply Z.pow_pos_nonneg; lia | apply Z.pow_le_mono_r; lia].
    + rewrite Z.pow_add_r, Z.mul_comm, <- Z.div_div by lia.
      apply Z.div_le_mono; [assumption | ].
      change (2 ^ 1) with 2. apply Z.div_le_upper_bound; lia.
  - rewrite He, !Z.shiftl_div_pow2 by lia.
    apply Z.div_le_mono; [apply Z.pow_pos_nonneg; lia | lia].
Qed.

Lemma scaled_ratio_mono (n v1 v2 m : Z) :
  0 < n <= INT_MAX -> 0 < v1 <= v2 -> v2 < m -> m < 2 ^ 64 ->
  double_to_int (dmul (double_of_Z n) (SFdiv 53 1024 (double_of_Z v1) (double_of_Z m)))
  <= double_to_int
       (dmul (double_of_Z n) (SFdiv 53 1024 (double_of_Z v2) (double_of_Z m))).
Proof.
  intros Hn Hv Hv2 Hm.
  destruct (scaled_ratio_value n v1 m Hn ltac:(lia) Hm)
    as (Hq1 & Hp1 & Hnq1 & Hnp1 & _ & Hc1 & _).
  destruct (scaled_ratio_value n v2 m Hn ltac:(lia) Hm)
    as (Hq2 & Hp2 & Hnq2 & Hnp2 & Hle2 & Hc2 & _).
  rewrite Hq1, Hp1, Hc1, Hq2, Hp2, Hc2.
  unfold INT_MAX in Hn.
  destruct (conv_pair_cases m) as [Hnm _]; [lia | ].
  destruct (conv_pair_cases n) as [Hnn _]; [lia | ].
  destruct (conv_pair_cases v1) as [Hnv1 _]; [lia | ].
  destruct (conv_pair_cases v2) as [Hnv2 _]; [lia | ].
  apply trunc_mono; try assumption.
  - assert (Hsn : snd (conv_pair n) <= 0).
    { rewrite conv_pair_small by lia. cbn [snd].
      pose proof (Zdigits2_le n 53 ltac:(lia)). lia. }
    unfold lex_le in Hle2. lia.
  - apply mul_pair_mono; try assumption.
    apply div_pair_mono; try assumption.
    apply conv_pair_mono. lia.
Qed.

(** X9.  The filled part of the bar never shrinks when the current
    value grows: of two bars with the same maximum, the one with the
    larger current value has at least as many filled pieces. *)
Theorem filled_count_monotone (bar1 bar2 : progressbar) (bar_width : Z) :
  wf_bar bar1 -> wf_bar bar2 -> max bar1 = max bar2 ->
  value bar1 <= value bar2 -> 2 < bar_width <= INT_MAX ->
  exists c1 c2,
    draw_bar_piece_current bar1 bar_width = Done c1 /\
    draw_bar_piece_current bar2 bar_width = Done c2 /\
    c1 <= c2.
Proof.
  intros Hwf1 Hwf2 Hmax Hval Hw.
  destruct (filled_count_bounds bar1 bar_width Hwf1 Hw) as (c1 & Hc1 & Hb1).
  destruct (filled_count_bounds bar2 bar_width Hwf2 Hw) as (c2 & Hc2 & Hb2).
  exists c1, c2. split; [exact Hc1 | ]. split; [exact Hc2 | ].
  destruct (Z.le_gt_cases (max bar2) (value bar2)) as [Hfull | Hpart].
  - rewrite (filled_all_when_complete bar2 bar_width Hfull Hw) in Hc2.
    injection Hc2 as <-. lia.
  - destruct (Z.eq_dec (value bar1) 0) as [Hz | Hnz].
    + rewrite (filled_none_at_zero bar1 bar_width Hwf1 Hz ltac:(lia) Hw) in Hc1.
      injection Hc1 as <-. lia.
    + pose proof Hwf1 as (Hm1 & Hv1 & _). pose proof Hwf2 as (Hm2 & Hv2 & _).
      unfold is_ulong, ULONG_MAX in Hm1, Hv1, Hm2, Hv2.
      assert (Hred : forall bar, 0 < value bar < max bar -> max bar < 2 ^ 64 ->
                draw_bar_piece_current bar bar_width
                = Done (double_to_int
                          (dmul (double_of_Z (bar_width - 2))
                             (SFdiv 53 1024 (double_of_Z (value bar))
                                (double_of_Z (max bar)))))).
      { intros bar Hv Hm. unfold draw_bar_piece_current, BAR_BORDER_WIDTH. cbv zeta.
        rewrite int_sub_exact by (apply is_int_bounds; unfold INT_MAX in Hw; lia).
        rewrite (proj2 (draw_completed_false bar)) by lia.
        unfold ddiv. rewrite double_of_Z_nonzero by lia. reflexivity. }
      rewrite Hred in Hc1, Hc2 by lia.
      injection Hc1 as <-. injection Hc2 as <-. rewrite Hmax.
      apply scaled_ratio_mono; unfold INT_MAX in *; lia.
Qed.

Lemma filled_count_monotone_witness :
  exists c1 c2,
    draw_bar_piece_current (Build_progressbar 7 3 0 "" (Build_format "|" "=" "|")) 52
    = Done c1 /\
    draw_bar_piece_current (Build_progressbar 7 4 0 "" (Build_format "|" "=" "|")) 52
    = Done c2 /\
    c1 <= c2.
Proof.
  apply (filled_count_monotone
           (Build_progressbar 7 3 0 "" (Build_format "|" "=" "|"))
           (Build_progressbar 7 4 0 "" (Build_format "|" "=" "|")) 52).
  - unfold wf_bar, is_ulong, is_time, ULONG_MAX. cbn. lia.
  - unfold wf_bar, is_ulong, is_time, ULONG_MAX. cbn. lia.
  - reflexivity.
  - cbn. lia.
  - unfold INT_MAX. lia.
Defined.

(** ** The estimate of the remaining time *)

(** Five roundings, each with a relative error of at most [2^-52],
    move a product below [2^31] by less than one. *)
Lemma error_chain_quotient (E V D X Y Z Q P : R) :
  (0 < E -> 0 < V -> 0 < D -> E * D <= 2147483648 * V ->
   Rabs (X - E) <= E * bpow (-52) ->
   Rabs (Y - V) <= V * bpow (-52) ->
   Rabs (Z - D) <= D * bpow (-52) ->
   Rabs (Q - X / Y) <= X / Y * bpow (-52) ->
   Rabs (P - Q * Z) <= Q * Z * bpow (-52) ->
   E * D - V < P * V < E * D + V)%R.
Proof.
  rewrite bpow_m52. set (e := (/ 4503599627370496)%R).
  intros HE HV HD HT HX HY HZ HQ HP.
  assert (He : e = (/ 4503599627370496)%R) by reflexivity. clearbody e.
  assert (He0 : (0 < e < 1)%R) by lra.
  apply rel_error_interval in HX; [ | lra ].
  apply rel_error_interval in HY; [ | lra ].
  apply rel_error_interval in HZ; [ | lra ].
  assert (HXpos : (0 < X)%R) by nra.
  assert (HYpos : (0 < Y)%R) by nra.
  assert (HZpos : (0 < Z)%R) by nra.
  assert (HR0 : (0 < X / Y)%R) by (apply Rdiv_lt_0_compat; assumption).
  apply rel_error_interval in HQ; [ | lra ].
  assert (HR0Y : (X / Y * Y = X)%R) by (field; lra).
  set (R0 := (X / Y)%R) in *. clearbody R0.
  assert (HQpos : (0 < Q)%R) by nra.
  assert (HQZpos : (0 < Q * Z)%R) by (apply Rmult_lt_0_compat; assumption).
  apply rel_error_interval in HP; [ | lra ].
  assert (HPpos : (0 <= P)%R) by nra.
  assert (HQY : (X * (1 - e) <= Q * Y <= X * (1 + e))%R).
  { rewrite <- HR0Y. split.
    - replace (R0 * Y * (1 - e))%R with (R0 * (1 - e) * Y)%R by ring.
      apply Rmult_le_compat_r; lra.
    - replace (R0 * Y * (1 + e))%R with (R0 * (1 + e) * Y)%R by ring.
      apply Rmult_le_compat_r; lra. }
  set (QY := (Q * Y)%R) in *.
  assert (HQYpos : (0 < QY)%R) by (unfold QY; apply Rmult_lt_0_compat; assumption).
  (* P * Y against QY * Z *)
  assert (HPY : (QY * Z * (1 - e) <= P * Y <= QY * Z * (1 + e))%R).
  { unfold QY. split.
    - replace (Q * Y * Z * (1 - e))%R with (Q * Z * (1 - e) * Y)%R by ring.
      apply Rmult_le_compat_r; lra.
    - replace (Q * Y * Z * (1 + e))%R with (Q * Z * (1 + e) * Y)%R by ring.
      apply Rmult_le_compat_r; lra. }
  clearbody QY.
  set (W := (E * D)%R) in *.
  assert (HW : (0 < W)%R) by (unfold W; apply Rmult_lt_0_compat; assumption).
  (* X * Z against W *)
  assert (HXZ : (W * (1 - e) * (1 - e) <= X * Z <= W * (1 + e) * (1 + e))%R).
  { unfold W. split.
    - apply Rle_trans with (E * (1 - e) * Z)%R.
      + replace (E * D * (1 - e) * (1 - e))%R with (E * (1 - e) * (D * (1 - e)))%R by ring.
        apply Rmult_le_compat_l; [nra | lra].
      + apply Rmult_le_compat_r; lra.
    - apply Rle_trans with (E * (1 + e) * Z)%R.
      + apply Rmult_le_compat_r; lra.
      + replace (E * D * (1 + e) * (1 + e))%R with (E * (1 + e) * (D * (1 + e)))%R by ring.
        apply Rmult_le_compat_l; [nra | lra]. }
  set (XZ := (X * Z)%R) in *.
  assert (HQYZ : (XZ * (1 - e) <= QY * Z <= XZ * (1 + e))%R).
  { unfold XZ. split.
    - replace (X * Z * (1 - e))%R with (X * (1 - e) * Z)%R by ring.
      apply Rmult_le_compat_r; lra.
    - replace (X * Z * (1 + e))%R with (X * (1 + e) * Z)%R by ring.
      apply Rmult_le_compat_r; lra. }
  set (QYZ := (QY * Z)%R) in *.
  assert (HXZpos : (0 < XZ)%R) by (unfold XZ; apply Rmult_lt_0_compat; assumption).
  clearbody XZ QYZ W.
  assert (H1 : (W * (1 - e) * (1 - e) * (1 - e) <= QYZ)%R).
  { apply Rle_trans with (XZ * (1 - e))%R; [ | lra ].
    apply Rmult_le_compat_r; lra. }
  assert (H2 : (QYZ <= W * (1 + e) * (1 + e) * (1 + e))%R).
  { apply Rle_trans with (XZ * (1 + e))%R; [lra | ].
    apply Rmult_le_compat_r; lra. }
  assert (HQYZpos : (0 < QYZ)%R) by nra.
  assert (H3 : (W * (1 - e) * (1 - e) * (1 - e) * (1 - e) <= P * Y)%R).
  { apply Rle_trans with (QYZ * (1 - e))%R; [ | lra ].
    apply Rmult_le_compat_r; lra. }
  assert (H4 : (P * Y <= W * (1 + e) * (1 + e) * (1 + e) * (1 + e))%R).
  { apply Rle_trans with (QYZ * (1 + e))%R; [lra | ].
    apply Rmult_le_compat_r; lra. }
  assert (H5 : (P * V * (1 - e) <= P * Y)%R).
  { replace (P * V * (1 - e))%R with (P * (V * (1 - e)))%R by ring.
    apply Rmult_le_compat_l; lra. }
  assert (H6 : (P * Y <= P * V * (1 + e))%R).
  { replace (P * V * (1 + e))%R with (P * (V * (1 + e)))%R by ring.
    apply Rmult_le_compat_l; lra. }
  set (K := (P * V)%R) in *. set (PY := (P * Y)%R) in *. clearbody K PY.
  assert (Hee : (0 <= e * e <= e * / 4503599627370496)%R) by (rewrite He; nra).
  assert (Heee : (0 <= e * e * e <= e * e)%R) by nra.
  assert (Heeee : (0 <= e * e * e * e <= e * e * e)%R) by nra.
  assert (Hup : (W * (1 + e) * (1 + e) * (1 + e) * (1 + e) <= W + W * (5 * e))%R).
  { replace (W * (1 + e) * (1 + e) * (1 + e) * (1 + e))%R
      with (W + W * (4 * e + 6 * (e * e) + 4 * (e * e * e) + e * e * e * e))%R by ring.
    apply Rplus_le_compat_l. apply Rmult_le_compat_l; lra. }
  assert (Hdn : (W - W * (4 * e) <= W * (1 - e) * (1 - e) * (1 - e) * (1 - e))%R).
  { replace (W * (1 - e) * (1 - e) * (1 - e) * (1 - e))%R
      with (W - W * (4 * e - 6 * (e * e) + 4 * (e * e * e) - e * e * e * e))%R by ring.
    apply Rplus_le_compat_l. apply Ropp_le_contravar.
    apply Rmult_le_compat_l; lra. }
  assert (HKe : (K * e = e * K)%R) by ring.
  rewrite He in *.
  split; lra.
Qed.

Lemma remaining_near_quotient (E v d : Z) :
  0 < E < 2 ^ 64 -> 0 < v < 2 ^ 64 -> 0 < d < 2 ^ 64 ->
  E * d / v + 2 <= INT_MAX ->
  let c := double_to_int
             (dmul (SFdiv 53 1024 (double_of_Z E) (double_of_Z v)) (double_of_Z d)) in
  E * d / v - 1 <= c <= E * d / v + 1.
Proof.
  intros HE Hv Hd Hf c. subst c. unfold INT_MAX in Hf.
  change (2 ^ 31 - 1) with 2147483647 in Hf.
  assert (Hbig : 2 ^ 64 < 2 ^ 1000) by (apply Z.pow_lt_mono_r; lia).
  destruct (conv_pair_cases E) as [Hnx _]; [lia | ].
  destruct (conv_pair_cases v) as [Hny _]; [lia | ].
  destruct (conv_pair_cases d) as [Hnz _]; [lia | ].
  pose proof (conv_pair_exponent E HE) as Hex.
  pose proof (conv_pair_exponent v Hv) as Hey.
  pose proof (conv_pair_exponent d Hd) as Hez.
  destruct (div_pair_normal (conv_pair E) (conv_pair v) Hnx Hny) as [Hnq Heq].
  set (q := div_pair (conv_pair E) (conv_pair v)) in *.
  pose proof (mul_pair_normal q (conv_pair d) Hnq Hnz) as Hnp.
  set (p := mul_pair q (conv_pair d)) in *.
  rewrite (double_of_Z_pos E), (double_of_Z_pos v), (double_of_Z_pos d) by lia.
  rewrite (SFdiv_normal false false _ _ Hnx Hny) by lia.
  fold q. cbn [xorb]. unfold dmul.
  rewrite (SFmul_normal false false _ _ Hnq Hnz) by lia.
  fold p. cbn [xorb].
  (* the value of the product, as a real number *)
  pose proof (conv_rel_error E ltac:(lia)) as EX.
  pose proof (conv_rel_error v ltac:(lia)) as EY.
  pose proof (conv_rel_error d ltac:(lia)) as EZ.
  pose proof (div_rel_error _ _ Hnx Hny) as EQ. fold q in EQ.
  pose proof (mul_rel_error _ _ Hnq Hnz) as EP. fold p in EP.
  set (f := E * d / v) in *.
  assert (Hf1 : v * f <= E * d) by (apply Z.mul_div_le; lia).
  assert (Hf2 : E * d + 1 <= v * (f + 1)).
  { pose proof (Z.mul_succ_div_gt (E * d) v ltac:(lia)). unfold f. lia. }
  assert (Hf0 : 0 <= f) by (apply Z.div_pos; nia).
  assert (HT : E * d <= 2147483648 * v) by nia.
  apply IZR_le in Hf1, Hf2, HT.
  rewrite !mult_IZR in Hf1, HT. rewrite plus_IZR, !mult_IZR, plus_IZR in Hf2.
  assert (HER : (0 < IZR E)%R) by (apply IZR_lt; lia).
  assert (HvR : (0 < IZR v)%R) by (apply IZR_lt; lia).
  assert (HdR : (0 < IZR d)%R) by (apply IZR_lt; lia).
  pose proof (error_chain_quotient _ _ _ _ _ _ _ _ HER HvR HdR HT EX EY EZ EQ EP) as Hch.
  assert (HfR : (IZR f <= 2147483645)%R) by (apply IZR_le; lia).
  assert (HPlt : (F2R p < 2147483647)%R).
  { apply Rmult_lt_reg_r with (IZR v); [assumption | ].
    assert ((IZR f + 2) * IZR v <= 2147483647 * IZR v)%R
      by (apply Rmult_le_compat_r; lra).
    lra. }
  assert (Hsnd : snd p <= 0).
  { destruct (Z.le_gt_cases (snd p) 0) as [Hle | Hgt]; [assumption | exfalso].
    unfold F2R in HPlt. rewrite bpow_IZR in HPlt by lia.
    rewrite <- mult_IZR in HPlt. apply lt_IZR in HPlt.
    unfold normal_pair in Hnp.
    assert (0 < 2 ^ snd p) by (apply Z.pow_pos_nonneg; lia).
    assert (2 ^ 52 <= fst p * 2 ^ snd p) by nia. lia. }
  pose proof (shiftl_floor p ltac:(unfold normal_pair in Hnp; lia) Hsnd) as Hfl.
  set (c := Z.shiftl (fst p) (snd p)) in *.
  assert (Hc0 : 0 <= c).
  { unfold c. apply Z.shiftl_nonneg. unfold normal_pair in Hnp. lia. }
  assert (Hc1 : c < 2147483647).
  { apply lt_IZR. lra. }
  rewrite (double_to_int_in_range (finite_of false p) c).
  2:{ rewrite (double_trunc_finite false p Hnp). reflexivity. }
  2:{ apply is_int_bounds. lia. }
  set (P := F2R p) in *. set (V := IZR v) in *. set (F := IZR f) in *.
  set (C := IZR c) in *.
  assert (HPV1 : (C * V <= P * V)%R) by (apply Rmult_le_compat_r; lra).
  assert (HPV2 : (P * V <= (C + 1) * V)%R) by (apply Rmult_le_compat_r; lra).
  assert (HCF1 : (C < F + 2)%R).
  { apply Rmult_lt_reg_r with V; [assumption | ]. lra. }
  assert (HCF2 : (F - 2 < C)%R).
  { apply Rmult_lt_reg_r with V; [assumption | ]. lra. }
  unfold C, F in HCF1, HCF2.
  replace (IZR f + 2)%R with (IZR (f + 2)) in HCF1 by (rewrite plus_IZR; reflexivity).
  replace (IZR f - 2)%R with (IZR (f - 2)) in HCF2 by (rewrite minus_IZR; reflexivity).
  apply lt_IZR in HCF1, HCF2. lia.
Qed.

(** X10.  While the bar is incomplete, has advanced and time has
    passed, the number of seconds shown as remaining is within one
    second of the whole quotient
    [elapsed * (maximum - current) / current], as long as that
    quotient stays two below [INT_MAX]. *)
Theorem eta_within_one_second (e : env) (bar : progressbar) :
  wf_bar bar -> is_time (time e) ->
  0 < value bar < max bar -> 0 < time e - start bar ->
  let quotient := (time e - start bar) * (max bar - value bar) / value bar in
  quotient + 2 <= INT_MAX ->
  exists r,
    progressbar_remaining_seconds e bar = Done r /\
    draw_eta e bar = Done (progressbar_calc_time_components r) /\
    quotient - 1 <= r <= quotient + 1.
Proof.
  intros Hwf Ht Hv Hel quotient Hspec. subst quotient.
  pose proof Hwf as (Hm & Hv' & Hs). unfold is_ulong, ULONG_MAX in Hm, Hv'.
  unfold is_time in Hs, Ht.
  assert (Hbig : 2 ^ 64 < 2 ^ 1000) by (apply Z.pow_lt_mono_r; lia).
  assert (Hr : progressbar_remaining_seconds e bar
               = Done (double_to_int
                         (dmul (SFdiv 53 1024 (double_of_Z (time e - start bar))
                                  (double_of_Z (value bar)))
                            (double_of_Z (max bar - value bar))))).
  { rewrite remaining_seconds_done by assumption. unfold difftime.
    rewrite dgt_zero_of_Z by lia.
    destruct (Z.gtb_spec (value bar) 0) as [_ | Hn]; [ | lia ].
    destruct (Z.ltb_spec 0 (time e - start bar)) as [_ | Hn]; [ | lia ].
    cbn [andb]. unfold ulong_sub, ulong_wrap.
    rewrite (Z.mod_small (max bar - value bar)) by lia. reflexivity. }
  eexists. split; [exact Hr | ]. split.
  - unfold draw_eta. rewrite (proj2 (draw_completed_false bar)) by lia.
    rewrite Hr. reflexivity.
  - apply remaining_near_quotient; lia.
Qed.

Lemma eta_within_one_second_witness :
  exists r,
    progressbar_remaining_seconds (Build_env 10 None)
      (Build_progressbar 10 3 0 "" (Build_format "|" "=" "|")) = Done r /\
    draw_eta (Build_env 10 None)
      (Build_progressbar 10 3 0 "" (Build_format "|" "=" "|"))
    = Done (progressbar_calc_time_components r) /\
    (10 - 0) * (10 - 3) / 3 - 1 <= r <= (10 - 0) * (10 - 3) / 3 + 1.
Proof.
  apply (eta_within_one_second (Build_env 10 None)
           (Build_progressbar 10 3 0 "" (Build_format "|" "=" "|"))).
  - unfold wf_bar, is_ulong, is_time, ULONG_MAX. cbn. lia.
  - unfold is_time. cbn. lia.
  - cbn. lia.
  - cbn. lia.
  - unfold INT_MAX. vm_compute. discriminate.
Defined.

(** ** Finish *)

(** X11.  [progressbar_finish] draws the bar as it is, without
    filling it, and then writes a newline: it appends the text of a
    draw of the same bar and a newline to the error stream and leaves
    the standard output alone. *)
Theorem finish_draws_then_newline (e : env) (bar : progressbar) (s : streams) :
  wf_bar bar ->
  exists text,
    draw_output e bar = Done text /\
    progressbar_draw e bar s = Done (Build_streams (out s) (err s ++ text)) /\
    progressbar_finish e bar s
    = Done (Build_streams (out s) (err s ++ text ++ [LF])).
Proof.
  intros Hwf.
  destruct (progressbar_draw_done e bar s Hwf) as (s1 & H1).
  pose proof H1 as H1'. rewrite progressbar_draw_appends in H1'.
  destruct (draw_output e bar) as [text | | ] eqn:Ho; try discriminate.
  cbn [bind ret] in H1'. injection H1' as <-.
  exists text. split; [reflexivity | ]. split; [exact H1 | ].
  unfold progressbar_finish. rewrite H1. cbn [bind ret fputs out err].
  rewrite <- app_assoc. reflexivity.
Qed.

Lemma finish_draws_then_newline_witness :
  let bar := Build_progressbar 100 0 0 "X" (Build_format "|" "=" "|") in
  wf_bar bar /\
  exists text,
    progressbar_finish (Build_env 0 (Some 40)) bar (Build_streams [] [])
    = Done (Build_streams [] ([] ++ text ++ [LF])).
Proof.
  cbv zeta.
  assert (Hwf : wf_bar (Build_progressbar 100 0 0 "X" (Build_format "|" "=" "|")))
    by (unfold wf_bar, is_ulong, is_time, ULONG_MAX; cbn; lia).
  split; [exact Hwf | ].
  destruct (finish_draws_then_newline (Build_env 0 (Some 40)) _ (Build_streams [] []) Hwf)
    as (text & _ & _ & Hf).
  exists text. exact Hf.
Defined.

(** ** Creation *)

(** X12.  [progressbar_new_with_format] returns no bar and writes
    nothing when the allocation fails; with an allocation that
    succeeds it stops on its assertion when the format is not of three
    characters; with a format of three characters it returns a bar of
    current value 0, started now, with the label and the three
    characters, after one draw of that bar. *)
Theorem new_with_format_cases (malloc_ok : bool) (now : Z) (e : env)
  (text0 : string) (steps : Z) (fmt : string) (s : streams) :
  (malloc_ok = false ->
   progressbar_new_with_format malloc_ok now e text0 steps fmt s = Done (None, s)) /\
  (malloc_ok = true -> String.length fmt <> 3%nat ->
   progressbar_new_with_format malloc_ok now e text0 steps fmt s = AssertFailed) /\
  (malloc_ok = true -> is_ulong steps -> is_time now ->
   forall b f d : ascii,
   fmt = String b (String f (String d EmptyString)) ->
   let bar := Build_progressbar steps 0 now text0 (Build_format b f d) in
   exists text,
     draw_output e bar = Done text /\
     progressbar_new_with_format malloc_ok now e text0 steps fmt s
     = Done (Some bar, Build_streams (out s) (err s ++ text))).
Proof.
  split; [ | split ].
  - intros ->. reflexivity.
  - intros -> Hlen. unfold progressbar_new_with_format. cbn [negb].
    rewrite <- list_ascii_length in Hlen.
    destruct (list_ascii_of_string fmt) as [ | b [ | f [ | d [ | x l ]]]];
      try reflexivity.
    cbn in Hlen. congruence.
  - intros -> Hmax Hnow b f d -> bar.
    assert (Hwf : wf_bar bar).
    { unfold wf_bar, bar. cbn [max value start].
      split; [exact Hmax | split; [unfold is_ulong, ULONG_MAX; lia | exact Hnow]]. }
    destruct (progressbar_draw_done e bar s Hwf) as (s1 & H1).
    pose proof H1 as H1'. rewrite progressbar_draw_appends in H1'.
    destruct (draw_output e bar) as [text | | ] eqn:Ho; try discriminate.
    cbn [bind ret] in H1'. injection H1' as <-.
    exists text. split; [reflexivity | ].
    unfold progressbar_new_with_format. cbn [negb list_ascii_of_string].
    unfold progressbar_update_label. cbn [max value start format].
    fold bar. rewrite H1. reflexivity.
Qed.

Lemma new_with_format_cases_witness :
  progressbar_new_with_format true 0 (Build_env 0 None) "X" 100 "<->>"
    (Build_streams [] [])
  = AssertFailed.
Proof.
  apply (proj1 (proj2 (new_with_format_cases true 0 (Build_env 0 None) "X" 100 "<->>"
                         (Build_streams [] [])))).
  - reflexivity.
  - cbn. lia.
Defined.

(** ** The macro [for_bar] *)

Lemma inc_done (e : env) (bar : progressbar) (s : streams) :
  wf_bar bar ->
  exists s',
    progressbar_inc e bar s
    = Done (Build_progressbar (max bar) ((value bar + 1) mod 2 ^ 64) (start bar)
              (label bar) (format bar), s').
Proof.
  intros (Hm & Hv & Hs).
  unfold progressbar_inc, progressbar_update, ulong_add, ulong_wrap.
  set (bar' := Build_progressbar (max bar) ((value bar + 1) mod 2 ^ 64) (start bar)
                 (label bar) (format bar)).
  assert (Hwf' : wf_bar bar').
  { unfold wf_bar, bar'. cbn [max value start].
    split; [exact Hm | split; [ | exact Hs]].
    unfold is_ulong, ULONG_MAX.
    pose proof (Z.mod_pos_bound (value bar + 1) (2 ^ 64) ltac:(lia)). lia. }
  destruct (progressbar_draw_done e bar' s Hwf') as (s' & Hd).
  exists s'. rewrite Hd. reflexivity.
Qed.

Lemma for_bar_loop_done (n : nat) (envs : nat -> env) (body : loop_body) (end_ : Z) :
  plain_body body -> is_int end_ ->
  forall (fuel k : nat) (i : Z) (bar : progressbar) (s : streams),
  wf_bar bar -> is_int i -> Z.of_nat n = Z.max 0 (end_ - i) -> (n < fuel)%nat ->
  exists s',
    for_bar_loop fuel envs k body i end_ bar s
    = Some (Done ((k + n)%nat,
                  Build_progressbar (max bar) ((value bar + Z.of_nat n) mod 2 ^ 64)
                    (start bar) (label bar) (format bar), s')).
Proof.
  intros Hbody He.
  induction n as [ | n IH]; intros fuel k i bar s Hwf Hi Hn Hfuel;
    (destruct fuel as [ | fuel]; [lia | ]); cbn [for_bar_loop].
  - destruct (Z.ltb_spec i end_) as [Hlt | Hge]; [lia | ].
    exists s. pose proof Hwf as (_ & Hv & _). unfold is_ulong, ULONG_MAX in Hv.
    rewrite Z.add_0_r, Z.mod_small, Nat.add_0_r by lia. destruct bar; reflexivity.
  - destruct (Z.ltb_spec i end_) as [Hlt | Hge]; [ | lia ].
    cbv zeta. destruct (Hbody i bar s) as (-> & -> & ->).
    destruct (inc_done (envs k) bar (streams_of (body i bar s)) Hwf) as (s1 & ->).
    cbn [bind_fuel fst snd].
    set (bar1 := Build_progressbar (max bar) ((value bar + 1) mod 2 ^ 64) (start bar)
                   (label bar) (format bar)).
    assert (Hwf1 : wf_bar bar1).
    { destruct Hwf as (Hm & Hv & Hs). unfold wf_bar, bar1. cbn [max value start].
      split; [exact Hm | split; [ | exact Hs]].
      unfold is_ulong, ULONG_MAX.
      pose proof (Z.mod_pos_bound (value bar + 1) (2 ^ 64) ltac:(lia)). lia. }
    assert (Hi1 : is_int (i + 1)) by (unfold is_int in *; lia).
    rewrite (int_add_exact i 1 Hi1).
    destruct (IH fuel (S k) (i + 1) bar1 s1 Hwf1 Hi1 ltac:(lia) ltac:(lia))
      as (s' & ->).
    exists s'. unfold bar1. cbn [max value start label format].
    replace (S k + n)%nat with (k + S n)%nat by lia.
    rewrite Zplus_mod_idemp_l.
    replace (value bar + 1 + Z.of_nat n) with (value bar + Z.of_nat (S n)) by lia.
    reflexivity.
Qed.

(** X13.  With [int] bounds, an allocation that succeeds and a body
    that only writes to the streams (it reaches its end, without
    [break] or [continue], and leaves the counter and the bar as they
    are), the loop of [for_bar] ends: after the first draw it makes
    [end - start] rounds (none when [end <= start]), each with one
    increment, which leave the bar at that number of steps of [end],
    and [progressbar_finish] draws that bar and a newline.  For a
    positive [end], this last line shows a complete bar exactly when
    [start <= 0]. *)
Theorem for_bar_final_bar (fuel : nat) (now : Z) (envs : nat -> env)
  (body : loop_body) (start_ end_ : Z) (s : streams) :
  is_time now -> is_int start_ -> is_int end_ -> plain_body body ->
  (Z.to_nat (end_ - start_) < fuel)%nat ->
  let n := Z.to_nat (end_ - start_) in
  let bar0 := Build_progressbar (ulong_wrap end_) 0 now "Loading"
                (Build_format "|" "=" "|") in
  let progress := Build_progressbar (ulong_wrap end_) (Z.max 0 (end_ - start_)) now
                    "Loading" (Build_format "|" "=" "|") in
  exists s0 s1 text,
    progressbar_draw (envs O) bar0 s = Done s0 /\
    for_bar_loop fuel envs 1%nat body start_ end_ bar0 s0
    = Some (Done (S n, progress, s1)) /\
    draw_output (envs (S n)) progress = Done text /\
    for_bar fuel true now envs body start_ end_ s
    = Some (Done (Some (Build_streams (out s1) (err s1 ++ text ++ [LF])))) /\
    (0 < end_ -> (draw_completed progress = true <-> start_ <= 0)).
Proof.
  intros Hnow Hs He Hbody Hfuel n bar0 progress.
  pose proof Hs as Hs'. pose proof He as He'.
  unfold is_int, INT_MIN, INT_MAX in Hs', He'.
  assert (Hw : 0 <= ulong_wrap end_ < 2 ^ 64)
    by (unfold ulong_wrap; apply Z.mod_pos_bound; lia).
  assert (Hwf0 : wf_bar bar0).
  { unfold wf_bar, bar0, is_ulong, ULONG_MAX. cbn [max value start].
    split; [lia | split; [lia | exact Hnow]]. }
  destruct (progressbar_draw_done (envs O) bar0 s Hwf0) as (s0 & Hd0).
  destruct (for_bar_loop_done n envs body end_ Hbody He fuel 1%nat start_ bar0 s0
              Hwf0 Hs ltac:(unfold n; lia) Hfuel) as (s1 & Hloop).
  assert (Hval : (value bar0 + Z.of_nat n) mod 2 ^ 64 = Z.max 0 (end_ - start_)).
  { unfold bar0, n. cbn [value].
    replace (Z.of_nat (Z.to_nat (end_ - start_))) with (Z.max 0 (end_ - start_)) by lia.
    rewrite Z.add_0_l. apply Z.mod_small. lia. }
  rewrite Hval in Hloop. change (1 + n)%nat with (S n) in Hloop.
  change (Build_progressbar (max bar0) (Z.max 0 (end_ - start_)) (start bar0)
            (label bar0) (format bar0)) with progress in Hloop.
  assert (Hwf : wf_bar progress).
  { unfold wf_bar, progress, is_ulong, ULONG_MAX. cbn [max value start].
    split; [lia | split; [lia | exact Hnow]]. }
  destruct (progressbar_draw_done (envs (S n)) progress s1 Hwf) as (s2 & Hd2).
  pose proof Hd2 as Hd2'. rewrite progressbar_draw_appends in Hd2'.
  destruct (draw_output (envs (S n)) progress) as [text | | ] eqn:Ho; try discriminate.
  cbn [bind ret] in Hd2'. injection Hd2' as <-.
  exists s0, s1, text.
  split; [exact Hd0 | ]. split; [exact Hloop | ]. split; [reflexivity | ].
  split.
  - unfold for_bar, progressbar_new, progressbar_new_with_format.
    cbn [negb list_ascii_of_string]. unfold progressbar_update_label.
    cbn [max value start format].
    change (Build_progressbar (ulong_wrap end_) 0 now "Loading"
              (Build_format "|" "=" "|")) with bar0.
    rewrite Hd0. cbn [bind ret bind_fuel fst snd]. rewrite Hloop.
    cbn [bind_fuel]. unfold progressbar_finish. rewrite Hd2.
    cbn [bind ret bind_fuel]. unfold fputs. cbn [out err].
    rewrite <- app_assoc. reflexivity.
  - intros Hpos. unfold progress.
    assert (Hend : ulong_wrap end_ = end_) by (unfold ulong_wrap; apply Z.mod_small; lia).
    rewrite Hend. split.
    + intros Hc. apply draw_completed_true in Hc. cbn [max value] in Hc. lia.
    + intros Hle. apply draw_completed_true. cbn [max value]. lia.
Qed.

Lemma for_bar_final_bar_witness :
  let progress := Build_progressbar (ulong_wrap 5) (Z.max 0 (5 - 2)) 0
                    "Loading" (Build_format "|" "=" "|") in
  plain_body (fun i p s => Build_body_result BodyEnd i p s) /\
  (draw_completed progress = true <-> 2 <= 0).
Proof.
  intros progress.
  assert (Hbody : plain_body (fun i p s => Build_body_result BodyEnd i p s))
    by (intros i p s; repeat split).
  split; [exact Hbody | ].
  destruct (for_bar_final_bar 4 0 (fun _ => Build_env 0 None)
              (fun i p s => Build_body_result BodyEnd i p s) 2 5
              (Build_streams [] [])
              ltac:(unfold is_time; lia)
              ltac:(apply is_int_bounds; lia)
              ltac:(apply is_int_bounds; lia)
              Hbody
              ltac:(cbn; lia))
    as (s0 & s1 & text & _ & _ & _ & _ & H).
  apply H. lia.
Defined.
